(** * Rental-price data preparation: the two notebooks, embedded and verified

    The repository consists of two Jupyter notebooks,
    [data_generation_using_LLM.ipynb] and [data_preparation_notebook.ipynb].
    Their code cells are embedded below as Rocq functions: Python strings
    are lists of code points, the [re] calls run on a small backtracking
    matcher, exceptions are an error monad, a pandas frame is the list of
    its rows and a row a finite map from column label to cell. *)

From Stdlib Require Import ZArith NArith QArith Qabs String Ascii Lia.
From stdpp Require Import base tactics option list gmap strings.

Local Open Scope Z_scope.
Local Open Scope nat_scope.
Local Open Scope list_scope.

(** ** Exceptions *)

Inductive exn :=
| AttributeError | IndexError | KeyError | TypeError | ValueError
| InvalidIndexError | FileNotFoundError.

Inductive result (A : Type) :=
| Ok (a : A)
| Raise (e : exn).
Arguments Ok {A} a.
Arguments Raise {A} e.

#[global] Instance result_ret : MRet result := fun A a => Ok a.
#[global] Instance result_bind : MBind result := fun A B f m =>
  match m with Ok a => f a | Raise e => Raise e end.
#[global] Instance result_fmap : FMap result := fun A B f m =>
  match m with Ok a => Ok (f a) | Raise e => Raise e end.

(** [mapM] of stdpp, read on [result]: the first exception wins. *)
Fixpoint traverse {A B} (f : A -> result B) (l : list A) : result (list B) :=
  match l with
  | [] => Ok []
  | x :: l' => y ← f x; ys ← traverse f l'; Ok (y :: ys)
  end.

(** ** Python strings *)

Module Py.

(** A [str] is a sequence of Unicode code points. *)
Abbreviation char := N (only parsing).
Abbreviation str := (list N) (only parsing).

Definition chr (a : ascii) : char := N_of_ascii a.
Definition lit (s : string) : str := List.map chr (list_ascii_of_string s).

Definition NL : char := 10%N.       (* '\n' *)
Definition COMMA : char := 44%N.    (* ',' *)
Definition DOT : char := 46%N.      (* '.' *)
Definition SLASH : char := 47%N.    (* '/' *)
Definition AT : char := 64%N.       (* '@' *)

(** Code points of general category Nd come in decades [z .. z+9] with the
    decimal values 0..9; these are the decade starts of Unicode 14.0.0, the
    table of the CPython 3.11 that the notebooks record as their kernel. *)
Definition decimal_zeros : list N :=
  [48; 1632; 1776; 1984; 2406; 2534; 2662; 2790; 2918; 3046; 3174; 3302;
   3430; 3558; 3664; 3792; 3872; 4160; 4240; 6112; 6160; 6470; 6608; 6784;
   6800; 6992; 7088; 7232; 7248; 42528; 43216; 43264; 43472; 43504; 43600;
   44016; 65296; 66720; 68912; 69734; 69872; 69942; 70096; 70384; 70736;
   70864; 71248; 71360; 71472; 71904; 72016; 72784; 73040; 73120; 92768;
   92864; 93008; 120782; 120792; 120802; 120812; 120822; 123200; 123632;
   125264; 130032]%N.

(** [unicodedata.decimal]: the value of a decimal digit, [None] otherwise. *)
Fixpoint decimal_in (zs : list N) (c : char) : option N :=
  match zs with
  | [] => None
  | z :: zs' =>
      if ((z <=? c) && (c <? z + 10))%N then Some (c - z)%N
      else decimal_in zs' c
  end.
Definition decimal (c : char) : option N := decimal_in decimal_zeros c.

(** [\d] of a str pattern, also [str.isdecimal] on one character. *)
Definition is_digit (c : char) : bool :=
  match decimal c with Some _ => true | None => false end.
#[global] Arguments decimal : simpl never.
#[global] Arguments is_digit : simpl never.

Fixpoint take_while {A} (p : A -> bool) (l : list A) : list A :=
  match l with
  | [] => []
  | x :: l' => if p x then x :: take_while p l' else []
  end.

Fixpoint drop_while {A} (p : A -> bool) (l : list A) : list A :=
  match l with
  | [] => []
  | x :: l' => if p x then drop_while p l' else l
  end.

(** [s.split(sep)] for a separator of one character. *)
Fixpoint split (sep : char) (s : str) : list str :=
  match s with
  | [] => [[]]
  | c :: t =>
      if (c =? sep)%N then [] :: split sep t
      else match split sep t with
           | l :: ls => (c :: l) :: ls
           | [] => [[c]]
           end
  end.

(** [sep.join(parts)]. *)
Fixpoint join (sep : str) (parts : list str) : str :=
  match parts with
  | [] => []
  | [p] => p
  | p :: ps => p ++ sep ++ join sep ps
  end.

(** Decimal value of a text, read left to right; a character that is no
    digit counts as 0 (it never occurs where [int] accepts the text). *)
Definition digit_value (c : char) : Z :=
  match decimal c with Some d => Z.of_N d | None => 0%Z end.

Definition decimal_value (s : str) : Z :=
  fold_left (fun acc c => (10 * acc + digit_value c)%Z) s 0%Z.

(** [sys.int_info.default_max_str_digits] of CPython 3.11. *)
Definition int_max_str_digits : nat := 4300.

(** [int(s)] on the texts this program passes to it, which are runs of
    decimal digits: the decimal value, and [ValueError] beyond the limit on
    the number of digits that CPython 3.11 puts on the conversion (leading
    zeros count). Texts with a sign, blanks or underscores are outside this
    model and answered [ValueError] as well. *)
Definition int (s : str) : result Z :=
  match s with
  | [] => Raise ValueError
  | _ =>
      if forallb is_digit s then
        if length s <=? int_max_str_digits then Ok (decimal_value s)
        else Raise ValueError
      else Raise ValueError
  end.

End Py.

(** ** The [re] module: a backtracking matcher *)

Module Re.
Import Py.

(** Patterns, as far as the notebooks use them: character classes,
    sequence, ordered alternative, greedy repetition, and the capturing
    group number 1. *)
Inductive regex :=
| Chr (p : char -> bool)
| Eps
| Cat (r1 r2 : regex)
| Alt (r1 r2 : regex)
| Star (r : regex)
| Group (r : regex).

(** Derived forms: [r{n}], greedy [r{0,n}], [r+]. *)
Fixpoint times (n : nat) (r : regex) : regex :=
  match n with 0 => Eps | S n' => Cat r (times n' r) end.
Fixpoint upto (n : nat) (r : regex) : regex :=
  match n with 0 => Eps | S n' => Alt (Cat r (upto n' r)) Eps end.
Definition Plus (r : regex) : regex := Cat r (Star r).

(** A matcher state: what group 1 holds so far, and the input left. *)
Definition state : Type := option str * str.

(** Greedy repetition of [step]: one more round first, stopping second.
    A round must consume input; the fuel is the length of the input, which
    no sequence of such rounds can exceed. *)
Fixpoint star (step : state -> list state) (fuel : nat) (st : state)
  : list state :=
  match fuel with
  | 0 => [st]
  | S n =>
      (st' ← step st;
       if length (snd st') <? length (snd st) then star step n st' else [])
      ++ [st]
  end.

(** All ways to match [r] at the head of the input, in the order in which
    a backtracking matcher tries them; the head of the list is the match
    that [re] reports. *)
Fixpoint run (r : regex) (st : state) : list state :=
  match r with
  | Chr p =>
      match snd st with
      | c :: t => if p c then [(fst st, t)] else []
      | [] => []
      end
  | Eps => [st]
  | Cat r1 r2 => st' ← run r1 st; run r2 st'
  | Alt r1 r2 => run r1 st ++ run r2 st
  | Star r1 => star (run r1) (length (snd st)) st
  | Group r1 =>
      (fun st' : state =>
         (Some (take (length (snd st) - length (snd st')) (snd st)), snd st'))
      <$> run r1 st
  end.

(** What the greedy repetition of a character class yields: the input
    after the longest run of the class first, then after each shorter run,
    the untouched input last. *)
Fixpoint class_suffixes (p : char -> bool) (g : option str) (s : str)
  : list state :=
  match s with
  | [] => [(g, [])]
  | c :: t => if p c then class_suffixes p g t ++ [(g, s)] else [(g, s)]
  end.

(** A match object: where it starts, group 0, group 1, the input after. *)
Record Match := mkMatch {
  m_start : nat;
  m_group0 : str;
  m_group1 : option str;
  m_rest : str
}.

(** [re.search(r, s)]: the first position at which [r] matches. *)
Fixpoint search_from (pos : nat) (r : regex) (s : str) : option Match :=
  match run r (None, s) with
  | (g, rest) :: _ =>
      Some (mkMatch pos (take (length s - length rest) s) g rest)
  | [] =>
      match s with
      | [] => None
      | _ :: t => search_from (S pos) r t
      end
  end.
Definition search (r : regex) (s : str) : option Match := search_from 0 r s.

(** [m.group(1)]; a group that took no part in the match gives [None]. *)
Definition group1 (m : Match) : option str := m_group1 m.

(** [re.findall(r, s)] for a pattern with one group: group 1 of the
    successive matches, each search resuming where the last match ended
    (one character further after an empty match). *)
Fixpoint findall_fuel (fuel : nat) (r : regex) (s : str) : list str :=
  match fuel with
  | 0 => []
  | S n =>
      match run r (None, s) with
      | (g, rest) :: _ =>
          default [] g ::
          (if length rest <? length s then findall_fuel n r rest
           else match s with [] => [] | _ :: t => findall_fuel n r t end)
      | [] => match s with [] => [] | _ :: t => findall_fuel n r t end
      end
  end.
Definition findall (r : regex) (s : str) : list str :=
  findall_fuel (S (length s)) r s.

(** The language of a pattern: which texts it matches as a whole. *)
Inductive matches : regex -> str -> Prop :=
| M_chr p c : p c = true -> matches (Chr p) [c]
| M_eps : matches Eps []
| M_cat r1 r2 u v : matches r1 u -> matches r2 v -> matches (Cat r1 r2) (u ++ v)
| M_alt_l r1 r2 u : matches r1 u -> matches (Alt r1 r2) u
| M_alt_r r1 r2 u : matches r2 u -> matches (Alt r1 r2) u
| M_star_nil r : matches (Star r) []
| M_star_app r u v :
    matches r u -> matches (Star r) v -> matches (Star r) (u ++ v)
| M_group r u : matches r u -> matches (Group r) u.

(** A text contains a substring that the pattern matches. *)
Definition contains_match (r : regex) (s : str) : Prop :=
  exists pre m post, s = pre ++ m ++ post /\ matches r m.

(** The three patterns of the notebooks. *)
Definition digit : regex := Chr is_digit.
Definition any : regex := Chr (fun c => negb (c =? NL)%N).   (* . *)
Definition one (c : char) : regex := Chr (fun x => (x =? c)%N).
Definition dot_or_comma : regex :=
  Chr (fun x => (x =? DOT)%N || (x =? COMMA)%N).              (* [.,] *)

(** r'(\d{1,3}(?:[.,]\d{3})+|\d{3,})' *)
Definition pattern_numbers : regex :=
  Group (Alt (Cat (Cat digit (upto 2 digit))
                  (Plus (Cat dot_or_comma (times 3 digit))))
             (Cat (times 3 digit) (Star digit))).

(** r'(\d{3,})' *)
Definition pattern_fees : regex :=
  Group (Cat (times 3 digit) (Star digit)).

(** The pattern of the location cell: '/@', then group 1 holding any
    run of characters other than newline (dot, starred), then ','. *)
Definition pattern_coordinates : regex :=
  Cat (one SLASH) (Cat (one AT) (Cat (Group (Star any)) (one COMMA))).

End Re.

Import Py Re.

(** ** The notebook that prepares the fees with a language model:
       its text functions *)

(** Truth value of what [re.search] returns. *)
Definition truthy (m : option Match) : bool :=
  match m with Some _ => true | None => false end.

(** [filter_lines] of cell 5, with the pattern bound at that cell. *)
Definition filter_lines (text : str) : str :=
  let lines := split NL text in
  let filtered :=
    List.filter (fun line => truthy (search pattern_numbers line)) lines in
  join [NL] filtered.

(** The loop of [extract_and_sum]: [total += int(match)] for each match. *)
Fixpoint sum_matches (found : list str) (total : Z) : result Z :=
  match found with
  | [] => Ok total
  | m :: found' => v ← int m; sum_matches found' (total + v)%Z
  end.

(** [extract_and_sum] of cell 25. *)
Definition extract_and_sum (text : str) (pattern : regex) : result Z :=
  sum_matches (findall pattern text) 0%Z.

(** *** The words of the specification about them *)

(** The maximal runs of consecutive digits of a text, from left to right. *)
Fixpoint digit_runs (s : str) : list str :=
  match s with
  | [] => []
  | c :: t =>
      if is_digit c then
        match t with
        | d :: _ =>
            if is_digit d then
              match digit_runs t with
              | r :: rs => (c :: r) :: rs
              | [] => [[c]]
              end
            else [c] :: digit_runs t
        | [] => [[c]]
        end
      else digit_runs t
  end.

(** Those of three or more digits. *)
Definition long_runs (s : str) : list str :=
  List.filter (fun r => 3 <=? length r) (digit_runs s).

Definition sum_Z (l : list Z) : Z := fold_right Z.add 0%Z l.

(** [select P ls ks]: [ks] holds exactly the members of [ls] that satisfy
    [P], each as often as in [ls] and in the order of [ls]. *)
Inductive select {A} (P : A -> Prop) : list A -> list A -> Prop :=
| select_nil : select P [] []
| select_keep x ls ks : P x -> select P ls ks -> select P (x :: ls) (x :: ks)
| select_drop x ls ks : ~ P x -> select P ls ks -> select P (x :: ls) ks.

(** *** The words of the specification about the location pattern *)

(** The text [x] has '/@' right after [pre], and a comma later on the same
    line. *)
Definition marker : Py.str := [Py.SLASH; Py.AT].
Definition marker_at (x pre : Py.str) : Prop :=
  exists body post,
    x = pre ++ marker ++ body ++ Py.COMMA :: post /\ Py.NL ∉ body.
Definition has_marker (x : Py.str) : Prop := exists pre, marker_at x pre.

(** The candidates that the location pattern goes through after '/@':
    for every comma of the first line of [s], last comma first, the text
    before it (appended to [pre]) as group 1 and the text after it. *)
Fixpoint comma_backtrack (pre s : Py.str) : list Re.state :=
  match s with
  | [] => []
  | c :: t =>
      if negb (c =? Py.NL)%N then
        comma_backtrack (pre ++ [c]) t
        ++ (if (c =? Py.COMMA)%N then [(Some pre, t)] else [])
      else []
  end.

(** ** pandas *)

Module Pd.
Import Py.

(** A cell of a frame: missing, a truth value, a number, a text. Numbers
    are rationals; binary floating point is not modelled. *)
Inductive cell :=
| NaN
| Bool (b : bool)
| Num (x : Q)
| Str (s : str).

(** A row maps column labels to cells; a frame is its column labels and
    its rows, in order. The index is the position of the row. *)
Record DataFrame := mkDF {
  columns : list string;
  rows : list (gmap string cell)
}.

(** A Series is the list of the cells of one column, by position. *)

(** [pd.isna]. *)
Definition isna (c : cell) : bool :=
  match c with NaN => true | _ => false end.

(** The cell of a row under a label that the frame has. *)
Definition at_label (r : gmap string cell) (label : string) : cell :=
  default NaN (r !! label).

(** [df[label]], [df.label]. *)
Definition getcol (label : string) (df : DataFrame) : result (list cell) :=
  if bool_decide (label ∈ columns df)
  then Ok ((fun r => at_label r label) <$> rows df)
  else Raise KeyError.

(** [df[label] = series]: the column is replaced, or added as the last
    one. *)
Definition setcol (label : string) (s : list cell) (df : DataFrame)
  : result DataFrame :=
  if length s =? length (rows df) then
    Ok {| columns := if bool_decide (label ∈ columns df) then columns df
                     else columns df ++ [label];
          rows := zip_with (fun r c => <[label := c]> r) (rows df) s |}
  else Raise ValueError.

(** [df[mask]] for a boolean Series. *)
Fixpoint select_rows {A} (mask : list bool) (l : list A) : list A :=
  match mask, l with
  | b :: mask', r :: l' =>
      if b then r :: select_rows mask' l' else select_rows mask' l'
  | _, _ => []
  end.
Definition mask_rows (mask : list bool) (df : DataFrame) : DataFrame :=
  {| columns := columns df; rows := select_rows mask (rows df) |}.

(** [df[[label, ...]]]. *)
Definition project (labels : list string) (df : DataFrame) : result DataFrame :=
  if forallb (fun c => bool_decide (c ∈ columns df)) labels then
    Ok {| columns := labels;
          rows := (fun r => filter (fun kv => kv.1 ∈ labels) r) <$> rows df |}
  else Raise KeyError.

(** [df.drop(columns=labels)]: every label must be a column. *)
Definition drop (labels : list string) (df : DataFrame) : result DataFrame :=
  if forallb (fun c => bool_decide (c ∈ columns df)) labels then
    Ok {| columns := filter (fun c => c ∉ labels) (columns df);
          rows := (fun r => foldr delete r labels) <$> rows df |}
  else Raise KeyError.

(** A number as Python compares it: [True] is 1 and [False] is 0. *)
Definition as_number (c : cell) : option Q :=
  match c with
  | Num x => Some x
  | Bool b => Some (if b then 1%Q else 0%Q)
  | _ => None
  end.

(** [a <= b] on str: by code points, the shorter text first. *)
Fixpoint str_le (a b : str) : bool :=
  match a, b with
  | [], _ => true
  | _ :: _, [] => false
  | x :: a', y :: b' =>
      if (x <? y)%N then true
      else if (x =? y)%N then str_le a' b' else false
  end.

(** Equality of two cells as the hash tables behind [isin] and [map] see
    it: missing equals missing, and [True] equals 1. *)
Definition cell_eqb (a b : cell) : bool :=
  match a, b with
  | NaN, NaN => true
  | Str s, Str t => bool_decide (s = t)
  | _, _ =>
      match as_number a, as_number b with
      | Some x, Some y => Qeq_bool x y
      | _, _ => false
      end
  end.

(** [series.eq(True)]: never raises; missing is not equal. *)
Definition eq_True (c : cell) : bool :=
  match as_number c with Some x => Qeq_bool x 1 | None => false end.

(** [series.ne(text)]. *)
Definition ne_str (t : str) (c : cell) : bool :=
  match c with Str s => negb (bool_decide (s = t)) | _ => true end.

(** [series.le(text)] on an object column: missing compares [False], a
    number against a text is a [TypeError]. *)
Definition le_str (t : str) (c : cell) : result bool :=
  match c with
  | Str s => Ok (str_le s t)
  | NaN => Ok false
  | _ => Raise TypeError
  end.

(** [series.lt(n)]. *)
Definition lt_num (n : Q) (c : cell) : result bool :=
  match c with
  | NaN => Ok false
  | Str _ => Raise TypeError
  | _ => match as_number c with
         | Some x => Ok (if Qlt_le_dec x n then true else false)
         | None => Ok false
         end
  end.

(** [source.set_index(key)[value]]: a Series of [value] labelled by
    [key]. *)
Definition set_index (key value : string) (source : DataFrame)
  : result (list (cell * cell)) :=
  k ← getcol key source; v ← getcol value source; Ok (zip k v).

Definition index_has (index : list (cell * cell)) (c : cell) : bool :=
  existsb (fun kv => cell_eqb kv.1 c) index.

Fixpoint index_get (index : list (cell * cell)) (c : cell) : option cell :=
  match index with
  | [] => None
  | (k, v) :: index' => if cell_eqb k c then Some v else index_get index' c
  end.

Fixpoint is_unique (index : list (cell * cell)) : bool :=
  match index with
  | [] => true
  | (k, _) :: index' => negb (index_has index' k) && is_unique index'
  end.

(** [series.isin(mapper.index)]. *)
Definition isin (index : list (cell * cell)) (s : list cell) : list bool :=
  index_has index <$> s.

(** [series.map(mapper)] for a Series [mapper]: the index of the mapper
    must be unique; a value not in it maps to missing. *)
Definition map_series (mapper : list (cell * cell)) (s : list cell)
  : result (list cell) :=
  if is_unique mapper
  then Ok ((fun c => default NaN (index_get mapper c)) <$> s)
  else Raise InvalidIndexError.

(** [df.loc[mask, label] = series], the Series aligned by position: the
    rows of the mask take the cell of the Series; in the other rows the
    column stays as it is, and is created as missing if it is new. *)
Fixpoint loc_rows (label : string) (mask : list bool) (s : list cell)
    (rs : list (gmap string cell)) : list (gmap string cell) :=
  match mask, s, rs with
  | b :: mask', c :: s', r :: rs' =>
      (if b then <[label := c]> r else <[label := at_label r label]> r)
      :: loc_rows label mask' s' rs'
  | _, _, _ => []
  end.
Definition loc_set (label : string) (mask : list bool) (s : list cell)
    (df : DataFrame) : DataFrame :=
  {| columns := if bool_decide (label ∈ columns df) then columns df
                else columns df ++ [label];
     rows := loc_rows label mask s (rows df) |}.

(** [df.loc[df[key].isin(mapper.index), label] = df[key].map(mapper)]:
    the right-hand side is evaluated first. *)
Definition update_from (key label : string) (mapper : list (cell * cell))
    (df : DataFrame) : result DataFrame :=
  k ← getcol key df;
  mapped ← map_series mapper k;
  k' ← getcol key df;
  Ok (loc_set label (isin mapper k') mapped df).

(** [left.merge(right, on=key)]: inner join, the rows in the order of
    [left]; a label that both frames have besides the key gets the
    suffixes [_x] and [_y]. *)
Definition suffixed (both : list string) (suffix label : string) : string :=
  if bool_decide (label ∈ both) then (label +:+ suffix)%string else label.
Definition merge (key : string) (left right : DataFrame) : result DataFrame :=
  if bool_decide (key ∈ columns left) && bool_decide (key ∈ columns right) then
    let both := filter (fun c => c ≠ key ∧ c ∈ columns right) (columns left) in
    let others := filter (fun c => c ≠ key) (columns right) in
    let joined (l r : gmap string cell) : gmap string cell :=
      list_to_map ((fun c => (suffixed both "_x" c, at_label l c)) <$> columns left)
      ∪ list_to_map ((fun c => (suffixed both "_y" c, at_label r c)) <$> others) in
    Ok {| columns := (suffixed both "_x" <$> columns left)
                     ++ (suffixed both "_y" <$> others);
          rows := l ← rows left;
                  r ← List.filter (fun r => cell_eqb (at_label r key) (at_label l key))
                        (rows right);
                  [joined l r] |}
  else Raise KeyError.

End Pd.

Import Pd.

(** ** What the notebooks call from outside *)

(** [from modules.datakit import *]: the functions of the project's own
    module that the notebooks call. The module is not among the sources;
    its functions are parameters of everything below. *)
Class Datakit := {
  deduplicate_main : DataFrame -> result DataFrame;
  (* transform_data(main, only_expired, duration_start, duration_end, utilize_morf) *)
  transform_data : DataFrame -> bool -> Z -> Z -> bool -> result DataFrame;
  distance_to_center : DataFrame -> result (list cell);
  (* concat_csv_files(folder_path), reading the files under the folder *)
  concat_csv_files : string -> gmap string DataFrame -> result DataFrame;
  get_numbers : Py.str -> cell;
  (* average_price_within_radius(df, legacy_data, radius_km) *)
  average_price_within_radius :
    DataFrame -> DataFrame -> Q -> result (list cell);
  (* the distance that distance_to_nearest_stop minimises, between a
     listing at (latitude, longitude) and a stop *)
  stop_distance : cell -> cell -> gmap string cell -> Q
}.

(** Built-ins on floating-point numbers, which are not modelled: the
    conversions [float(text)] and [str(x)], and [+] and [/] on cells. *)
Class Builtins := {
  float : Py.str -> result Q;
  str_of : cell -> Py.str;
  add : cell -> cell -> cell;
  truediv : cell -> cell -> cell
}.

(** The chat completion: the content of the first choice for the prompt
    filled with [text]. *)
Class Assistant := {
  completion : Py.str -> result Py.str
}.

(** ** Effects: files, calls and requests *)

Inductive event :=
| ReadCsv (path : string)
| ToCsv (path : string) (df : DataFrame)
| Call (function : string) (args : list DataFrame)
| Query (text : Py.str).

Record world := mkWorld {
  files : gmap string DataFrame;
  log : list event
}.

(** A cell of a notebook: it may read and write files, leaves its events
    in the log, and returns or raises. *)
Definition M (A : Type) : Type := world -> result A * world.

#[global] Instance M_ret : MRet M := fun A a w => (Ok a, w).
#[global] Instance M_bind : MBind M := fun A B f m w =>
  match m w with
  | (Ok a, w') => f a w'
  | (Raise e, w') => (Raise e, w')
  end.

Definition emit (e : event) : M unit :=
  fun w => (Ok tt, {| files := files w; log := log w ++ [e] |}).

Definition lift {A} (r : result A) : M A := fun w => (r, w).

(** [pd.read_csv(path)]. *)
Definition read_csv (path : string) : M DataFrame :=
  _ ← emit (ReadCsv path);
  ((fun w => (match files w !! path with
              | Some df => Ok df
              | None => Raise FileNotFoundError
              end, w)) : M DataFrame).

(** [df.to_csv(path, index=False)]. *)
Definition to_csv (path : string) (df : DataFrame) : M unit :=
  _ ← emit (ToCsv path df);
  ((fun w => (Ok tt, {| files := <[path := df]> (files w); log := log w |}))
   : M unit).

(** A call into the project's module, with the frames passed to it. *)
Definition call {A} (function : string) (args : list DataFrame)
    (r : result A) : M A :=
  _ ← emit (Call function args); lift r.

(** [series.apply(f)] for an [f] with effects: cell by cell, in order. *)
Fixpoint apply_M {A B} (f : A -> M B) (l : list A) : M (list B) :=
  match l with
  | [] => mret []
  | x :: l' => y ← f x; ys ← apply_M f l'; mret (y :: ys)
  end.

(** ** The notebook that asks the language model
       ([data_generation_using_LLM.ipynb]) *)

Section Notebooks.
Context `{Datakit} `{Builtins} `{Assistant}.
Import Py Re.

Definition main_csv : string := "data_processed/main.csv".

(** Cell 2: read, deduplicate, transform. *)
Definition llm_load : M DataFrame :=
  df ← read_csv main_csv;
  df ← call "deduplicate_main" [df] (deduplicate_main df);
  call "transform_data" [df] (transform_data df true 1 28 false).

(** Cell 3: [df[df.added_dt.le('2025-02-04') & df.additional_fees.lt(100)]]. *)
Definition llm_recent_cheap (df : DataFrame) : result DataFrame :=
  added_dt ← getcol "added_dt" df;
  recent ← traverse (le_str (lit "2025-02-04")) added_dt;
  additional_fees ← getcol "additional_fees" df;
  cheap ← traverse (lt_num 100) additional_fees;
  Ok (mask_rows (zip_with andb recent cheap) df).

(** Cell 4. *)
Definition llm_columns : list string :=
  ["link"; "rent"; "additional_fees"; "adv_description"].

(** Cell 5: [df['adv_description'].apply(filter_lines)]; a cell that is
    no text has no [split]. *)
Definition filter_lines_of (c : cell) : result cell :=
  match c with
  | Str text => Ok (Str (filter_lines text))
  | _ => Raise AttributeError
  end.
Definition llm_filtered (df : DataFrame) : result DataFrame :=
  adv_description ← getcol "adv_description" df;
  filtered ← traverse filter_lines_of adv_description;
  setcol "filtered_description" filtered df.

(** Cell 6: [df[df.filtered_description.ne('')]]. *)
Definition llm_nonempty (df : DataFrame) : result DataFrame :=
  filtered_description ← getcol "filtered_description" df;
  Ok (mask_rows (ne_str [] <$> filtered_description) df).

(** [prompt.format(x)] puts a text into the prompt as it is, and anything
    else as [str(x)]. *)
Definition prompt_text (x : cell) : str :=
  match x with Str text => text | _ => str_of x end.

(** Cell 10: [query_llm(text, prompt)]; the text goes to the model. *)
Definition query_llm (x : cell) : M cell :=
  let text := prompt_text x in
  _ ← emit (Query text); out ← lift (completion text); mret (Str out).

(** Cell 27: [extract_and_sum(x, pattern)] on a cell, the pattern being
    the one bound in cell 25. *)
Definition extract_and_sum_of (x : cell) : result cell :=
  match x with
  | Str text => v ← extract_and_sum text pattern_fees; Ok (Num (inject_Z v))
  | _ => Raise TypeError
  end.

Definition llm_output_csv : string :=
  "data_raw\large_language_model/llm_output.csv".

(** Cells 3 to 6: the listings whose descriptions go to the model. *)
Definition llm_listings (df : DataFrame) : result DataFrame :=
  df ← llm_recent_cheap df;
  df ← project llm_columns df;
  df ← llm_filtered df;
  llm_nonempty df.

(** Cell 11. *)
Definition llm_ask (df : DataFrame) : M DataFrame :=
  filtered_description ← lift (getcol "filtered_description" df);
  llm_output ← apply_M query_llm filtered_description;
  lift (setcol "llm_output" llm_output df).

(** Cell 27. *)
Definition llm_fees (df : DataFrame) : result DataFrame :=
  llm_output ← getcol "llm_output" df;
  real_additional_fees ← traverse extract_and_sum_of llm_output;
  setcol "real_additional_fees" real_additional_fees df.

(** The notebook, cell after cell. *)
Definition llm_notebook : M unit :=
  df ← llm_load;
  df ← lift (llm_listings df);
  df ← llm_ask df;
  df ← lift (llm_fees df);
  to_csv llm_output_csv df.

(** ** The notebook that prepares the modelling table
       ([data_preparation_notebook.ipynb]) *)

(** Cells 4 to 8: read, deduplicate, transform. *)
Definition prepare_load : M DataFrame :=
  df ← read_csv main_csv;
  df ← call "deduplicate_main" [df] (deduplicate_main df);
  call "transform_data" [df] (transform_data df true 1 28 true).

(** Cell 10, the lambda: search the location pattern in [x], take group 1
    and split it at the commas. *)
Definition coordinate_tokens (x : str) : result (list str) :=
  match search pattern_coordinates x with
  | None => Raise AttributeError
  | Some m =>
      match group1 m with
      | Some g => Ok (split COMMA g)
      | None => Raise AttributeError
      end
  end.
Definition coordinate_tokens_of (x : cell) : result (list str) :=
  match x with
  | Str text => coordinate_tokens text
  | _ => Raise TypeError
  end.

(** [sublist[i]]. *)
Definition item (i : nat) (sublist : list str) : result str :=
  match sublist !! i with
  | Some t => Ok t
  | None => Raise IndexError
  end.

(** Cell 10 on the column [maps_herf]: the tokens of every row first, then
    all latitudes, then all longitudes. *)
Definition coordinates (maps_herf : list cell) : result (list Q * list Q) :=
  real_coordinates ← traverse coordinate_tokens_of maps_herf;
  latitude ← traverse (fun sublist => t ← item 0 sublist; float t)
                      real_coordinates;
  longitude ← traverse (fun sublist => t ← item 1 sublist; float t)
                       real_coordinates;
  Ok (latitude, longitude).

Definition misleading_locations (df_locations : DataFrame)
  : result DataFrame :=
  misleading_location ← getcol "misleading_location" df_locations;
  let df_locations := mask_rows (eq_True <$> misleading_location) df_locations in
  maps_herf ← getcol "maps_herf" df_locations;
  '(latitude, longitude) ← coordinates maps_herf;
  df_locations ← setcol "latitude" (Num <$> latitude) df_locations;
  setcol "longitude" (Num <$> longitude) df_locations.

(** What cell 10 needs of a row: the cell is a text whose first
    '/@' with a comma later on its line is followed by [lat], a comma,
    [lon] and a comma, all on one line, and [float] reads [lat] and
    [lon] as [la] and [lo]. *)
Definition located (x : cell) (la lo : Q) : Prop :=
  exists pre lat lon rest,
    x = Str (pre ++ marker ++ lat ++ COMMA :: lon ++ COMMA :: rest)
    /\ (COMMA ∉ lat) /\ (NL ∉ lat) /\ (COMMA ∉ lon) /\ (NL ∉ lon)
    /\ (forall pre',
          marker_at (pre ++ marker ++ lat ++ COMMA :: lon ++ COMMA :: rest) pre'
          -> length pre <= length pre')
    /\ float lat = Ok la /\ float lon = Ok lo.

(** Cell 11. *)
Definition correct_locations (df df_locations : DataFrame)
  : result DataFrame :=
  latitude_map ← set_index "link" "latitude" df_locations;
  longitude_map ← set_index "link" "longitude" df_locations;
  district_map ← set_index "link" "real_district" df_locations;
  df ← update_from "link" "latitude" latitude_map df;
  df ← update_from "link" "longitude" longitude_map df;
  update_from "link" "district" district_map df.

(** Cell 15. *)
Definition add_hidden_fees (df df_fees : DataFrame) : result DataFrame :=
  fees_map ← set_index "link" "real_additional_fees" df_fees;
  update_from "link" "additional_fees" fees_map df.

(** Cell 19: the stops whose name says that they are a subway station. A
    name that is missing or no text gives a missing value in the str
    tests, which [|] counts as [False]. *)
Fixpoint startswith (prefix s : str) : bool :=
  match prefix, s with
  | [] , _ => true
  | p :: prefix', c :: s' => (p =? c)%N && startswith prefix' s'
  | _ :: _, [] => false
  end.
Fixpoint contains (sub s : str) : bool :=
  startswith sub s || match s with [] => false | _ :: s' => contains sub s' end.

Definition is_subway_name (stop_name : cell) : bool :=
  match stop_name with
  | Str name =>
      startswith (lit "Metro") name
      || contains (lit "Wilsona") name
      || contains (lit "Daszy" ++ [324%N] ++ lit "skiego") name
      || contains (lit "Nowy " ++ [346%N] ++ lit "wiat") name
      || contains (lit "ONZ") name
      || contains (lit "Wile" ++ [324%N] ++ lit "ski") name
      || bool_decide (name = lit "Dw. Gda" ++ [324%N] ++ lit "ski")
      || bool_decide (name = lit "Centrum")
  | _ => false
  end.

Definition subway_stations (ztm_stops : DataFrame) : result DataFrame :=
  stop_name ← getcol "stop_name" ztm_stops;
  Ok (mask_rows (is_subway_name <$> stop_name) ztm_stops).

(** The least of [d] and the numbers [ds]. *)
Fixpoint least (d : Q) (ds : list Q) : Q :=
  match ds with
  | [] => d
  | d' :: ds' => least (if Qlt_le_dec d' d then d' else d) ds'
  end.

(** The distance from the place of a listing to a stop. *)
Definition listing_distance (listing stop : gmap string cell) : Q :=
  stop_distance (at_label listing "latitude") (at_label listing "longitude")
                stop.

(** Modelled from the spec: [distance_to_nearest_stop] of
    [modules.datakit] is not among the sources. The specification calls
    it the "spatial nearest-neighbor distance": for every listing the
    least distance to a stop of the given set; without any stop there is
    no nearest neighbour, and the call fails. *)
Definition distance_to_nearest_stop (df stops : DataFrame)
  : result (list cell) :=
  match rows stops with
  | [] => Raise ValueError
  | s :: ss =>
      Ok ((fun listing =>
             Num (least (listing_distance listing s)
                        (listing_distance listing <$> ss))) <$> rows df)
  end.

(** Cells 17 to 21. *)
Definition ztm_stops_csv : string := "geographic_data/ztm_stops/ztm_stops.csv".
Definition distance_columns (df : DataFrame) : M DataFrame :=
  ztm_stops ← read_csv ztm_stops_csv;
  d ← call "distance_to_nearest_stop" [df; ztm_stops]
           (distance_to_nearest_stop df ztm_stops);
  df ← lift (setcol "distance_to_stop" d df);
  subway ← lift (subway_stations ztm_stops);
  d ← call "distance_to_nearest_stop" [df; subway]
           (distance_to_nearest_stop df subway);
  df ← lift (setcol "distance_to_subway" d df);
  d ← call "distance_to_center" [df] (distance_to_center df);
  lift (setcol "distance_to_center" d df).

(** Cell 24: [legacy_data[~legacy_data.approximate_coordinates.eq(True)]]. *)
Definition legacy_exact (legacy_data : DataFrame) : result DataFrame :=
  approximate_coordinates ← getcol "approximate_coordinates" legacy_data;
  Ok (mask_rows ((fun c => negb (eq_True c)) <$> approximate_coordinates)
                legacy_data).

(** Cell 25, the loop body: [legacy_data[column].apply(...)]. *)
Definition convert_column (column : string) (legacy_data : DataFrame)
  : result DataFrame :=
  values ← getcol column legacy_data;
  setcol column ((fun x => get_numbers (str_of x)) <$> values) legacy_data.

(** [for column in columns: body]. *)
Fixpoint for_columns (body : string -> DataFrame -> result DataFrame)
    (columns : list string) (df : DataFrame) : result DataFrame :=
  match columns with
  | [] => Ok df
  | column :: columns' => df ← body column df; for_columns body columns' df
  end.

Definition columns_to_convert : list string :=
  ["rent_price"; "additional_fees"; "area"].

(** Cell 25, the lambda over rows. *)
Definition rent_with_fees (row : gmap string cell) : cell :=
  if negb (isna (at_label row "additional_fees"))
  then add (at_label row "rent_price") (at_label row "additional_fees")
  else at_label row "rent_price".

Definition legacy_prices (legacy_data : DataFrame) : result DataFrame :=
  legacy_data ← for_columns convert_column columns_to_convert legacy_data;
  legacy_data ← setcol "rent_price" (rent_with_fees <$> rows legacy_data)
                       legacy_data;
  rent_price ← getcol "rent_price" legacy_data;
  area ← getcol "area" legacy_data;
  setcol "price_per_square" (zip_with truediv rent_price area) legacy_data.

(** Cells 23 to 26. *)
Definition legacy_folder : string := "data_raw/otodom_scraped_data_historical".
Definition average_price (df : DataFrame) : M DataFrame :=
  legacy_data ← (fun w => call "concat_csv_files" []
                            (concat_csv_files legacy_folder (files w)) w);
  legacy_data ← lift (legacy_exact legacy_data);
  legacy_data ← lift (legacy_prices legacy_data);
  avg ← call "average_price_within_radius" [df; legacy_data]
             (average_price_within_radius df legacy_data (1 # 2));
  lift (setcol "avg_price" avg df).

(** Cell 31. *)
Definition columns_to_drop : list string :=
  ["title"; "adv_description"; "link"; "last_update"; "location"].
Definition modeling_csv : string := "data_processed/modeling_data.csv".
Definition save (df : DataFrame) : M unit :=
  df ← lift (drop columns_to_drop df);
  to_csv modeling_csv df.

Definition locations_csv : string :=
  "data_raw/manual_input/misleading_locations.csv".
Definition fees_csv : string :=
  "data_raw/large_language_model/llm_output.csv".
Definition classes_csv : string := "data_raw/manual_input/apartment_class.csv".

(** The enrichment: cells 10 to 29. *)
Definition locations_step (df : DataFrame) : M DataFrame :=
  df_locations ← read_csv locations_csv;
  df_locations ← lift (misleading_locations df_locations);
  lift (correct_locations df df_locations).
Definition fees_step (df : DataFrame) : M DataFrame :=
  df_fees ← read_csv fees_csv;
  lift (add_hidden_fees df df_fees).
Definition classes_step (df : DataFrame) : M DataFrame :=
  additional_columns ← read_csv classes_csv;
  lift (merge "link" df additional_columns).

(** The notebook, cell after cell. *)
Definition preparation_notebook : M unit :=
  df ← prepare_load;
  df ← locations_step df;
  df ← fees_step df;
  df ← distance_columns df;
  df ← average_price df;
  df ← classes_step df;
  save df.
End Notebooks.

(** *** The words of the specification about the frames *)

Section Words.
Context `{Datakit} `{Builtins}.

(** [fee] is the [real_additional_fees] of a row of [df_fees] that has the
    link [link]. *)
Definition fee_of (df_fees : DataFrame) (link fee : cell) : Prop :=
  exists fr, fr ∈ rows df_fees
             /\ cell_eqb (at_label fr "link") link = true
             /\ fee = at_label fr "real_additional_fees".

(** A legacy cell after [get_numbers(str(x))]. *)
Definition converted (r : gmap string cell) (label : string) : cell :=
  get_numbers (str_of (at_label r label)).

(** The rent with the fees, where the fees are not missing. *)
Definition final_rent (r : gmap string cell) : cell :=
  if isna (converted r "additional_fees")
  then converted r "rent_price"
  else add (converted r "rent_price") (converted r "additional_fees").
(** Cell 25, row by row. *)
Definition priced (r : gmap string cell) : gmap string cell :=
  <["price_per_square" := truediv (final_rent r) (converted r "area")]>
    (<["rent_price" := final_rent r]>
       (<["area" := converted r "area"]>
          (<["additional_fees" := converted r "additional_fees"]>
             (<["rent_price" := converted r "rent_price"]> r)))).

(** [legacy] is what is left of the historical data [raw] without the rows
    whose approximate_coordinates equals [True]: the other rows, in their
    order, each with its cells as they were except for the four columns
    that cell 25 computes. *)
Definition legacy_columns : list string :=
  ["rent_price"; "additional_fees"; "area"; "price_per_square"].
Definition exact_rows_of (raw legacy : DataFrame) : Prop :=
  Forall2 (fun r r' => forall c, c ∉ legacy_columns -> r' !! c = r !! c)
          (List.filter
             (fun r => negb (eq_True (at_label r "approximate_coordinates")))
             (rows raw))
          (rows legacy).
Definition exact_legacy (fs : gmap string DataFrame) (legacy : DataFrame)
  : Prop :=
  exists raw, concat_csv_files legacy_folder fs = Ok raw
              /\ exact_rows_of raw legacy.

(** What the averaging may be called with. *)
Definition averaging_on_exact (fs : gmap string DataFrame) (e : event) : Prop :=
  forall df legacy,
    e = Call "average_price_within_radius" [df; legacy] -> exact_legacy fs legacy.
End Words.

(** ** Surroundings for the examples *)

(** A [float] that reads plain decimal numerals ("52.2297") exactly. *)
Definition decimal_float (s : Py.str) : result Q :=
  let whole := Py.take_while Py.is_digit s in
  match Py.drop_while Py.is_digit s with
  | [] =>
      match whole with
      | [] => Raise ValueError
      | _ => Ok (inject_Z (Py.decimal_value whole))
      end
  | c :: frac =>
      if (c =? Py.DOT)%N && forallb Py.is_digit frac
         && negb (length (whole ++ frac) =? 0)
      then Ok (inject_Z (Py.decimal_value (whole ++ frac))
               / inject_Z (10 ^ Z.of_nat (length frac)))%Q
      else Raise ValueError
  end.

Definition sample_builtins : Builtins := {|
  float := decimal_float;
  str_of := fun c => match c with Str s => s | _ => Py.lit "nan" end;
  add := fun a b =>
    match a, b with Num x, Num y => Num (x + y)%Q | _, _ => NaN end;
  truediv := fun a b =>
    match a, b with
    | Num x, Num y => if Qeq_bool y 0 then NaN else Num (x / y)%Q
    | _, _ => NaN
    end
|}.

(** A project module that leaves the frames as they are, reads numbers as
    decimal numerals and measures the distance between the latitude of the
    listing and the [x] of the stop. *)
Definition sample_datakit : Datakit := {|
  deduplicate_main := fun df => Ok df;
  transform_data := fun df _ _ _ _ => Ok df;
  distance_to_center := fun df => Ok ((fun _ => Num 0) <$> rows df);
  concat_csv_files := fun folder fs =>
    match fs !! folder with Some df => Ok df | None => Raise FileNotFoundError end;
  get_numbers := fun s =>
    match decimal_float s with Ok x => Num x | Raise _ => NaN end;
  average_price_within_radius := fun df _ _ => Ok ((fun _ => NaN) <$> rows df);
  stop_distance := fun latitude longitude stop =>
    match latitude, at_label stop "x" with
    | Num a, Num b => Qabs (a - b)
    | _, _ => 0%Q
    end
|}.

(** A model that answers every request with the same fees. *)
Definition sample_assistant : Assistant := {|
  completion := fun _ => Ok (Py.lit "czynsz administracyjny: 650")
|}.

(** Four listings: the first is old, cheap and names a sum; the second
    names none; the third is too recent; the fourth lists fees already. *)
Definition sample_listing (link title text updated place added : string)
    (fees rent x : Q) : gmap string cell :=
  list_to_map
    [("link", Str (Py.lit link)); ("title", Str (Py.lit title));
     ("adv_description", Str (Py.lit text));
     ("last_update", Str (Py.lit updated)); ("location", Str (Py.lit place));
     ("added_dt", Str (Py.lit added)); ("additional_fees", Num fees);
     ("rent", Num rent); ("latitude", Num x); ("longitude", Num 21)].

Definition sample_main : DataFrame := {|
  columns := ["link"; "title"; "adv_description"; "last_update"; "location";
              "added_dt"; "additional_fees"; "rent"; "latitude"; "longitude"];
  rows := [
    sample_listing "a" "Kawalerka" "Czynsz administracyjny 650 zl" "2025-01-20"
                   "Mokotow" "2025-01-15" 0 2500 1;
    sample_listing "b" "Pokoj" "Bez dodatkowych oplat" "2025-01-21"
                   "Wola" "2025-01-10" 50 1800 4;
    sample_listing "c" "Studio" "Czynsz 900" "2025-03-02"
                   "Ochota" "2025-03-01" 0 3000 7;
    sample_listing "d" "Apartament" "Oplaty 700" "2025-01-05"
                   "Bielany" "2025-01-01" 400 5200 8 ]
|}.

(** What the model found for the first listing. *)
Definition sample_fees : DataFrame := {|
  columns := ["link"; "real_additional_fees"];
  rows := [ list_to_map [("link", Str (Py.lit "a"));
                         ("real_additional_fees", Num 650)] ]
|}.

(** Three historical listings: exact, approximate, and without the flag. *)
Definition sample_legacy_row (flag : cell) (rent fees area : string)
  : gmap string cell :=
  list_to_map
    [("approximate_coordinates", flag); ("rent_price", Str (Py.lit rent));
     ("additional_fees", Str (Py.lit fees)); ("area", Str (Py.lit area))].

Definition sample_legacy : DataFrame := {|
  columns := ["approximate_coordinates"; "rent_price"; "additional_fees"; "area"];
  rows := [ sample_legacy_row (Bool false) "2000" "500" "50";
            sample_legacy_row (Bool true) "2400" "300" "40";
            sample_legacy_row NaN "3000" "brak" "60" ]
|}.

(** Three stops, two of them subway stations. *)
Definition sample_stop (name : string) (x : Q) : gmap string cell :=
  list_to_map [("stop_name", Str (Py.lit name)); ("x", Num x)].

Definition sample_stops : DataFrame := {|
  columns := ["stop_name"; "x"];
  rows := [ sample_stop "Metro Wilanowska" 5; sample_stop "Dworkowa" 2;
            sample_stop "Centrum" 9 ]
|}.

(** One listing with a misleading location and its real place, one
    without. *)
Definition sample_locations : DataFrame := {|
  columns := ["link"; "misleading_location"; "maps_herf"; "real_district"];
  rows := [
    list_to_map
      [("link", Str (Py.lit "b")); ("misleading_location", Bool true);
       ("maps_herf", Str (Py.lit "https://www.google.com/maps/place/x/@52.25,21.5,17z/data"));
       ("real_district", Str (Py.lit "Srodmiescie"))];
    list_to_map
      [("link", Str (Py.lit "c")); ("misleading_location", Bool false);
       ("maps_herf", NaN); ("real_district", NaN)] ]
|}.

(** The classes of three of the four listings. *)
Definition sample_classes : DataFrame := {|
  columns := ["link"; "apartment_class"];
  rows := [
    list_to_map [("link", Str (Py.lit "a")); ("apartment_class", Num 2)];
    list_to_map [("link", Str (Py.lit "b")); ("apartment_class", Num 1)];
    list_to_map [("link", Str (Py.lit "c")); ("apartment_class", Num 3)] ]
|}.

(** The files before the notebooks run. *)
Definition sample_world : world := {|
  files := list_to_map
    [ (main_csv, sample_main); (locations_csv, sample_locations);
      (fees_csv, sample_fees); (ztm_stops_csv, sample_stops);
      (legacy_folder, sample_legacy); (classes_csv, sample_classes) ];
  log := []
|}.

(** What is left of an event when the frames are forgotten. *)
Inductive step :=
| Reads (path : string)
| Writes (path : string)
| Calls (function : string)
| Asks.

Definition step_of (e : event) : step :=
  match e with
  | ReadCsv path => Reads path
  | ToCsv path _ => Writes path
  | Call function _ => Calls function
  | Query _ => Asks
  end.

(** The steps of the preparation notebook, in the order of its cells. *)
Definition preparation_steps : list step :=
  [ Reads main_csv; Calls "deduplicate_main"; Calls "transform_data";
    Reads locations_csv;
    Reads fees_csv;
    Reads ztm_stops_csv; Calls "distance_to_nearest_stop";
    Calls "distance_to_nearest_stop"; Calls "distance_to_center";
    Calls "concat_csv_files"; Calls "average_price_within_radius";
    Reads classes_csv;
    Writes modeling_csv ].

(** The enrichment steps among them. *)
Definition enrichment_steps : list step :=
  [ Reads locations_csv; Reads fees_csv; Reads ztm_stops_csv;
    Calls "distance_to_nearest_stop"; Calls "distance_to_center";
    Calls "concat_csv_files"; Calls "average_price_within_radius";
    Reads classes_csv ].

(** [a], [b] and [c] occur in [l] in this order. *)
Definition in_order {A} (a b c : A) (l : list A) : Prop :=
  exists l1 l2 l3 l4, l = l1 ++ a :: l2 ++ b :: l3 ++ c :: l4.

(** A cell leaves the steps [steps] in the log when it returns, and a
    beginning of them when it raises. *)
Definition traced {A} (m : M A) (steps : list step) : Prop :=
  forall w, exists evs,
    log (m w).2 = log w ++ evs
    /\ (step_of <$> evs) `prefix_of` steps
    /\ (forall a, (m w).1 = Ok a -> step_of <$> evs = steps).

(** A cell writes no file, and leaves only events that satisfy [P]. *)
Definition quiet (P : gmap string DataFrame -> event -> Prop) {A} (m : M A)
  : Prop :=
  forall w, files (m w).2 = files w
            /\ exists evs, log (m w).2 = log w ++ evs /\ Forall (P (files w)) evs.

(** A cell leaves only events that satisfy [P]. *)
Definition logs (P : gmap string DataFrame -> event -> Prop) {A} (m : M A)
  : Prop :=
  forall w, exists evs, log (m w).2 = log w ++ evs /\ Forall (P (files w)) evs.

(** ** Further words about the notebooks

    What the properties of the second part say about the cells beyond the
    words above. *)

(** The text holds three decimal digits in a row. *)
Definition three_digits (s : Py.str) : Prop :=
  exists pre a b c post,
    s = pre ++ a :: b :: c :: post
    /\ Py.is_digit a = true /\ Py.is_digit b = true /\ Py.is_digit c = true.

(** [filter_lines] of cell 5 reads the global [pattern] when it is called;
    cell 25 binds that name again, to the fees pattern. This is the
    function with the pattern that the global holds at the call. *)
Definition filter_lines_with (pattern : Re.regex) (text : Py.str) : Py.str :=
  let lines := Py.split Py.NL text in
  let filtered :=
    List.filter (fun line => truthy (Re.search pattern line)) lines in
  Py.join [Py.NL] filtered.

(** The text against which cell 3 compares added_dt. *)
Definition cutoff : Py.str := Py.lit "2025-02-04".

(** [a] comes before [b] in the order of the dictionary: [a] is a beginning
    of [b], or the two differ first at a character that is smaller in
    [a]. *)
Definition lexicographic (a b : Py.str) : Prop :=
  (exists rest, b = a ++ rest)
  \/ (exists p x y a' b', a = p ++ x :: a' /\ b = p ++ y :: b' /\ (x < y)%N).

(** The listing passes the tests of cells 3 and 6: old enough, cheap
    enough, and its description is a text with a line that holds a
    number. *)
Definition sent_to_model (listing : gmap string cell) : bool :=
  match le_str cutoff (at_label listing "added_dt"),
        lt_num 100 (at_label listing "additional_fees"),
        at_label listing "adv_description" with
  | Ok true, Ok true, Str description =>
      negb (bool_decide (filter_lines description = []))
  | _, _, _ => false
  end.

(** The columns of the table that the notebook asking the model saves. *)
Definition llm_output_columns : list string :=
  llm_columns ++ ["filtered_description"; "llm_output"; "real_additional_fees"].

(** [r] is the row that the notebook saves for [listing]: the four columns
    of cell 4, the number-bearing lines of the description, the model's
    answer to them, and the sum of the numbers of three or more digits of
    that answer. *)
Definition answered `{Assistant} (listing r : gmap string cell) : Prop :=
  exists description reply fees,
    at_label listing "adv_description" = Str description
    /\ completion (filter_lines description) = Ok reply
    /\ extract_and_sum reply Re.pattern_fees = Ok fees
    /\ (0 <= fees)%Z
    /\ r = <["real_additional_fees" := Num (inject_Z fees)]>
             (<["llm_output" := Str reply]>
                (<["filtered_description" := Str (filter_lines description)]>
                   (filter (fun kv => kv.1 ∈ llm_columns) listing))).

(** A cell of a notebook writes at most the file [path]: when it raises
    the files are as they were, when it returns they differ in [path]
    only. *)
Definition writes_only (path : string) {A} (m : M A) : Prop :=
  forall w,
    match (m w).1 with
    | Ok _ => exists df, files (m w).2 = <[path := df]> (files w)
    | Raise _ => files (m w).2 = files w
    end.

(** No condition on the events of a cell. *)
Definition any_event (fs : gmap string DataFrame) (e : event) : Prop := True.

(** The rows of the table of locations that cell 10 keeps. *)
Definition flagged (fr : gmap string cell) : bool :=
  eq_True (at_label fr "misleading_location").

(** What cell 10 does to a flagged row [fr] of the table of locations. *)
Definition place_read `{Builtins} (fr fr' : gmap string cell) : Prop :=
  exists la lo,
    located (at_label fr "maps_herf") la lo
    /\ fr' = <["longitude" := Num lo]> (<["latitude" := Num la]> fr).

(** The first row of [source] whose cell under [key] is [c], as the hash
    table behind an index compares cells. *)
Definition first_with (key : string) (c : cell) (source : DataFrame)
  : option (gmap string cell) :=
  List.find (fun fr => cell_eqb (at_label fr key) c) (rows source).

(** The columns that cell 11 assigns. *)
Definition place_columns : list string := ["latitude"; "longitude"; "district"].

(** What cell 11 does to a row [r] of the main table, given the table of
    locations: [r'] is the row afterwards. *)
Definition place_corrected (df_locations : DataFrame)
    (r r' : gmap string cell) : Prop :=
  (forall c, c ∉ place_columns -> r' !! c = r !! c)
  /\ match first_with "link" (at_label r "link") df_locations with
     | Some place =>
         r' !! "latitude" = Some (at_label place "latitude")
         /\ r' !! "longitude" = Some (at_label place "longitude")
         /\ r' !! "district" = Some (at_label place "real_district")
     | None =>
         r' !! "latitude" = Some (at_label r "latitude")
         /\ r' !! "longitude" = Some (at_label r "longitude")
         /\ r' !! "district" = Some (at_label r "district")
     end.

(** The tables of cell 15 have the columns that the cell reads. *)
Definition fee_tables_fit (df df_fees : DataFrame) : Prop :=
  "link" ∈ columns df_fees /\ "real_additional_fees" ∈ columns df_fees
  /\ "link" ∈ columns df.

(** No link occurs in two rows of the table. *)
Definition links_unique (df : DataFrame) : Prop :=
  forall i j a b,
    rows df !! i = Some a -> rows df !! j = Some b ->
    cell_eqb (at_label a "link") (at_label b "link") = true -> i = j.

(** Every link of the table is a text. *)
Definition links_are_texts (df : DataFrame) : Prop :=
  Forall (fun r => exists link, at_label r "link" = Str link) (rows df).

(** [r'] is [r] except for the cells under [labels]. *)
Definition same_outside (labels : list string) (r r' : gmap string cell)
  : Prop :=
  forall c, c ∉ labels -> r' !! c = r !! c.

(** [df'] is [df] with the columns [labels] assigned: the same rows in the
    same order, every cell under another label as it was; the columns of
    [df] are still there, and a new column is one of [labels]. *)
Definition assigns (labels : list string) (df df' : DataFrame) : Prop :=
  Forall2 (same_outside labels) (rows df) (rows df')
  /\ (forall c, c ∈ columns df -> c ∈ columns df')
  /\ (forall c, c ∈ columns df' -> c ∈ columns df \/ c ∈ labels).

(** The columns that cells 10 to 26 assign. *)
Definition enriched_columns : list string :=
  ["latitude"; "longitude"; "district"; "additional_fees"; "distance_to_stop";
   "distance_to_subway"; "distance_to_center"; "avg_price"].

(** The listing has a row in the table of classes. *)
Definition has_class (additional_columns : DataFrame) (r : gmap string cell)
  : bool :=
  match first_with "link" (at_label r "link") additional_columns with
  | Some _ => true
  | None => false
  end.

(** [r'] is the listing [r] with the class columns of its link. *)
Definition classed (df additional_columns : DataFrame)
    (r r' : gmap string cell) : Prop :=
  exists class,
    first_with "link" (at_label r "link") additional_columns = Some class
    /\ (forall c, c ∈ columns df -> r' !! c = Some (at_label r c))
    /\ (forall c, c ∈ columns additional_columns -> c ≠ "link" ->
                  r' !! c = Some (at_label class c)).

(** [r'] is what the notebook saves for the listing [r] of the transformed
    table [main]: the cells of [r] under every column of [main] that the
    enrichment does not assign and the last cell does not drop, and the
    class columns of the link of [r]. *)
Definition saved_for (main classes : DataFrame) (r r' : gmap string cell)
  : Prop :=
  (forall c, c ∈ columns main -> c ∉ enriched_columns -> c ∉ columns_to_drop ->
             r' !! c = Some (at_label r c))
  /\ exists class,
       first_with "link" (at_label r "link") classes = Some class
       /\ forall c, c ∈ columns classes -> c ∉ columns_to_drop ->
                    r' !! c = Some (at_label class c).

(** What a computation returns, or [d] when it raises. *)
Definition value {A} (d : A) (r : result A) : A :=
  match r with Ok a => a | Raise _ => d end.

(** *** The words of the specification about the order of the cells *)

Section Pipeline.
Context `{Datakit} `{Builtins}.

(** Cells 4 to 8: [raw] is the file of the scraped listings,
    [deduplicated] what [deduplicate_main] makes of it, and [main] what
    [transform_data] makes of that. *)
Definition loads (fs : gmap string DataFrame)
    (raw deduplicated main : DataFrame) : Prop :=
  fs !! main_csv = Some raw
  /\ deduplicate_main raw = Ok deduplicated
  /\ transform_data deduplicated true 1 28 true = Ok main.

(** Cells 10 and 11: [df'] is [df] with the places of the flagged rows of
    the locations file. *)
Definition relocates (fs : gmap string DataFrame) (df df' : DataFrame)
  : Prop :=
  exists csv df_locations,
    fs !! locations_csv = Some csv
    /\ misleading_locations csv = Ok df_locations
    /\ correct_locations df df_locations = Ok df'.

(** Cells 14 and 15: [df'] is [df] with the fees of the fees file. *)
Definition adds_fees (fs : gmap string DataFrame) (df df' : DataFrame)
  : Prop :=
  exists df_fees,
    fs !! fees_csv = Some df_fees /\ add_hidden_fees df df_fees = Ok df'.

(** [df[column] = d], where the call that gives [d] returns. *)
Definition assigned (column : string) (d : result (list cell))
    (df df' : DataFrame) : Prop :=
  exists values, d = Ok values /\ setcol column values df = Ok df'.

(** Cells 17 to 21: the three distance columns, one after the other. *)
Definition measures (fs : gmap string DataFrame)
    (df ztm_stops df1 subway df2 df' : DataFrame) : Prop :=
  fs !! ztm_stops_csv = Some ztm_stops
  /\ assigned "distance_to_stop" (distance_to_nearest_stop df ztm_stops) df df1
  /\ subway_stations ztm_stops = Ok subway
  /\ assigned "distance_to_subway" (distance_to_nearest_stop df1 subway) df1 df2
  /\ assigned "distance_to_center" (distance_to_center df2) df2 df'.

(** Cells 23 to 26: [legacy] is the historical data with exact
    coordinates and its prices, [df'] is [df] with the average price. *)
Definition prices (fs : gmap string DataFrame) (df legacy df' : DataFrame)
  : Prop :=
  exists concatenated exact,
    concat_csv_files legacy_folder fs = Ok concatenated
    /\ legacy_exact concatenated = Ok exact
    /\ legacy_prices exact = Ok legacy
    /\ assigned "avg_price" (average_price_within_radius df legacy (1 # 2))
                df df'.

(** Cells 28 to 31: [out] is [df] merged with the classes file, without
    the dropped columns. *)
Definition classes_and_cuts (fs : gmap string DataFrame) (df out : DataFrame)
  : Prop :=
  exists additional_columns merged,
    fs !! classes_csv = Some additional_columns
    /\ merge "link" df additional_columns = Ok merged
    /\ drop columns_to_drop merged = Ok out.

(** What a run of the notebook that returns leaves in the log: every file
    read, every call into the project's module with the frames it gets,
    and the table written. *)
Definition preparation_events
    (raw deduplicated df ztm_stops df1 subway df2 df3 legacy out : DataFrame)
  : list event :=
  [ ReadCsv main_csv; Call "deduplicate_main" [raw];
    Call "transform_data" [deduplicated];
    ReadCsv locations_csv;
    ReadCsv fees_csv;
    ReadCsv ztm_stops_csv; Call "distance_to_nearest_stop" [df; ztm_stops];
    Call "distance_to_nearest_stop" [df1; subway];
    Call "distance_to_center" [df2];
    Call "concat_csv_files" [];
    Call "average_price_within_radius" [df3; legacy];
    ReadCsv classes_csv;
    ToCsv modeling_csv out ].
End Pipeline.

(** * Properties *)

(** Case analysis on the comparison that the goal branches on. *)
Ltac case_ltb :=
  match goal with
  | |- context [?a <? ?b] => destruct (Nat.ltb_spec a b)
  | |- context [?a <=? ?b] => destruct (Nat.leb_spec a b)
  end.

(** ** Lists and texts *)

Lemma take_drop_while {A} (p : A -> bool) (l : list A) :
  take_while p l ++ drop_while p l = l.
Proof.
  induction l as [|x l IH]; simpl; [done|].
  destruct (p x); simpl; [by rewrite IH | done].
Qed.

Lemma drop_while_length {A} (p : A -> bool) (l : list A) :
  length (drop_while p l) = length l - length (take_while p l).
Proof.
  rewrite <- (take_drop_while p l) at 2. rewrite length_app. lia.
Qed.

Lemma take_while_as_take {A} (p : A -> bool) (l : list A) :
  take (length l - length (drop_while p l)) l = take_while p l.
Proof.
  rewrite drop_while_length.
  assert (length (take_while p l) <= length l).
  { rewrite <- (take_drop_while p l) at 2. rewrite length_app. lia. }
  replace (length l - (length l - length (take_while p l)))
    with (length (take_while p l)) by lia.
  rewrite <- (take_drop_while p l) at 2.
  by rewrite take_app_length.
Qed.

Lemma bind_nil_all {A B} (f : A -> list B) (l : list A) :
  (forall x, x ∈ l -> f x = []) -> l ≫= f = [].
Proof.
  induction l as [|x l IH]; intros H; simpl; [done|].
  rewrite (H x) by left. apply IH. intros y Hy. apply H. by right.
Qed.

Lemma bind_ext_in {A B} (f g : A -> list B) (l : list A) :
  (forall x, x ∈ l -> f x = g x) -> l ≫= f = l ≫= g.
Proof.
  induction l as [|x l IH]; intros H; simpl; [done|].
  rewrite (H x) by left. f_equal. apply IH. intros y Hy. apply H. by right.
Qed.

(** ** The matcher *)

Section Matcher.
Import Py Re.

(** The fuel of [star] is never the reason to stop. *)
Lemma star_fuel step n m st :
  length (snd st) <= n -> length (snd st) <= m ->
  star step n st = star step m st.
Proof.
  revert m st. induction n as [|n IH]; intros m st Hn Hm.
  - destruct m as [|m]; [done|]. simpl. rewrite bind_nil_all; [done|].
    intros st' _. case_ltb; [lia|done].
  - destruct m as [|m]; simpl.
    + rewrite bind_nil_all; [done|].
      intros st' _.
      case_ltb; [lia|done].
    + f_equal. apply bind_ext_in. intros st' _.
      case_ltb; [|done].
      apply IH; lia.
Qed.

Lemma star_sound r fuel :
  (forall g s g' s', (g', s') ∈ run r (g, s) ->
                     exists u, s = u ++ s' /\ matches r u) ->
  forall g s g' s', (g', s') ∈ star (run r) fuel (g, s) ->
                    exists u, s = u ++ s' /\ matches (Star r) u.
Proof.
  intros Hr. induction fuel as [|n IH]; intros g s g' s' Hin; simpl in Hin.
  - apply list_elem_of_singleton in Hin. injection Hin as -> ->.
    exists []. split; [done | constructor].
  - apply elem_of_app in Hin as [Hin|Hin].
    + apply list_elem_of_bind in Hin as ([g1 s1] & Hin & Hstep).
      simpl in Hin.
      destruct (length s1 <? length s); [|by apply elem_of_nil in Hin].
      apply Hr in Hstep as (u & -> & Hu).
      apply IH in Hin as (v & -> & Hv).
      exists (u ++ v). split; [by rewrite <- app_assoc | by constructor].
    + apply list_elem_of_singleton in Hin. injection Hin as -> ->.
      exists []. split; [done | constructor].
Qed.

(** What [run] returns is a match of the pattern at the head of the
    input. *)
Lemma run_sound r :
  forall g s g' s', (g', s') ∈ run r (g, s) ->
                    exists u, s = u ++ s' /\ matches r u.
Proof.
  induction r as [p| |r1 IH1 r2 IH2|r1 IH1 r2 IH2|r IH|r IH];
    intros g s g' s' Hin; simpl in Hin.
  - destruct s as [|c t]; [by apply elem_of_nil in Hin|].
    destruct (p c) eqn:Hp; [|by apply elem_of_nil in Hin].
    apply list_elem_of_singleton in Hin. injection Hin as -> ->.
    exists [c]. split; [done | by constructor].
  - apply list_elem_of_singleton in Hin. injection Hin as -> ->.
    exists []. split; [done | constructor].
  - apply list_elem_of_bind in Hin as ([g1 s1] & Hin2 & Hin1).
    apply IH1 in Hin1 as (u & -> & Hu). apply IH2 in Hin2 as (v & -> & Hv).
    exists (u ++ v). split; [by rewrite <- app_assoc | by constructor].
  - apply elem_of_app in Hin as [Hin|Hin].
    + apply IH1 in Hin as (u & -> & Hu). exists u. split; [done|by apply M_alt_l].
    + apply IH2 in Hin as (u & -> & Hu). exists u. split; [done|by apply M_alt_r].
  - by apply (star_sound r _ IH) in Hin.
  - apply list_elem_of_fmap in Hin as ([g1 s1] & Heq & Hin).
    simpl in Heq. injection Heq as -> ->.
    apply IH in Hin as (u & -> & Hu). exists u. split; [done | by constructor].
Qed.

(** Every match of the pattern at the head of the input is among the
    results of [run]. *)
Lemma run_complete r u :
  matches r u ->
  forall g rest, exists g', (g', rest) ∈ run r (g, u ++ rest).
Proof.
  induction 1 as [p c Hp| |r1 r2 u v _ IH1 _ IH2|r1 r2 u _ IH|r1 r2 u _ IH
                 |r|r u v _ IH1 _ IH2|r u _ IH]; intros g rest; simpl.
  - rewrite Hp. exists g. by apply list_elem_of_singleton.
  - exists g. by apply list_elem_of_singleton.
  - destruct (IH1 g (v ++ rest)) as [g1 H1].
    destruct (IH2 g1 rest) as [g2 H2].
    exists g2. rewrite <- app_assoc. apply list_elem_of_bind. eauto.
  - destruct (IH g rest) as [g1 H1]. exists g1. apply elem_of_app. by left.
  - destruct (IH g rest) as [g1 H1]. exists g1. apply elem_of_app. by right.
  - exists g. destruct (length rest); simpl.
    + by apply list_elem_of_singleton.
    + apply elem_of_app. right. by apply list_elem_of_singleton.
  - destruct u as [|c u].
    { simpl. apply (IH2 g rest). }
    destruct (IH1 g (v ++ rest)) as [g1 H1].
    destruct (IH2 g1 rest) as [g2 H2]. simpl in H2.
    exists g2. rewrite <- app_assoc. simpl.
    apply elem_of_app. left. apply list_elem_of_bind.
    exists (g1, v ++ rest). split; [|exact H1]. simpl.
    rewrite !length_app.
    case_ltb; [|lia].
    rewrite (star_fuel _ _ (length (v ++ rest))); [exact H2| |done].
    simpl. rewrite length_app. lia.
  - destruct (IH g rest) as [g1 H1].
    eexists. apply list_elem_of_fmap. eexists. split; [|exact H1]. done.
Qed.
End Matcher.

Section Search.
Import Py Re.

Lemma run_nonempty_iff r g t :
  run r (g, t) <> [] <-> exists m post, t = m ++ post /\ matches r m.
Proof.
  split.
  - destruct (run r (g, t)) as [|[g' s'] l] eqn:E; [done|]. intros _.
    destruct (run_sound r g t g' s') as (u & -> & Hu); [rewrite E; left|].
    by exists u, s'.
  - intros (m & post & -> & Hm).
    destruct (run_complete r m Hm g post) as [g' Hin].
    intros E. rewrite E in Hin. by apply elem_of_nil in Hin.
Qed.

(** [re.search] finds a match exactly in the texts that contain one. *)
Lemma search_truthy r s pos :
  truthy (search_from pos r s) = true <-> contains_match r s.
Proof.
  revert pos. induction s as [|c t IH]; intros pos; simpl.
  - destruct (run r (None, [])) as [|[g rest] l] eqn:E; simpl.
    + split; [done|]. intros (pre & m & post & Heq & Hm).
      symmetry in Heq. apply app_eq_nil in Heq as [-> Heq].
      apply app_eq_nil in Heq as [-> ->].
      assert (run r (None, []) <> []) as Hne; [|done].
      apply run_nonempty_iff. by exists [], [].
    + split; [intros _|done].
      assert (run r (None, []) <> []) as Hne by (by rewrite E).
      apply run_nonempty_iff in Hne as (m & post & Heq & Hm).
      by exists [], m, post.
  - destruct (run r (None, c :: t)) as [|[g rest] l] eqn:E; simpl.
    + rewrite IH. split.
      * intros (pre & m & post & -> & Hm). by exists (c :: pre), m, post.
      * intros (pre & m & post & Heq & Hm). destruct pre as [|c' pre].
        -- assert (run r (None, c :: t) <> []) as Hne; [|done].
           apply run_nonempty_iff. exists m, post. by rewrite Heq.
        -- injection Heq as -> ->. by exists pre, m, post.
    + split; [intros _|done].
      assert (run r (None, c :: t) <> []) as Hne by (by rewrite E).
      apply run_nonempty_iff in Hne as (m & post & Heq & Hm).
      by exists [], m, post.
Qed.

Lemma split_nonempty sep s : split sep s <> [].
Proof.
  destruct s as [|c t]; simpl; [done|].
  destruct (c =? sep)%N; [done|]. by destruct (split sep t).
Qed.

Lemma split_no_sep sep s : Forall (fun l => sep ∉ l) (split sep s).
Proof.
  induction s as [|c t IH]; simpl.
  - constructor; [apply not_elem_of_nil | constructor].
  - destruct (N.eqb_spec c sep) as [->|Hne].
    + constructor; [apply not_elem_of_nil | done].
    + destruct (split sep t) as [|l ls].
      * constructor; [|constructor].
        intros Hin. apply list_elem_of_singleton in Hin. congruence.
      * inversion IH as [|? ? Hl Hls]; subst. constructor; [|done].
        intros Hin. apply elem_of_cons in Hin as [Heq|Hin]; [congruence|done].
Qed.

Lemma split_app sep l rest :
  sep ∉ l -> split sep (l ++ sep :: rest) = l :: split sep rest.
Proof.
  induction l as [|c l IH]; intros Hl; simpl.
  - by rewrite N.eqb_refl.
  - destruct (N.eqb_spec c sep) as [->|Hne]; [exfalso; apply Hl; left|].
    rewrite IH; [done|]. intros Hin. apply Hl. by right.
Qed.

Lemma split_none sep l : sep ∉ l -> split sep l = [l].
Proof.
  induction l as [|c l IH]; intros Hl; simpl; [done|].
  destruct (N.eqb_spec c sep) as [->|Hne]; [exfalso; apply Hl; left|].
  rewrite IH; [done|]. intros Hin. apply Hl. by right.
Qed.

Lemma split_join sep ls :
  ls <> [] -> Forall (fun l => sep ∉ l) ls -> split sep (join [sep] ls) = ls.
Proof.
  induction ls as [|l ls IH]; intros Hne Hall; [done|].
  inversion Hall as [|? ? Hl Hls]; subst.
  destruct ls as [|l2 ls].
  - simpl. by apply split_none.
  - change (join [sep] (l :: l2 :: ls)) with (l ++ sep :: join [sep] (l2 :: ls)).
    rewrite split_app by done. f_equal. by apply IH.
Qed.

Lemma filter_select {A} (f : A -> bool) (P : A -> Prop) (ls : list A) :
  (forall x, f x = true <-> P x) -> select P ls (List.filter f ls).
Proof.
  intros Hf. induction ls as [|x ls IH]; simpl; [constructor|].
  destruct (f x) eqn:E.
  - apply select_keep; [by apply Hf | done].
  - apply select_drop; [|done]. intros HP. apply Hf in HP. congruence.
Qed.

(** [select] leaves no choice: the selection is a function of the list. *)
Lemma select_unique {A} (P : A -> Prop) (ls ks ks' : list A) :
  select P ls ks -> select P ls ks' -> ks = ks'.
Proof.
  intros H. revert ks'. induction H; intros ks' H'; inversion H'; subst;
    try done; f_equal; auto.
Qed.

Lemma filter_idem {A} (f : A -> bool) (ls : list A) :
  List.filter f (List.filter f ls) = List.filter f ls.
Proof.
  induction ls as [|x ls IH]; simpl; [done|].
  destruct (f x) eqn:E; [|done]. simpl. by rewrite E, IH.
Qed.

Lemma filter_Forall {A} (f : A -> bool) (P : A -> Prop) (ls : list A) :
  Forall P ls -> Forall P (List.filter f ls).
Proof.
  induction 1 as [|x ls Hx _ IH]; simpl; [constructor|].
  destruct (f x); [by constructor | done].
Qed.

Lemma filter_lines_idempotent text :
  filter_lines (filter_lines text) = filter_lines text.
Proof.
  set (f := fun line => truthy (search pattern_numbers line)).
  assert (forall t, filter_lines t = join [NL] (List.filter f (split NL t)))
    as Hdef by done.
  rewrite (Hdef text).
  destruct (List.filter f (split NL text)) as [|k ks] eqn:E; [done|].
  rewrite Hdef, split_join; [|done|].
  - rewrite <- E. by rewrite filter_idem.
  - rewrite <- E. apply filter_Forall, split_no_sep.
Qed.
End Search.

(** C8. For every text, [filter_lines] returns the newline-join of exactly
    those lines of the text (split at newline) that contain a substring
    matched by the number pattern, in their original order; and filtering
    a second time changes nothing. *)
Theorem filter_lines_keeps_number_lines (text : Py.str) :
  (exists kept,
      select (Re.contains_match Re.pattern_numbers) (Py.split Py.NL text) kept
      /\ filter_lines text = Py.join [Py.NL] kept)
  /\ filter_lines (filter_lines text) = filter_lines text.
Proof.
  split; [|apply filter_lines_idempotent].
  eexists. split; [|reflexivity].
  apply filter_select. intros line. apply search_truthy.
Qed.

(** ** The fees pattern and [extract_and_sum] *)

Section Fees.
Import Py Re.

Lemma star_class p fuel g s :
  length s <= fuel -> star (run (Chr p)) fuel (g, s) = class_suffixes p g s.
Proof.
  revert s. induction fuel as [|n IH]; intros s Hlen.
  - destruct s; [done | simpl in Hlen; lia].
  - destruct s as [|c t]; [done|]. simpl. destruct (p c); [|done]. simpl.
    case_ltb; [|lia]. rewrite app_nil_r, IH; [done | simpl in Hlen; lia].
Qed.

Lemma class_suffixes_head p g s :
  exists tl, class_suffixes p g s = (g, drop_while p s) :: tl.
Proof.
  induction s as [|c t [tl IH]]; simpl; [by eexists|].
  destruct (p c); [|by eexists]. rewrite IH. by eexists.
Qed.

(** At the head of a text the fees pattern matches the whole leading run
    of digits when that has three digits or more, and nothing else. *)
Lemma run_pattern_fees s :
  (length (take_while is_digit s) < 3 /\ run pattern_fees (None, s) = [])
  \/ (3 <= length (take_while is_digit s) /\
      exists tl, run pattern_fees (None, s)
                 = (Some (take_while is_digit s), drop_while is_digit s) :: tl).
Proof.
  destruct s as [|c1 [|c2 [|c3 t]]]; simpl;
    repeat match goal with
           | |- context [is_digit ?c] => destruct (is_digit c) eqn:?; simpl
           end; try (left; split; [lia | done]).
  right. split; [lia|].
  change (star _ (length t) (None, t))
    with (star (run (Chr is_digit)) (length t) (None, t)).
  rewrite app_nil_r, star_class by done.
  destruct (class_suffixes_head is_digit None t) as [tl ->]. simpl.
  eexists. f_equal. f_equal. f_equal.
  replace (S (S (S (length t))) - length (drop_while is_digit t))
    with (3 + (length t - length (drop_while is_digit t))).
  - simpl. by rewrite take_while_as_take.
  - rewrite drop_while_length.
    assert (length (take_while is_digit t) <= length t); [|lia].
    rewrite <- (take_drop_while is_digit t) at 2. rewrite length_app. lia.
Qed.
End Fees.

Section FeesSum.
Import Py Re.

Lemma digit_runs_step c d t :
  digit_runs (c :: d :: t) =
    if is_digit c then
      if is_digit d then
        match digit_runs (d :: t) with
        | r :: rs => (c :: r) :: rs
        | [] => [[c]]
        end
      else [c] :: digit_runs (d :: t)
    else digit_runs (d :: t).
Proof. reflexivity. Qed.

Lemma digit_runs_cons t c :
  is_digit c = true ->
  digit_runs (c :: t)
  = (c :: take_while is_digit t) :: digit_runs (drop_while is_digit t).
Proof.
  revert c. induction t as [|d t IH]; intros c Hc.
  - simpl. by rewrite Hc.
  - rewrite digit_runs_step, Hc. cbn [take_while drop_while].
    destruct (is_digit d) eqn:Hd; [|done].
    by rewrite (IH d Hd).
Qed.

Lemma digit_runs_digits s :
  Forall (fun r => r <> [] /\ forallb is_digit r = true) (digit_runs s).
Proof.
  induction s as [|c t IH]; [constructor|].
  assert (is_digit c = true ->
          Forall (fun r => r <> [] /\ forallb is_digit r = true) [[c]]) as H1.
  { intros Hc. constructor; [|constructor]. split; [done|].
    simpl. by rewrite Hc. }
  destruct t as [|d t'].
  - simpl. destruct (is_digit c); [by apply H1 | constructor].
  - rewrite digit_runs_step. destruct (is_digit c) eqn:Hc; [|done].
    destruct (is_digit d) eqn:Hd.
    + destruct (digit_runs (d :: t')) as [|r rs]; [by apply H1|].
      inversion IH as [|? ? [Hr1 Hr2] Hrs]; subst.
      constructor; [|done]. split; [done|]. simpl. by rewrite Hc, Hr2.
    + constructor; [|done]. specialize (H1 eq_refl).
      by inversion H1.
Qed.

Lemma long_runs_skip s :
  length (take_while is_digit s) < 3 ->
  long_runs s = long_runs (drop_while is_digit s).
Proof.
  destruct s as [|c t]; [done|]. simpl.
  destruct (is_digit c) eqn:Hc; [|done]. intros Hlen.
  unfold long_runs. rewrite digit_runs_cons by done.
  cbn [List.filter]. case_ltb; [simpl in *; lia | done].
Qed.

Lemma long_runs_tail c t :
  length (take_while is_digit (c :: t)) < 3 ->
  long_runs (c :: t) = long_runs t.
Proof.
  intros Hlen. rewrite (long_runs_skip (c :: t)) by done.
  simpl in *. destruct (is_digit c) eqn:Hc.
  - symmetry. apply long_runs_skip. simpl in Hlen. lia.
  - unfold long_runs. cbn [digit_runs]. by rewrite Hc.
Qed.

Lemma long_runs_head s :
  3 <= length (take_while is_digit s) ->
  long_runs s = take_while is_digit s :: long_runs (drop_while is_digit s).
Proof.
  destruct s as [|c t]; simpl; [lia|].
  destruct (is_digit c) eqn:Hc; simpl; [|lia]. intros Hlen.
  unfold long_runs. rewrite digit_runs_cons by done.
  cbn [List.filter]. case_ltb; [done | simpl in *; lia].
Qed.

(** [re.findall] with the fees pattern lists the runs of three or more
    digits. *)
Lemma findall_fees_fuel fuel s :
  length s < fuel -> findall_fuel fuel pattern_fees s = long_runs s.
Proof.
  revert s. induction fuel as [|n IH]; intros s Hlen; [lia|].
  cbn [findall_fuel].
  destruct (run_pattern_fees s) as [[Hshort ->]|[Hlong [tl ->]]].
  - destruct s as [|c t]; [done|].
    rewrite long_runs_tail by done. apply IH. simpl in Hlen. lia.
  - assert (length (drop_while is_digit s) < length s) as Hlt.
    { rewrite drop_while_length. destruct s; simpl in *; lia. }
    case_ltb; [|lia]. rewrite IH by lia. simpl.
    by rewrite (long_runs_head s).
Qed.

Lemma findall_fees s : findall pattern_fees s = long_runs s.
Proof. apply findall_fees_fuel. lia. Qed.

Lemma long_runs_digits s :
  Forall (fun r => r <> [] /\ forallb is_digit r = true) (long_runs s).
Proof. apply filter_Forall, digit_runs_digits. Qed.

Lemma digit_value_nonneg c : (0 <= digit_value c)%Z.
Proof. unfold digit_value. destruct (decimal c); lia. Qed.

Lemma decimal_fold_nonneg s acc :
  (0 <= acc)%Z ->
  (0 <= fold_left (fun a c => (10 * a + digit_value c)%Z) s acc)%Z.
Proof.
  revert acc. induction s as [|c s IH]; intros acc Hacc; simpl; [done|].
  apply IH. pose proof (digit_value_nonneg c). lia.
Qed.

Lemma decimal_value_nonneg s : (0 <= decimal_value s)%Z.
Proof. by apply decimal_fold_nonneg. Qed.

Lemma sum_decimal_nonneg (l : list (list N)) :
  (0 <= sum_Z (decimal_value <$> l))%Z.
Proof.
  induction l as [|r l IH]; [done|].
  pose proof (decimal_value_nonneg r).
  change (0 <= decimal_value r + sum_Z (decimal_value <$> l))%Z. lia.
Qed.

(** The loop adds up the values, unless one of the texts is too long for
    [int]. *)
Lemma sum_matches_digits found total :
  Forall (fun r => r <> [] /\ forallb is_digit r = true) found ->
  sum_matches found total =
    if forallb (fun r => length r <=? int_max_str_digits) found
    then Ok (total + sum_Z (decimal_value <$> found))%Z
    else Raise ValueError.
Proof.
  intros H. revert total.
  induction H as [|r found [Hne Hr] _ IH]; intros total.
  - simpl. f_equal. unfold sum_Z. simpl. lia.
  - cbn [sum_matches forallb]. unfold int. destruct r as [|c r]; [done|].
    rewrite Hr. destruct (length (c :: r) <=? int_max_str_digits); [|done].
    cbn [mbind result_bind andb]. rewrite IH.
    destruct (forallb _ found); [|done].
    f_equal. unfold sum_Z. cbn [fmap list_fmap fold_right]. lia.
Qed.
End FeesSum.

(** C1, as amended. For every text, [extract_and_sum] with the fees pattern
    returns the sum of the decimal values of the maximal runs of three or
    more consecutive digits of the text, provided none of these runs is
    longer than the 4300 digits that [int] converts; it raises [ValueError]
    when one is. It returns 0 when the text has no such run, and whatever
    it returns is a nonnegative integer. *)
Theorem extract_and_sum_long_runs (text : Py.str) :
  extract_and_sum text Re.pattern_fees =
    (if forallb (fun r => length r <=? Py.int_max_str_digits) (long_runs text)
     then Ok (sum_Z (Py.decimal_value <$> long_runs text))
     else Raise ValueError)
  /\ (long_runs text = [] -> extract_and_sum text Re.pattern_fees = Ok 0%Z)
  /\ (forall v, extract_and_sum text Re.pattern_fees = Ok v -> (0 <= v)%Z).
Proof.
  assert (extract_and_sum text Re.pattern_fees =
    (if forallb (fun r => length r <=? Py.int_max_str_digits) (long_runs text)
     then Ok (sum_Z (Py.decimal_value <$> long_runs text))
     else Raise ValueError)) as Hsum.
  { unfold extract_and_sum. rewrite findall_fees.
    rewrite sum_matches_digits by apply long_runs_digits.
    destruct (forallb _ _); [|done]. f_equal. }
  split; [exact Hsum|]. split.
  - intros Hnone. rewrite Hsum, Hnone. done.
  - intros v. rewrite Hsum. destruct (forallb _ _); [|done].
    intros [= <-]. apply sum_decimal_nonneg.
Qed.

(** C1 as stated fails on a text of 4301 digits: the run is found, and
    [int] refuses it. *)
Lemma extract_and_sum_refuses_long_run :
  extract_and_sum (repeat 49%N 4301) Re.pattern_fees = Raise ValueError.
Proof. vm_compute. reflexivity. Qed.

Example digit_runs_sample :
  digit_runs (Py.lit "a12b123c4567") = Py.lit <$> ["12"; "123"; "4567"]%string
  /\ long_runs (Py.lit "a12b123c4567") = Py.lit <$> ["123"; "4567"]%string
  /\ Py.int (Py.lit "0650") = Ok 650%Z.
Proof. vm_compute. done. Qed.

(** A text with two runs that count, one that does not, and digits outside
    ASCII. *)
Example extract_and_sum_sample :
  extract_and_sum (Py.lit "czynsz: 650 zl, media: 1200, kaucja 2x" ++ [1633; 1634; 1635]%N)
                  Re.pattern_fees = Ok 1973%Z.
Proof. vm_compute. reflexivity. Qed.

(** ** The location pattern *)

Section Locations.
Import Py Re.

(** The first line of a text. *)
Local Abbreviation line_of s := (take_while (fun c => negb (c =? NL)%N) s).

Lemma group_star_comma (g : option (list N)) (s0 pre s : list N) :
  s0 = pre ++ s ->
  ((fun st' : state =>
      (Some (take (length s0 - length (snd st')) s0), snd st'))
   <$> class_suffixes (fun c => negb (c =? NL)%N) g s)
  ≫= run (one COMMA)
  = comma_backtrack pre s.
Proof.
  revert pre. induction s as [|c t IH]; intros pre ->; [done|].
  cbn [class_suffixes comma_backtrack].
  destruct (negb (c =? NL)%N) eqn:Hc.
  - rewrite fmap_app, bind_app.
    rewrite (IH (pre ++ [c])) by (by rewrite <- app_assoc).
    f_equal. simpl. rewrite length_app. simpl.
    replace (length pre + S (length t) - S (length t)) with (length pre) by lia.
    rewrite take_app_length. by destruct (c =? COMMA)%N.
  - simpl. apply negb_false_iff, N.eqb_eq in Hc. subst c. done.
Qed.

(** At the head of a text the location pattern needs '/@', and then goes
    through the commas of the line. *)
Lemma run_pattern_coordinates s :
  run pattern_coordinates (None, s) =
    match s with
    | c1 :: c2 :: s' =>
        if ((c1 =? SLASH) && (c2 =? AT))%N then comma_backtrack [] s' else []
    | _ => []
    end.
Proof.
  destruct s as [|c1 [|c2 s']]; simpl; [done| |].
  - by destruct (c1 =? SLASH)%N.
  - destruct (c1 =? SLASH)%N; [|done]. simpl.
    destruct (c2 =? AT)%N; [|done]. simpl.
    rewrite !app_nil_r.
    change (star _ (length s') (None, s'))
      with (star (run (Chr (fun c => negb (c =? NL)%N))) (length s') (None, s')).
    rewrite star_class by done.
    by apply (group_star_comma None s' [] s').
Qed.

Lemma comma_backtrack_nil pre s :
  comma_backtrack pre s = [] <-> COMMA ∉ line_of s.
Proof.
  revert pre. induction s as [|c t IH]; intros pre; simpl.
  - split; [intros _; apply not_elem_of_nil | done].
  - destruct (negb (c =? NL)%N); [|split; [intros _; apply not_elem_of_nil | done]].
    rewrite not_elem_of_cons. split.
    + intros Hnil. apply app_eq_nil in Hnil as [H1 H2].
      apply IH in H1. split; [|done].
      intros <-. by rewrite N.eqb_refl in H2.
    + intros [Hne Hnot]. apply (IH (pre ++ [c])) in Hnot. rewrite Hnot.
      destruct (N.eqb_spec c COMMA); [congruence | done].
Qed.

Lemma comma_backtrack_head pre s g rest tl :
  comma_backtrack pre s = (g, rest) :: tl ->
  exists body, g = Some (pre ++ body) /\ s = body ++ COMMA :: rest
               /\ (NL ∉ body) /\ (COMMA ∉ line_of rest).
Proof.
  revert pre tl. induction s as [|c t IH]; intros pre tl; simpl; [done|].
  destruct (N.eqb_spec c NL) as [->|Hnl]; simpl; [done|].
  destruct (comma_backtrack (pre ++ [c]) t) as [|[g' rest'] tl'] eqn:E.
  - apply comma_backtrack_nil in E. simpl.
    destruct (N.eqb_spec c COMMA) as [->|Hc]; [|done].
    intros [= <- <- <-]. exists []. rewrite app_nil_r.
    split_and!; [done | done | apply not_elem_of_nil | done].
  - simpl. intros [= <- <- <-].
    apply IH in E as (body & -> & -> & Hbody & Hrest).
    exists (c :: body). rewrite <- app_assoc.
    split_and!; [done | done | | done].
    rewrite not_elem_of_cons. split; [congruence | done].
Qed.

Lemma line_comma s :
  COMMA ∈ line_of s <->
  exists body post, s = body ++ COMMA :: post /\ NL ∉ body.
Proof.
  induction s as [|c t IH]; simpl.
  - split; [by intros ?%elem_of_nil|]. intros (body & post & Heq & _).
    by destruct body.
  - destruct (N.eqb_spec c NL) as [->|Hnl]; simpl.
    + split; [by intros ?%elem_of_nil|]. intros (body & post & Heq & Hbody).
      destruct body as [|b body]; [done|]. injection Heq as <- ->.
      exfalso. apply Hbody. left.
    + rewrite elem_of_cons, IH. split.
      * intros [<-|(body & post & -> & Hbody)].
        -- exists [], t. split; [done | apply not_elem_of_nil].
        -- exists (c :: body), post. split; [done|].
           rewrite not_elem_of_cons. split; [congruence | done].
      * intros (body & post & Heq & Hbody).
        destruct body as [|b body]; [injection Heq as -> ->; by left|].
        injection Heq as <- ->. right. exists body, post. split; [done|].
        intros Hin. apply Hbody. by right.
Qed.

(** The pattern matches at the head of [s] exactly when a marker stands
    there. *)
Lemma run_coordinates_nil s :
  run pattern_coordinates (None, s) = [] <-> ~ marker_at s [].
Proof.
  rewrite run_pattern_coordinates. unfold marker_at, marker. split.
  - intros Hrun (body & post & -> & Hbody). simpl in Hrun.
    apply comma_backtrack_nil in Hrun. apply Hrun, line_comma. eauto.
  - intros Hno. destruct s as [|c1 [|c2 s']]; [done..|].
    destruct (N.eqb_spec c1 SLASH) as [->|]; [|done].
    destruct (N.eqb_spec c2 AT) as [->|]; [|done]. simpl.
    apply comma_backtrack_nil. intros (body & post & -> & Hbody)%line_comma.
    apply Hno. by exists body, post.
Qed.

Lemma marker_at_cons c t pre :
  marker_at (c :: t) (c :: pre) <-> marker_at t pre.
Proof.
  unfold marker_at. split; intros (body & post & Heq & Hbody);
    exists body, post; (split; [|done]).
  - by injection Heq.
  - simpl. by rewrite Heq.
Qed.

Lemma marker_at_head c t pre :
  marker_at (c :: t) pre -> pre = [] \/ exists pre', pre = c :: pre'.
Proof.
  intros (body & post & Heq & _). destruct pre as [|c' pre]; [by left|].
  right. injection Heq as -> _. by eexists.
Qed.

Lemma run_coordinates_head s g rest tl :
  run pattern_coordinates (None, s) = (g, rest) :: tl ->
  exists body, s = marker ++ body ++ COMMA :: rest /\ g = Some body
               /\ (NL ∉ body) /\ (COMMA ∉ line_of rest).
Proof.
  rewrite run_pattern_coordinates.
  destruct s as [|c1 [|c2 s']]; [done..|].
  destruct (N.eqb_spec c1 SLASH) as [->|]; [|done].
  destruct (N.eqb_spec c2 AT) as [->|]; [|done]. simpl.
  intros (body & -> & -> & Hbody & Hrest)%comma_backtrack_head.
  by exists body.
Qed.

(** What [re.search] finds with the location pattern. *)
Lemma search_coordinates_none x pos :
  search_from pos pattern_coordinates x = None <-> ~ has_marker x.
Proof.
  revert pos. induction x as [|c t IH]; intros pos; cbn [search_from].
  - destruct (run pattern_coordinates (None, [])) as [|[g rest] tl] eqn:E;
      [|by rewrite run_pattern_coordinates in E].
    split; [|done]. intros _ (pre & body & post & Heq & _).
    destruct pre; simpl in Heq; discriminate.
  - destruct (run pattern_coordinates (None, c :: t)) as [|[g rest] tl] eqn:E.
    + apply run_coordinates_nil in E. rewrite IH. split.
      * intros Hno [pre Hpre].
        destruct (marker_at_head _ _ _ Hpre) as [->|[pre' ->]]; [done|].
        apply Hno. exists pre'. by apply marker_at_cons in Hpre.
      * intros Hno [pre Hpre]. apply Hno. exists (c :: pre).
        by apply marker_at_cons.
    + split; [done|]. intros Hno. exfalso. apply Hno. exists [].
      apply run_coordinates_head in E as (body & Heq & _ & Hbody & _).
      by exists body, rest.
Qed.

Lemma search_coordinates_some x pos m :
  search_from pos pattern_coordinates x = Some m ->
  exists pre body rest,
    x = pre ++ marker ++ body ++ COMMA :: rest
    /\ group1 m = Some body /\ (NL ∉ body) /\ (COMMA ∉ line_of rest)
    /\ forall pre', marker_at x pre' -> length pre <= length pre'.
Proof.
  revert pos. induction x as [|c t IH]; intros pos; cbn [search_from].
  - by rewrite run_pattern_coordinates.
  - destruct (run pattern_coordinates (None, c :: t)) as [|[g rest] tl] eqn:E.
    + intros (pre & body & rest & -> & Hg & Hbody & Hrest & Hmin)%IH.
      exists (c :: pre), body, rest. split_and!; [done..|].
      apply run_coordinates_nil in E. intros pre' Hpre'.
      destruct (marker_at_head _ _ _ Hpre') as [->|[pre'' ->]]; [done|].
      apply marker_at_cons, Hmin in Hpre'. simpl. lia.
    + intros [= <-]. simpl.
      apply run_coordinates_head in E as (body & Heq & -> & Hbody & Hrest).
      exists [], body, rest. split_and!; [done..|]. intros; simpl; lia.
Qed.
End Locations.

Section Coordinates.
Context `{Builtins}.
Import Py Re.

Local Abbreviation line_of s := (take_while (fun c => negb (c =? NL)%N) s).

Lemma traverse_Ok {A B} (f : A -> result B) (l : list A) (ys : list B) :
  traverse f l = Ok ys <-> Forall2 (fun x y => f x = Ok y) l ys.
Proof.
  revert ys. induction l as [|x l IH]; intros ys; simpl.
  - split; [intros [= <-]; constructor | by inversion 1].
  - destruct (f x) as [y|e] eqn:Hx; simpl.
    + destruct (traverse f l) as [ys'|e] eqn:Hl; simpl.
      * split.
        -- intros [= <-]. constructor; [done | by apply IH].
        -- inversion 1 as [|? y' ? ys'' Hy Hys]; subst.
           apply IH in Hys. congruence.
      * split; [done|]. inversion 1 as [|? y' ? ys'' Hy Hys]; subst.
        apply IH in Hys. congruence.
    + split; [done|]. inversion 1; congruence.
Qed.

Lemma app_sep_inv (c : N) (a b x y : list N) :
  a ++ c :: x = b ++ c :: y -> c ∉ b ->
  (a = b /\ x = y) \/ (exists a', a = b ++ c :: a' /\ a' ++ c :: x = y).
Proof.
  revert a. induction b as [|b0 b IH]; intros a Heq Hb.
  - destruct a as [|a0 a]; simpl in Heq.
    + left. by injection Heq.
    + right. injection Heq as -> Heq. by exists a.
  - apply not_elem_of_cons in Hb as [Hne Hb].
    destruct a as [|a0 a]; simpl in Heq; [injection Heq; congruence|].
    injection Heq as -> Heq.
    destruct (IH a Heq Hb) as [[-> ->]|(a' & -> & <-)]; [by left|].
    right. by exists a'.
Qed.

Lemma split_decompose c s l ls :
  split c s = l :: ls ->
  (c ∉ l)
  /\ ((ls = [] /\ s = l) \/ exists s', s = l ++ c :: s' /\ ls = split c s').
Proof.
  revert l ls. induction s as [|x s IH]; intros l ls; simpl.
  - intros [= <- <-]. split; [apply not_elem_of_nil | by left].
  - destruct (N.eqb_spec x c) as [->|Hne].
    + intros [= <- <-]. split; [apply not_elem_of_nil|]. right. by exists s.
    + destruct (split c s) as [|l' ls'] eqn:E; [by destruct (split_nonempty c s)|].
      intros [= <- <-]. destruct (IH l' ls' eq_refl) as [Hl' Hs].
      split; [rewrite not_elem_of_cons; split; [congruence | done]|].
      destruct Hs as [[-> ->]|(s' & -> & ->)]; [by left|].
      right. by exists s'.
Qed.


Lemma coordinate_tokens_some x toks :
  coordinate_tokens x = Ok toks ->
  exists pre body rest,
    x = pre ++ marker ++ body ++ COMMA :: rest /\ toks = split COMMA body
    /\ (NL ∉ body) /\ (COMMA ∉ line_of rest)
    /\ forall pre', marker_at x pre' -> length pre <= length pre'.
Proof.
  unfold coordinate_tokens, search.
  destruct (search_from 0 pattern_coordinates x) as [m|] eqn:E; [|done].
  apply search_coordinates_some in E
    as (pre & body & rest & Hx & -> & Hbody & Hrest & Hmin).
  intros [= <-]. by exists pre, body, rest.
Qed.

(** One row of cell 10. *)
Lemma row_located (x : cell) (la lo : Q) :
  (exists toks, coordinate_tokens_of x = Ok toks
                /\ (t ← item 0 toks; float t) = Ok la
                /\ (t ← item 1 toks; float t) = Ok lo)
  <-> located x la lo.
Proof.
  split.
  - intros (toks & Htoks & Hla & Hlo).
    destruct x as [| | |text]; try done. simpl in Htoks.
    apply coordinate_tokens_some in Htoks
      as (pre & body & rest & -> & -> & Hbody & Hrest & Hmin).
    destruct (split COMMA body) as [|lat ls] eqn:E1; [done|].
    apply split_decompose in E1 as [Hlat [[-> ->]|(s' & -> & ->)]]; [done|].
    destruct (split COMMA s') as [|lon ls'] eqn:E2; [done|].
    simpl in Hla, Hlo.
    assert ((NL ∉ lat) /\ (NL ∉ s')) as [Hnl1 Hnl2].
    { rewrite elem_of_app, elem_of_cons in Hbody. naive_solver. }
    apply split_decompose in E2 as [Hlon [[-> ->]|(s'' & -> & ->)]].
    + exists pre, lat, lon, rest. rewrite <- !app_assoc in Hmin |- *.
      simpl in *. split_and!; done.
    + exists pre, lat, lon, (s'' ++ COMMA :: rest).
      rewrite <- !app_assoc in Hmin |- *. simpl in *.
      rewrite <- !app_assoc in Hmin |- *. simpl in *.
      split_and!; try done.
      rewrite elem_of_app in Hnl2. naive_solver.
  - intros (pre & lat & lon & rest & -> & Hc1 & Hn1 & Hc2 & Hn2 & Hmin & Hla & Hlo).
    set (x := pre ++ marker ++ lat ++ COMMA :: lon ++ COMMA :: rest) in *.
    assert (marker_at x pre) as Hat.
    { exists lat, (lon ++ COMMA :: rest). by split. }
    destruct (coordinate_tokens x) as [toks|e] eqn:E.
    2:{ exfalso. unfold coordinate_tokens, search in E.
        destruct (search_from 0 pattern_coordinates x) as [m|] eqn:Es.
        - apply search_coordinates_some in Es as (? & ? & ? & _ & Hg & _).
          by rewrite Hg in E.
        - apply search_coordinates_none in Es. apply Es. by exists pre. }
    exists toks. split; [done|].
    apply coordinate_tokens_some in E
      as (pre_m & body & rest_m & Hx & -> & Hbody & Hrest & Hmin_m).
    assert (length pre_m = length pre) as Hlen.
    { apply Nat.le_antisymm; [by apply Hmin_m|]. apply Hmin.
      exists body, rest_m. by split. }
    unfold x in Hx. apply app_inj_1 in Hx as [-> Hx]; [|done].
    apply app_inv_head in Hx. symmetry in Hx.
    apply app_sep_inv in Hx as [[-> ->]|(a' & -> & Hx)]; [| |done].
    { exfalso. apply Hrest, line_comma. by exists lon, rest. }
    apply app_sep_inv in Hx as [[-> ->]|(a'' & -> & Hx)]; [| |done].
    + rewrite split_app, split_none by done. done.
    + rewrite !split_app by done. done.
Qed.
End Coordinates.

Section CoordinateColumn.
Context `{Builtins}.
Import Py Re.

Lemma rows_located (maps_herf : list cell) (las los : list Q) :
  (exists tokss,
      Forall2 (fun x toks => coordinate_tokens_of x = Ok toks) maps_herf tokss
      /\ Forall2 (fun toks la => (t ← item 0 toks; float t) = Ok la) tokss las
      /\ Forall2 (fun toks lo => (t ← item 1 toks; float t) = Ok lo) tokss los)
  <-> Forall3 located maps_herf las los.
Proof.
  split.
  - intros (tokss & H1 & H2 & H3). revert las los H2 H3.
    induction H1 as [|x toks maps tokss Hx _ IH]; intros las los H2 H3.
    + inversion H2; inversion H3; subst. constructor.
    + inversion H2 as [|? la ? las' Hla Hlas]; subst.
      inversion H3 as [|? lo ? los' Hlo Hlos]; subst.
      constructor; [|by apply IH]. apply row_located. by exists toks.
  - induction 1 as [|x la lo maps las los Hx _ (tokss & H1 & H2 & H3)].
    + exists []. by repeat constructor.
    + apply row_located in Hx as (toks & Ht & Hla & Hlo).
      exists (toks :: tokss). by repeat constructor.
Qed.

Lemma coordinates_Ok (maps_herf : list cell) (las los : list Q) :
  coordinates maps_herf = Ok (las, los) <-> Forall3 located maps_herf las los.
Proof.
  rewrite <- rows_located. unfold coordinates. split.
  - destruct (traverse coordinate_tokens_of maps_herf) as [tokss|] eqn:E1;
      [simpl|done].
    destruct (traverse (fun sublist => t ← item 0 sublist; float t) tokss)
      as [las'|] eqn:E2; [simpl|done].
    destruct (traverse (fun sublist => t ← item 1 sublist; float t) tokss)
      as [los'|] eqn:E3; [simpl|done].
    intros [= <- <-]. exists tokss.
    split_and!; by apply traverse_Ok.
  - intros (tokss & H1 & H2 & H3).
    apply traverse_Ok in H1.
    apply (traverse_Ok (fun sublist => t ← item 0 sublist; float t)) in H2.
    apply (traverse_Ok (fun sublist => t ← item 1 sublist; float t)) in H3.
    rewrite H1. simpl. rewrite H2. simpl. by rewrite H3.
Qed.
End CoordinateColumn.



(** A link as the table holds them. *)
Example coordinates_sample :
  @coordinates sample_builtins
    [Str (Py.lit "https://www.google.com/maps/place/x/@52.25,21.5,17z/data")]
  = Ok ([(5225 # 100)%Q], [(215 # 10)%Q]).
Proof. vm_compute. reflexivity. Qed.

(** ** Frames *)

Section Frames.
Import Py.

Lemma getcol_Ok label df s :
  getcol label df = Ok s <->
  label ∈ columns df /\ s = (fun r => at_label r label) <$> rows df.
Proof.
  unfold getcol. case_bool_decide; split.
  - by intros [= <-].
  - by intros [_ ->].
  - done.
  - by intros [? _].
Qed.

Lemma setcol_fmap label (f : gmap string cell -> cell) cols rs :
  setcol label (f <$> rs) {| columns := cols; rows := rs |}
  = Ok {| columns := if bool_decide (label ∈ cols) then cols
                     else cols ++ [label];
          rows := (fun r => <[label := f r]> r) <$> rs |}.
Proof.
  unfold setcol. simpl. rewrite length_fmap, Nat.eqb_refl. do 2 f_equal.
  by rewrite zip_with_fmap_r, zip_with_diag.
Qed.

Lemma setcol_rows label (f : gmap string cell -> cell) df :
  setcol label (f <$> rows df) df
  = Ok {| columns := if bool_decide (label ∈ columns df) then columns df
                     else columns df ++ [label];
          rows := (fun r => <[label := f r]> r) <$> rows df |}.
Proof. destruct df. apply setcol_fmap. Qed.

Lemma select_rows_fmap {A} (f : A -> bool) (l : list A) :
  select_rows (f <$> l) l = List.filter f l.
Proof.
  induction l as [|x l IH]; csimpl; [done|]. by rewrite IH.
Qed.

Lemma Forall2_fmap_same {A B} (R : A -> B -> Prop) (f : A -> B) (l : list A) :
  (forall x, x ∈ l -> R x (f x)) -> Forall2 R l (f <$> l).
Proof.
  induction l as [|x l IH]; intros HR; csimpl; constructor.
  - apply HR. left.
  - apply IH. intros y Hy. apply HR. by right.
Qed.

Lemma lookup_foldr_delete (r : gmap string cell) labels c :
  foldr delete r labels !! c
  = if bool_decide (c ∈ labels) then None else r !! c.
Proof.
  induction labels as [|l labels IH]; simpl.
  - done.
  - destruct (decide (l = c)) as [->|Hne].
    + rewrite lookup_delete_eq. rewrite bool_decide_eq_true_2; [done | left].
    + rewrite lookup_delete_ne by done. rewrite IH.
      destruct (decide (c ∈ labels)) as [Hin|Hin].
      * rewrite !bool_decide_eq_true_2; [done | by right | done].
      * rewrite !bool_decide_eq_false_2; [done | | done].
        intros [->|?]%elem_of_cons; done.
Qed.

Lemma forallb_columns (labels cols : list string) :
  forallb (fun c : string => bool_decide (c ∈ cols)) labels = true
  <-> Forall (fun c => c ∈ cols) labels.
Proof.
  induction labels as [|c labels IH]; simpl.
  - split; [constructor | done].
  - rewrite andb_true_iff, IH, bool_decide_eq_true, Forall_cons. done.
Qed.

Lemma drop_Ok labels df out :
  drop labels df = Ok out <->
  Forall (fun c => c ∈ columns df) labels
  /\ out = {| columns := filter (fun c => c ∉ labels) (columns df);
              rows := (fun r => foldr delete r labels) <$> rows df |}.
Proof.
  unfold drop. rewrite <- forallb_columns.
  destruct (forallb _ labels); split.
  - by intros [= <-].
  - by intros [_ ->].
  - done.
  - by intros [? _].
Qed.

(** The index of a mapper. *)
Lemma index_has_true m c :
  index_has m c = true ->
  exists k v, (k, v) ∈ m /\ cell_eqb k c = true /\ index_get m c = Some v.
Proof.
  induction m as [|[k v] m IH]; simpl; [done|].
  destruct (cell_eqb k c) eqn:E; simpl.
  - intros _. exists k, v. split; [left | done].
  - intros (k' & v' & Hin & Heq & Hget)%IH. exists k', v'.
    split; [by right | done].
Qed.

Lemma index_has_false m c k v :
  index_has m c = false -> (k, v) ∈ m -> cell_eqb k c = false.
Proof.
  induction m as [|[k' v'] m IH]; simpl; [by intros _ ?%elem_of_nil|].
  intros [E1 E2]%orb_false_iff [[= -> ->]|Hin]%elem_of_cons; [done | by apply IH].
Qed.

Lemma loc_rows_fmap label m (g : gmap string cell -> cell) rs :
  loc_rows label (index_has m <$> (g <$> rs))
           ((fun c => default NaN (index_get m c)) <$> (g <$> rs)) rs
  = (fun r => if index_has m (g r)
              then <[label := default NaN (index_get m (g r))]> r
              else <[label := at_label r label]> r) <$> rs.
Proof.
  induction rs as [|r rs IH]; csimpl; [done|]. by rewrite IH.
Qed.

Lemma elem_of_zip_fmap {A B C} (f : A -> B) (g : A -> C) (l : list A) b c :
  (b, c) ∈ zip (f <$> l) (g <$> l) <-> exists x, x ∈ l /\ b = f x /\ c = g x.
Proof.
  rewrite zip_with_fmap_l, zip_with_fmap_r, zip_with_diag.
  rewrite list_elem_of_fmap. split.
  - intros (x & [= -> ->] & Hx). by exists x.
  - intros (x & Hx & -> & ->). by exists x.
Qed.

(** What [update_from] does to the rows. *)
Lemma update_from_Ok key label mapper df df' :
  update_from key label mapper df = Ok df' ->
  is_unique mapper = true /\ key ∈ columns df
  /\ df' = {| columns := if bool_decide (label ∈ columns df) then columns df
                         else columns df ++ [label];
              rows := (fun r =>
                         if index_has mapper (at_label r key)
                         then <[label := default NaN
                                           (index_get mapper (at_label r key))]> r
                         else <[label := at_label r label]> r) <$> rows df |}.
Proof.
  unfold update_from, map_series.
  destruct (getcol key df) as [k|] eqn:Hk; [simpl|done].
  apply getcol_Ok in Hk as [Hkey ->].
  destruct (is_unique mapper); [simpl|done].
  intros [= <-]. split_and!; [done..|].
  unfold loc_set, isin. f_equal. apply loc_rows_fmap.
Qed.
End Frames.

Section FrameSteps.
Context `{Datakit} `{Builtins}.
Import Py.

Lemma add_hidden_fees_Ok df df_fees df' :
  add_hidden_fees df df_fees = Ok df' ->
  exists fees_map,
    fees_map = zip ((fun r => at_label r "link") <$> rows df_fees)
                   ((fun r => at_label r "real_additional_fees") <$> rows df_fees)
    /\ (forall c, c ∈ columns df -> c ∈ columns df')
    /\ rows df' =
       (fun r =>
          if index_has fees_map (at_label r "link")
          then <["additional_fees" :=
                   default NaN (index_get fees_map (at_label r "link"))]> r
          else <["additional_fees" := at_label r "additional_fees"]> r)
       <$> rows df.
Proof.
  unfold add_hidden_fees, set_index.
  destruct (getcol "link" df_fees) as [k|] eqn:Hk; [simpl|done].
  destruct (getcol "real_additional_fees" df_fees) as [v|] eqn:Hv; [simpl|done].
  apply getcol_Ok in Hk as [_ ->]. apply getcol_Ok in Hv as [_ ->].
  intros (_ & _ & ->)%update_from_Ok. eexists. split; [done|]. simpl.
  split; [|done]. intros c Hc. case_bool_decide; [done|].
  apply elem_of_app. by left.
Qed.

Lemma convert_column_Ok column df df' :
  convert_column column df = Ok df' <->
  column ∈ columns df
  /\ df' = {| columns := columns df;
              rows := (fun r => <[column := converted r column]> r) <$> rows df |}.
Proof.
  unfold convert_column.
  destruct (getcol column df) as [values|] eqn:Hv; simpl.
  - apply getcol_Ok in Hv as [Hin ->]. rewrite <- list_fmap_compose.
    rewrite (setcol_rows column (_ ∘ _)). rewrite bool_decide_eq_true_2 by done.
    split; [by intros [= <-] | by intros [_ ->]].
  - split; [done|]. intros [Hin _]. exfalso.
    unfold getcol in Hv. by rewrite bool_decide_eq_true_2 in Hv.
Qed.

Lemma legacy_prices_Ok legacy out :
  legacy_prices legacy = Ok out ->
  rows out = priced <$> rows legacy.
Proof.
  unfold legacy_prices, columns_to_convert. cbn [for_columns].
  destruct (convert_column "rent_price" legacy) as [l1|] eqn:E1; [simpl|done].
  apply convert_column_Ok in E1 as [_ ->].
  destruct (convert_column "additional_fees" _) as [l2|] eqn:E2; [simpl|done].
  apply convert_column_Ok in E2 as [_ ->].
  destruct (convert_column "area" _) as [l3|] eqn:E3; [simpl|done].
  apply convert_column_Ok in E3 as [_ ->].
  cbn [rows columns]. rewrite setcol_fmap. simpl.
  destruct (getcol "rent_price" _) as [rent|] eqn:E4; [simpl|done].
  apply getcol_Ok in E4 as [_ ->].
  destruct (getcol "area" _) as [area|] eqn:E5; [simpl|done].
  apply getcol_Ok in E5 as [_ ->]. cbn [rows columns].
  rewrite zip_with_fmap_l, zip_with_fmap_r, zip_with_diag.
  rewrite setcol_fmap. intros [= <-]. simpl.
  rewrite <- !list_fmap_compose. apply list_fmap_ext. intros _ r _. simpl.
  unfold priced, final_rent, rent_with_fees, converted, at_label.
  repeat (rewrite ?lookup_insert_eq, ?lookup_insert_ne by done; simpl).
  by destruct (isna _).
Qed.
End FrameSteps.

(** C3. In the preparation of the historical data, for every legacy row the
    final rent_price is the rent_price (read as a number by [get_numbers])
    plus the additional_fees when these are not missing, and the rent_price
    alone when they are; price_per_square is that final rent_price divided
    by the area. *)
Theorem legacy_rent_and_price_per_square `{Datakit} `{Builtins}
    (legacy out : DataFrame) :
  legacy_prices legacy = Ok out ->
  Forall2 (fun r r' =>
             r' !! "rent_price" = Some (final_rent r)
             /\ final_rent r =
                (if isna (converted r "additional_fees")
                 then converted r "rent_price"
                 else add (converted r "rent_price")
                          (converted r "additional_fees"))
             /\ r' !! "price_per_square"
                = Some (truediv (final_rent r) (converted r "area")))
          (rows legacy) (rows out).
Proof.
  intros ->%legacy_prices_Ok. apply Forall2_fmap_same. intros r _.
  unfold priced. split_and!; [|done|].
  - by rewrite lookup_insert_ne, lookup_insert_eq.
  - by rewrite lookup_insert_eq.
Qed.

(** Cell 25 returns as soon as the three columns are there. *)
Lemma legacy_prices_defined `{Datakit} `{Builtins} (legacy : DataFrame) :
  "rent_price" ∈ columns legacy -> "additional_fees" ∈ columns legacy ->
  "area" ∈ columns legacy ->
  exists out, legacy_prices legacy = Ok out.
Proof.
  intros H1 H2 H3.
  unfold legacy_prices, columns_to_convert, for_columns, convert_column, getcol.
  rewrite bool_decide_eq_true_2 by done. simpl.
  rewrite <- list_fmap_compose, setcol_rows. simpl.
  rewrite !bool_decide_eq_true_2 by done. simpl.
  rewrite <- list_fmap_compose, setcol_fmap. simpl.
  rewrite !bool_decide_eq_true_2 by done. simpl.
  rewrite <- list_fmap_compose, setcol_fmap. simpl.
  rewrite !bool_decide_eq_true_2 by done. simpl.
  rewrite setcol_fmap. simpl.
  rewrite !bool_decide_eq_true_2 by done. simpl.
  rewrite zip_with_fmap_l, zip_with_fmap_r, zip_with_diag, setcol_fmap.
  by eexists.
Qed.

(** The exact sample row pays 2000 + 500 for 50 square metres; the row
    whose fees do not read as a number pays its 3000 for 60. *)
Example legacy_prices_sample :
  (fun df => (fun r => (at_label r "rent_price", at_label r "price_per_square"))
             <$> rows df)
    <$> (legacy_exact sample_legacy
           ≫= @legacy_prices sample_datakit sample_builtins)
  = Ok [(Num (2500 # 1), Num (2500 # 50)); (Num 3000, Num (3000 # 60))].
Proof. vm_compute. reflexivity. Qed.

Lemma legacy_rent_and_price_per_square_witness :
  exists out,
    @legacy_prices sample_datakit sample_builtins sample_legacy = Ok out
    /\ Forall2 (fun r r' =>
                  r' !! "rent_price"
                  = Some (@final_rent sample_datakit sample_builtins r)
                  /\ @final_rent sample_datakit sample_builtins r =
                     (if isna (@converted sample_datakit sample_builtins r
                                          "additional_fees")
                      then @converted sample_datakit sample_builtins r "rent_price"
                      else @add sample_builtins
                             (@converted sample_datakit sample_builtins r "rent_price")
                             (@converted sample_datakit sample_builtins r
                                         "additional_fees"))
                  /\ r' !! "price_per_square"
                     = Some (@truediv sample_builtins
                               (@final_rent sample_datakit sample_builtins r)
                               (@converted sample_datakit sample_builtins r "area")))
               (rows sample_legacy) (rows out).
Proof.
  eexists. split; [reflexivity|].
  apply (@legacy_rent_and_price_per_square sample_datakit sample_builtins).
  reflexivity.
Defined.

(** C4. The hidden-fee step sets additional_fees, in exactly the rows of
    the main table whose link appears in the table of the model's output,
    to the real_additional_fees of that link; in every other row
    additional_fees stays as it is, and so does every other column of every
    row. *)
Theorem hidden_fees_change_listed_links_only (df df_fees df' : DataFrame) :
  add_hidden_fees df df_fees = Ok df' ->
  Forall2 (fun r r' =>
             (forall c, c ≠ "additional_fees" -> r' !! c = r !! c)
             /\ ((exists fee, fee_of df_fees (at_label r "link") fee
                              /\ r' !! "additional_fees" = Some fee)
                 \/ ((forall fee, ~ fee_of df_fees (at_label r "link") fee)
                     /\ r' !! "additional_fees"
                        = Some (at_label r "additional_fees")
                     /\ (is_Some (r !! "additional_fees") -> r' = r))))
          (rows df) (rows df')
  /\ (forall c, c ∈ columns df -> c ∈ columns df').
Proof.
  intros (fees_map & Hmap & Hcols & ->)%add_hidden_fees_Ok.
  split; [|done]. apply Forall2_fmap_same. intros r _.
  destruct (index_has fees_map (at_label r "link")) eqn:Hhas.
  - split; [intros c Hc; by rewrite lookup_insert_ne|]. left.
    apply index_has_true in Hhas as (k & v & Hin & Heq & ->).
    rewrite Hmap in Hin. apply elem_of_zip_fmap in Hin as (fr & Hfr & -> & ->).
    eexists. split; [by exists fr|]. by rewrite lookup_insert_eq.
  - split; [intros c Hc; by rewrite lookup_insert_ne|]. right. split_and!.
    + intros fee (fr & Hfr & Heq & _).
      rewrite (index_has_false fees_map _ (at_label fr "link")
                 (at_label fr "real_additional_fees") Hhas) in Heq; [done|].
      rewrite Hmap. apply elem_of_zip_fmap. by exists fr.
    + by rewrite lookup_insert_eq.
    + intros [v Hv]. apply insert_id. unfold at_label. by rewrite Hv.
Qed.

(** The step returns when both tables have their link column, the model's
    table has its fees, and no link occurs twice in it. *)
Lemma add_hidden_fees_defined (df df_fees : DataFrame) :
  "link" ∈ columns df -> "link" ∈ columns df_fees ->
  "real_additional_fees" ∈ columns df_fees ->
  is_unique (zip ((fun r => at_label r "link") <$> rows df_fees)
                 ((fun r => at_label r "real_additional_fees") <$> rows df_fees))
  = true ->
  exists df', add_hidden_fees df df_fees = Ok df'.
Proof.
  intros H1 H2 H3 Hu. unfold add_hidden_fees, set_index, update_from, getcol.
  rewrite !bool_decide_eq_true_2 by done. simpl.
  unfold map_series. rewrite Hu. simpl. by eexists.
Qed.

Lemma hidden_fees_change_listed_links_only_witness :
  exists df',
    add_hidden_fees sample_main sample_fees = Ok df'
    /\ Forall2 (fun r r' =>
                  (forall c, c ≠ "additional_fees" -> r' !! c = r !! c)
                  /\ ((exists fee, fee_of sample_fees (at_label r "link") fee
                                   /\ r' !! "additional_fees" = Some fee)
                      \/ ((forall fee, ~ fee_of sample_fees (at_label r "link") fee)
                          /\ r' !! "additional_fees"
                             = Some (at_label r "additional_fees")
                          /\ (is_Some (r !! "additional_fees") -> r' = r))))
               (rows sample_main) (rows df')
    /\ (forall c, c ∈ columns sample_main -> c ∈ columns df').
Proof.
  eexists. split; [reflexivity|].
  apply hidden_fees_change_listed_links_only. reflexivity.
Defined.

(** The first sample listing gets the 650 that the model found; the others
    keep what they had. *)
Example hidden_fees_sample :
  (fun df => (fun r => at_label r "additional_fees") <$> rows df)
    <$> add_hidden_fees sample_main sample_fees
  = Ok [Num 650; Num 50; Num 0; Num 400].
Proof. vm_compute. reflexivity. Qed.

(** C5. The table that the preparation notebook saves has none of the
    columns title, adv_description, link, last_update, location, and every
    other column of the enriched table is kept, with the same value in
    every row. *)
Theorem saved_table_keeps_the_other_columns (df : DataFrame) (w w' : world) :
  save df w = (Ok tt, w') ->
  exists out,
    files w' !! modeling_csv = Some out
    /\ (forall c, c ∈ columns_to_drop -> c ∉ columns out)
    /\ (forall c, c ∈ columns df -> c ∉ columns_to_drop -> c ∈ columns out)
    /\ Forall2 (fun r r' =>
                  (forall c, c ∈ columns_to_drop -> r' !! c = None)
                  /\ (forall c, c ∉ columns_to_drop -> r' !! c = r !! c))
               (rows df) (rows out).
Proof.
  unfold save, to_csv, emit, lift, mbind, M_bind.
  destruct (drop columns_to_drop df) as [out|] eqn:E; [|done].
  intros [= <-]. exists out. cbn [files]. rewrite lookup_insert_eq.
  apply drop_Ok in E as [_ ->]. cbn [columns rows]. split_and!; [done|..].
  - intros c Hc (Hnot & _)%list_elem_of_filter. done.
  - intros c Hc Hnot. by apply list_elem_of_filter.
  - apply Forall2_fmap_same. intros r _. split; intros c Hc.
    + rewrite lookup_foldr_delete. by rewrite bool_decide_eq_true_2.
    + rewrite lookup_foldr_delete. by rewrite bool_decide_eq_false_2.
Qed.

(** The table is saved exactly when it has the five columns to drop. *)
Lemma save_defined (df : DataFrame) (w : world) :
  (save df w).1 = Ok tt <-> Forall (fun c => c ∈ columns df) columns_to_drop.
Proof.
  unfold save, to_csv, emit, lift, mbind, M_bind.
  destruct (drop columns_to_drop df) as [out|] eqn:E; simpl.
  - apply drop_Ok in E as [Hall _]. done.
  - split; [done|]. intros Hall. exfalso.
    assert (drop columns_to_drop df
            = Ok {| columns := filter (fun c => c ∉ columns_to_drop) (columns df);
                    rows := (fun r => foldr delete r columns_to_drop)
                            <$> rows df |}) as Hd; [|congruence].
    by apply drop_Ok.
Qed.

Lemma saved_table_keeps_the_other_columns_witness :
  exists w' out,
    save sample_main (mkWorld ∅ []) = (Ok tt, w')
    /\ files w' !! modeling_csv = Some out
    /\ (forall c, c ∈ columns_to_drop -> c ∉ columns out)
    /\ (forall c, c ∈ columns sample_main -> c ∉ columns_to_drop
                  -> c ∈ columns out)
    /\ Forall2 (fun r r' =>
                  (forall c, c ∈ columns_to_drop -> r' !! c = None)
                  /\ (forall c, c ∉ columns_to_drop -> r' !! c = r !! c))
               (rows sample_main) (rows out).
Proof.
  eexists.
  destruct (saved_table_keeps_the_other_columns sample_main (mkWorld ∅ []) _
              eq_refl) as (out & Hout).
  exists out. split; [reflexivity | exact Hout].
Defined.

Example saved_table_sample :
  columns <$> drop columns_to_drop sample_main
  = Ok ["added_dt"; "additional_fees"; "rent"; "latitude"; "longitude"].
Proof. vm_compute. reflexivity. Qed.

(** ** The nearest stop *)

Section Nearest.
Context `{Datakit}.

Lemma least_le_head d ds : (least d ds <= d)%Q.
Proof.
  revert d. induction ds as [|d' ds IH]; intros d; simpl; [apply Qle_refl|].
  destruct (Qlt_le_dec d' d) as [Hlt|Hle]; [|apply IH].
  eapply Qle_trans; [apply IH | by apply Qlt_le_weak].
Qed.

Lemma least_le_in d ds x : x ∈ ds -> (least d ds <= x)%Q.
Proof.
  revert d. induction ds as [|d' ds IH]; intros d; [by intros ?%elem_of_nil|].
  intros [->|Hin]%elem_of_cons; simpl; [|by apply IH].
  destruct (Qlt_le_dec d' d) as [Hlt|Hle]; [apply least_le_head|].
  eapply Qle_trans; [apply least_le_head | done].
Qed.

Lemma least_in d ds : least d ds ∈ d :: ds.
Proof.
  revert d. induction ds as [|d' ds IH]; intros d; simpl; [left|].
  destruct (Qlt_le_dec d' d).
  - right. apply IH.
  - specialize (IH d). apply elem_of_cons in IH as [->|Hin]; [left|].
    right. by right.
Qed.

(** The least distance over a part of the stops is no less than over all
    of them. *)
Lemma least_antitone {A} (f : A -> Q) (s : A) (ss : list A) (t : A) (ts : list A) :
  (forall x, x ∈ t :: ts -> x ∈ s :: ss) ->
  (least (f s) (f <$> ss) <= least (f t) (f <$> ts))%Q.
Proof.
  intros Hsub.
  pose proof (least_in (f t) (f <$> ts)) as Hin.
  change (f t :: (f <$> ts)) with (f <$> (t :: ts)) in Hin.
  apply list_elem_of_fmap in Hin as (x & -> & Hx).
  apply Hsub, elem_of_cons in Hx as [->|Hx]; [apply least_le_head|].
  apply least_le_in. by apply list_elem_of_fmap_2.
Qed.

Lemma subway_stations_Ok ztm_stops subway :
  subway_stations ztm_stops = Ok subway ->
  rows subway
  = List.filter (fun r => is_subway_name (at_label r "stop_name"))
                (rows ztm_stops).
Proof.
  unfold subway_stations.
  destruct (getcol "stop_name" ztm_stops) as [names|] eqn:E; [simpl|done].
  apply getcol_Ok in E as [_ ->]. intros [= <-]. simpl.
  rewrite <- list_fmap_compose. apply select_rows_fmap.
Qed.

Lemma setcol_Ok label s df df' :
  setcol label s df = Ok df' ->
  Forall2 (fun r r' => exists c, r' = <[label := c]> r) (rows df) (rows df').
Proof.
  unfold setcol. destruct (Nat.eqb_spec (length s) (length (rows df))); [|done].
  intros [= <-]. simpl. revert s e.
  induction (rows df) as [|r rs IH]; intros [|c s] Hlen; try done; simpl.
  constructor; [by exists c|]. apply IH. by injection Hlen.
Qed.

Lemma nearest_subway_is_no_nearer df ztm_stops subway d_stop d_subway :
  distance_to_nearest_stop df ztm_stops = Ok d_stop ->
  subway_stations ztm_stops = Ok subway ->
  distance_to_nearest_stop df subway = Ok d_subway ->
  Forall2 (fun a b => exists x y, a = Num x /\ b = Num y /\ (x <= y)%Q)
          d_stop d_subway.
Proof.
  unfold distance_to_nearest_stop. intros H1 Hsub%subway_stations_Ok H2.
  destruct (rows ztm_stops) as [|s ss] eqn:Es; [done|].
  destruct (rows subway) as [|t ts] eqn:Et; [done|].
  injection H1 as <-. injection H2 as <-.
  apply Forall2_fmap, Forall_Forall2_diag, Forall_forall. intros r _.
  do 2 eexists. split_and!; [done..|].
  apply least_antitone. intros x Hx. rewrite Hsub in Hx.
  apply list_elem_of_In, filter_In in Hx as [Hx _]. by apply list_elem_of_In.
Qed.
End Nearest.

(** ** Running the cells *)

Section Running.

Lemma bind_M_Ok {A B} (m : M A) (f : A -> M B) w b w' :
  (m ≫= f) w = (Ok b, w') ->
  exists a w1, m w = (Ok a, w1) /\ f a w1 = (Ok b, w').
Proof.
  unfold mbind, M_bind. destruct (m w) as [[a|e] w1]; [|done].
  intros Hf. by exists a, w1.
Qed.

Lemma lift_Ok {A} (r : result A) w a w' :
  lift r w = (Ok a, w') -> r = Ok a /\ w' = w.
Proof. unfold lift. by intros [= -> ->]. Qed.

Lemma call_Ok {A} function args (r : result A) w a w' :
  call function args r w = (Ok a, w') ->
  r = Ok a /\ files w' = files w /\ log w' = log w ++ [Call function args].
Proof.
  unfold call, emit, lift, mbind, M_bind. by intros [= -> <-].
Qed.

Lemma read_csv_Ok path w df w' :
  read_csv path w = (Ok df, w') ->
  files w !! path = Some df /\ files w' = files w
  /\ log w' = log w ++ [ReadCsv path].
Proof.
  unfold read_csv, emit, mbind, M_bind. simpl.
  destruct (files w !! path); [|done]. by intros [= -> <-].
Qed.
End Running.

Section NearestCell.
Context `{Datakit}.

Lemma listing_distance_insert label c r stop :
  label ≠ "latitude" -> label ≠ "longitude" ->
  listing_distance (<[label := c]> r) stop = listing_distance r stop.
Proof.
  intros H1 H2. unfold listing_distance, at_label.
  by rewrite !lookup_insert_ne.
Qed.

Lemma distance_columns_Ok df w df' w' :
  distance_columns df w = (Ok df', w') ->
  exists ztm_stops s ss t ts,
    files w !! ztm_stops_csv = Some ztm_stops
    /\ rows ztm_stops = s :: ss
    /\ List.filter (fun r => is_subway_name (at_label r "stop_name"))
                   (rows ztm_stops) = t :: ts
    /\ Forall2 (fun r r' =>
                  exists c,
                    r' = <["distance_to_center" := c]>
                           (<["distance_to_subway" :=
                                Num (least (listing_distance r t)
                                           (listing_distance r <$> ts))]>
                              (<["distance_to_stop" :=
                                   Num (least (listing_distance r s)
                                              (listing_distance r <$> ss))]> r)))
               (rows df) (rows df').
Proof.
  unfold distance_columns.
  intros (ztm_stops & w1 & (Hfile & _)%read_csv_Ok & Hrun)%bind_M_Ok.
  apply bind_M_Ok in Hrun as (d1 & w2 & (Hd1 & _)%call_Ok & Hrun).
  apply bind_M_Ok in Hrun as (df1 & w3 & (Hdf1 & _)%lift_Ok & Hrun).
  apply bind_M_Ok in Hrun as (subway & w4 & (Hsub & _)%lift_Ok & Hrun).
  apply bind_M_Ok in Hrun as (d2 & w5 & (Hd2 & _)%call_Ok & Hrun).
  apply bind_M_Ok in Hrun as (df2 & w6 & (Hdf2 & _)%lift_Ok & Hrun).
  apply bind_M_Ok in Hrun as (d3 & w7 & (Hd3 & _)%call_Ok & Hrun).
  apply lift_Ok in Hrun as [Hdf3 _].
  apply subway_stations_Ok in Hsub.
  unfold distance_to_nearest_stop in Hd1, Hd2.
  destruct (rows ztm_stops) as [|s ss] eqn:Es; [done|].
  destruct (rows subway) as [|t ts] eqn:Et; [done|].
  injection Hd1 as <-. injection Hd2 as <-.
  rewrite setcol_rows in Hdf1. injection Hdf1 as <-.
  rewrite setcol_rows in Hdf2. injection Hdf2 as <-.
  apply setcol_Ok in Hdf3. cbn [rows] in Hdf3.
  exists ztm_stops, s, ss, t, ts. split_and!; [done | done | by rewrite Es |].
  rewrite <- list_fmap_compose in Hdf3. apply Forall2_fmap_l in Hdf3.
  eapply Forall2_impl; [exact Hdf3|]. intros r r' [c ->]. exists c. simpl.
  do 3 f_equal. rewrite listing_distance_insert by done. f_equal.
  apply list_fmap_ext. intros _ stop _. by apply listing_distance_insert.
Qed.
End NearestCell.

(** C2. The subway stations are those rows of ztm_stops whose stop_name
    passes one of the name tests, and distance_to_nearest_stop gives for
    every listing the least distance to a stop of the set it is given; so
    in every row of the main table distance_to_subway is greater than or
    equal to distance_to_stop. *)
Theorem subway_is_no_nearer_than_the_nearest_stop `{Datakit}
    (df df' : DataFrame) (w w' : world) :
  distance_columns df w = (Ok df', w') ->
  length (rows df') = length (rows df)
  /\ Forall (fun r =>
               exists a b, r !! "distance_to_stop" = Some (Num a)
                           /\ r !! "distance_to_subway" = Some (Num b)
                           /\ (a <= b)%Q)
            (rows df').
Proof.
  intros (ztm_stops & s & ss & t & ts & _ & Hall & Hsub & Hrows)%distance_columns_Ok.
  split; [symmetry; by eapply Forall2_length|].
  eapply Forall2_Forall_r; [exact Hrows|]. apply Forall_forall.
  intros r _ r' [c ->]. do 2 eexists. split_and!.
  - rewrite !lookup_insert_ne by done. by rewrite lookup_insert_eq.
  - rewrite lookup_insert_ne by done. by rewrite lookup_insert_eq.
  - apply least_antitone. intros x Hx. rewrite <- Hsub in Hx. rewrite <- Hall.
    apply list_elem_of_In, filter_In in Hx as [Hx _]. by apply list_elem_of_In.
Qed.

Lemma subway_is_no_nearer_than_the_nearest_stop_witness :
  exists df' w',
    @distance_columns sample_datakit sample_main
      (mkWorld {[ ztm_stops_csv := sample_stops ]} []) = (Ok df', w')
    /\ length (rows df') = length (rows sample_main)
    /\ Forall (fun r =>
                 exists a b, r !! "distance_to_stop" = Some (Num a)
                             /\ r !! "distance_to_subway" = Some (Num b)
                             /\ (a <= b)%Q)
              (rows df').
Proof.
  set (run := @distance_columns sample_datakit sample_main
                (mkWorld {[ ztm_stops_csv := sample_stops ]} [])).
  assert (run = (Ok (match run.1 with Ok d => d | Raise _ => sample_main end),
                 run.2)) as Hrun by reflexivity.
  do 2 eexists. split; [exact Hrun|].
  exact (@subway_is_no_nearer_than_the_nearest_stop sample_datakit sample_main
           _ _ _ Hrun).
Defined.

(** The four sample listings lie at 1, 4, 7 and 8; the stops at 5, 2 and
    9, of which 5 and 9 are subway stations. *)
Example distance_columns_sample :
  (fun df => (fun r => (at_label r "distance_to_stop",
                        at_label r "distance_to_subway")) <$> rows df)
    <$> (@distance_columns sample_datakit sample_main
           (mkWorld {[ ztm_stops_csv := sample_stops ]} [])).1
  = Ok [(Num 1, Num 4); (Num 1, Num 1); (Num 2, Num 2); (Num 1, Num 1)].
Proof. vm_compute. reflexivity. Qed.

(** ** The order of the steps *)

Section Order.
Context `{Datakit} `{Builtins}.

Lemma traced_eq {A} (m : M A) steps steps' :
  traced m steps -> steps = steps' -> traced m steps'.
Proof. by intros ? <-. Qed.

Lemma traced_lift {A} (r : result A) : traced (lift r) [].
Proof. intros w. exists []. simpl. by rewrite app_nil_r. Qed.

Lemma traced_read path : traced (read_csv path) [Reads path].
Proof.
  intros w. exists [ReadCsv path]. unfold read_csv, emit, mbind, M_bind. simpl.
  by destruct (files w !! path).
Qed.

Lemma traced_call {A} function args (r : result A) :
  traced (call function args r) [Calls function].
Proof. intros w. by exists [Call function args]. Qed.

Lemma traced_call_files {A} function args (r : gmap string DataFrame -> result A) :
  traced (fun w => call function args (r (files w)) w) [Calls function].
Proof. intros w. by exists [Call function args]. Qed.

Lemma traced_to_csv path df : traced (to_csv path df) [Writes path].
Proof. intros w. by exists [ToCsv path df]. Qed.

Lemma traced_bind {A B} (m : M A) (f : A -> M B) s1 s2 :
  traced m s1 -> (forall a, traced (f a) s2) -> traced (m ≫= f) (s1 ++ s2).
Proof.
  intros Hm Hf w. destruct (Hm w) as (evs1 & Hlog1 & Hpre1 & Hall1).
  unfold mbind, M_bind. destruct (m w) as [[a|e] w1]; simpl in *.
  - destruct (Hf a w1) as (evs2 & Hlog2 & Hpre2 & Hall2).
    exists (evs1 ++ evs2). rewrite Hlog2, Hlog1, fmap_app, (Hall1 a eq_refl).
    split_and!; [by rewrite app_assoc | by apply prefix_app |].
    intros b Hb. f_equal. by eapply Hall2.
  - exists evs1. split_and!; [done | by apply prefix_app_r | done].
Qed.

Ltac traced :=
  repeat first
    [ apply traced_lift | apply traced_read | apply traced_call
    | apply traced_call_files | apply traced_to_csv
    | eapply traced_bind; [|intros ?] ].

Lemma prepare_load_traced :
  traced prepare_load
    [Reads main_csv; Calls "deduplicate_main"; Calls "transform_data"].
Proof. eapply traced_eq; [unfold prepare_load; traced | done]. Qed.

Lemma locations_step_traced df : traced (locations_step df) [Reads locations_csv].
Proof. eapply traced_eq; [unfold locations_step; traced | done]. Qed.

Lemma fees_step_traced df : traced (fees_step df) [Reads fees_csv].
Proof. eapply traced_eq; [unfold fees_step; traced | done]. Qed.

Lemma distance_columns_traced df :
  traced (distance_columns df)
    [Reads ztm_stops_csv; Calls "distance_to_nearest_stop";
     Calls "distance_to_nearest_stop"; Calls "distance_to_center"].
Proof. eapply traced_eq; [unfold distance_columns; traced | done]. Qed.

Lemma average_price_traced df :
  traced (average_price df)
    [Calls "concat_csv_files"; Calls "average_price_within_radius"].
Proof. eapply traced_eq; [unfold average_price; traced | done]. Qed.

Lemma classes_step_traced df : traced (classes_step df) [Reads classes_csv].
Proof. eapply traced_eq; [unfold classes_step; traced | done]. Qed.

Lemma save_traced df : traced (save df) [Writes modeling_csv].
Proof. eapply traced_eq; [unfold save; traced | done]. Qed.

Lemma preparation_notebook_traced : traced preparation_notebook preparation_steps.
Proof.
  eapply traced_eq.
  - unfold preparation_notebook.
    eapply traced_bind; [apply prepare_load_traced | intros ?].
    eapply traced_bind; [apply locations_step_traced | intros ?].
    eapply traced_bind; [apply fees_step_traced | intros ?].
    eapply traced_bind; [apply distance_columns_traced | intros ?].
    eapply traced_bind; [apply average_price_traced | intros ?].
    eapply traced_bind; [apply classes_step_traced | intros ?].
    apply save_traced.
  - done.
Qed.

(** A beginning of a list that holds [b] holds all that comes before the
    first [b]. *)
Lemma prefix_reaches {A} (p l1 l3 : list A) (b : A) :
  p `prefix_of` (l1 ++ b :: l3) -> b ∉ l1 -> b ∈ p ->
  exists p', p = l1 ++ b :: p'.
Proof.
  revert p. induction l1 as [|a l1 IH]; intros p [k Hk] Hnot Hin.
  - destruct p as [|x p]; [by apply elem_of_nil in Hin|].
    injection Hk as <- _. by exists p.
  - apply not_elem_of_cons in Hnot as [Hne Hnot].
    destruct p as [|x p]; [by apply elem_of_nil in Hin|].
    injection Hk as <- Hk. apply elem_of_cons in Hin as [->|Hin]; [done|].
    destruct (IH p) as [p' ->]; [by exists k | done | done |]. by exists p'.
Qed.
End Order.

Section StepOrder.
Context `{Datakit} `{Builtins}.

Lemma in_order_prefix {A} (a b c : A) (l1 l2 l3 l4 p : list A) :
  p `prefix_of` (l1 ++ a :: l2 ++ b :: l3 ++ c :: l4) ->
  c ∉ l1 ++ a :: l2 ++ b :: l3 -> c ∈ p ->
  in_order a b c p.
Proof.
  intros Hpre Hnot Hin.
  destruct (prefix_reaches p (l1 ++ a :: l2 ++ b :: l3) l4 c) as [p' ->];
    [|done..|].
  - by rewrite <- !app_assoc, <- !app_comm_cons, <- !app_assoc.
  - exists l1, l2, l3, p'.
    by rewrite <- !app_assoc, <- !app_comm_cons, <- !app_assoc.
Qed.

Ltac step_not_in :=
  unfold main_csv, locations_csv, fees_csv, ztm_stops_csv, classes_csv,
    modeling_csv; simpl;
  rewrite ?not_elem_of_cons; split_and?;
  first [ apply not_elem_of_nil | discriminate ].

Lemma enrichment_after_transform (p : list step) (s : step) :
  p `prefix_of` preparation_steps ->
  s ∈ enrichment_steps ++ [Writes modeling_csv] -> s ∈ p ->
  in_order (Calls "deduplicate_main") (Calls "transform_data") s p.
Proof.
  intros Hpre Hs Hin. simpl in Hs.
  repeat (apply elem_of_cons in Hs as [->|Hs]);
    [..|by apply elem_of_nil in Hs].
  - eapply (in_order_prefix _ _ _ [_] [] []); [exact Hpre| |done]. step_not_in.
  - eapply (in_order_prefix _ _ _ [_] [] [_]); [exact Hpre| |done]. step_not_in.
  - eapply (in_order_prefix _ _ _ [_] [] [_; _]); [exact Hpre| |done].
    step_not_in.
  - eapply (in_order_prefix _ _ _ [_] [] [_; _; _]); [exact Hpre| |done].
    step_not_in.
  - eapply (in_order_prefix _ _ _ [_] [] [_; _; _; _; _]); [exact Hpre| |done].
    step_not_in.
  - eapply (in_order_prefix _ _ _ [_] [] [_; _; _; _; _; _]);
      [exact Hpre| |done]. step_not_in.
  - eapply (in_order_prefix _ _ _ [_] [] [_; _; _; _; _; _; _]);
      [exact Hpre| |done]. step_not_in.
  - eapply (in_order_prefix _ _ _ [_] [] [_; _; _; _; _; _; _; _]);
      [exact Hpre| |done]. step_not_in.
  - eapply (in_order_prefix _ _ _ [_] [] [_; _; _; _; _; _; _; _; _]);
      [exact Hpre| |done]. step_not_in.
Qed.

Lemma saving_comes_last (p : list step) :
  p `prefix_of` preparation_steps -> Writes modeling_csv ∈ p ->
  p = preparation_steps.
Proof.
  intros Hpre Hin.
  destruct (prefix_reaches p
              [ Reads main_csv; Calls "deduplicate_main"; Calls "transform_data";
                Reads locations_csv; Reads fees_csv; Reads ztm_stops_csv;
                Calls "distance_to_nearest_stop"; Calls "distance_to_nearest_stop";
                Calls "distance_to_center"; Calls "concat_csv_files";
                Calls "average_price_within_radius"; Reads classes_csv ]
              [] (Writes modeling_csv)) as [p' ->]; [exact Hpre| |done|].
  - step_not_in.
  - destruct Hpre as [k Hk]. unfold preparation_steps in Hk.
    rewrite <- app_assoc in Hk. simpl in Hk.
    injection Hk as Hk. symmetry in Hk. apply app_eq_nil in Hk as [-> _]. done.
Qed.
End StepOrder.

(** ** What the cells leave in the log *)

Section Logs.
Context `{Datakit} `{Builtins}.

Lemma quiet_lift P {A} (r : result A) : quiet P (lift r).
Proof. intros w. split; [done|]. exists []. by rewrite app_nil_r. Qed.

Lemma quiet_read P path :
  (forall fs, P fs (ReadCsv path)) -> quiet P (read_csv path).
Proof.
  intros HP w. unfold read_csv, emit, mbind, M_bind. simpl.
  split; [done|]. exists [ReadCsv path]. split; [done|]. by constructor.
Qed.

Lemma quiet_call P {A} function args (r : result A) :
  (forall fs, P fs (Call function args)) -> quiet P (call function args r).
Proof.
  intros HP w. split; [done|]. exists [Call function args].
  split; [done|]. by constructor.
Qed.

Lemma quiet_bind P {A B} (m : M A) (f : A -> M B) :
  quiet P m -> (forall a, quiet P (f a)) -> quiet P (m ≫= f).
Proof.
  intros Hm Hf w. destruct (Hm w) as (Hfiles1 & evs1 & Hlog1 & Hall1).
  unfold mbind, M_bind. destruct (m w) as [[a|e] w1]; simpl in *.
  - destruct (Hf a w1) as (Hfiles2 & evs2 & Hlog2 & Hall2).
    split; [congruence|]. exists (evs1 ++ evs2).
    rewrite Hlog2, Hlog1, app_assoc. split; [done|].
    apply Forall_app. split; [done|]. by rewrite <- Hfiles1.
  - split; [done|]. by exists evs1.
Qed.

Lemma logs_bind P {A B} (m : M A) (f : A -> M B) :
  quiet P m -> (forall a, logs P (f a)) -> logs P (m ≫= f).
Proof.
  intros Hm Hf w. destruct (Hm w) as (Hfiles1 & evs1 & Hlog1 & Hall1).
  unfold mbind, M_bind. destruct (m w) as [[a|e] w1]; simpl in *.
  - destruct (Hf a w1) as (evs2 & Hlog2 & Hall2).
    exists (evs1 ++ evs2).
    rewrite Hlog2, Hlog1, app_assoc. split; [done|].
    apply Forall_app. split; [done|]. by rewrite <- Hfiles1.
  - by exists evs1.
Qed.

Lemma legacy_exact_Ok raw exact :
  legacy_exact raw = Ok exact ->
  rows exact
  = List.filter (fun r => negb (eq_True (at_label r "approximate_coordinates")))
                (rows raw).
Proof.
  unfold legacy_exact.
  destruct (getcol "approximate_coordinates" raw) as [flags|] eqn:E; [simpl|done].
  apply getcol_Ok in E as [_ ->]. intros [= <-]. simpl.
  rewrite <- list_fmap_compose. apply select_rows_fmap.
Qed.

Lemma priced_other r c : c ∉ legacy_columns -> priced r !! c = r !! c.
Proof.
  unfold legacy_columns. rewrite !not_elem_of_cons.
  intros (? & ? & ? & ? & _). unfold priced.
  by rewrite !lookup_insert_ne.
Qed.

Lemma legacy_cells_exact raw exact legacy :
  legacy_exact raw = Ok exact -> legacy_prices exact = Ok legacy ->
  exact_rows_of raw legacy.
Proof.
  intros Hexact%legacy_exact_Ok Hprices%legacy_prices_Ok.
  unfold exact_rows_of. rewrite Hprices, Hexact.
  apply Forall2_fmap_same. intros r _ c Hc. by apply priced_other.
Qed.

(** The averaging is called on the exact rows, whatever the listings. *)
Lemma average_price_quiet df : quiet averaging_on_exact (average_price df).
Proof.
  intros w. unfold average_price, call, lift, emit, mbind, M_bind. simpl.
  assert (averaging_on_exact (files w) (Call "concat_csv_files" [])) as Hc
    by (by intros ? ? [=]).
  destruct (concat_csv_files legacy_folder (files w)) as [raw|] eqn:Eraw; simpl;
    [|split; [done|]; eexists; split; [done | by constructor]].
  destruct (legacy_exact raw) as [exact|] eqn:Eexact; simpl;
    [|split; [done|]; eexists; split; [done | by constructor]].
  destruct (legacy_prices exact) as [legacy|] eqn:Elegacy; simpl;
    [|split; [done|]; eexists; split; [done | by constructor]].
  assert (averaging_on_exact (files w)
            (Call "average_price_within_radius" [df; legacy])) as Ha.
  { intros df' legacy' [= <- <-]. exists raw. split; [done|].
    by eapply legacy_cells_exact. }
  destruct (average_price_within_radius df legacy (1 # 2)); simpl;
    (split; [done|]); eexists;
    (split; [by rewrite <- app_assoc | by repeat constructor]).
Qed.

Ltac quiet :=
  repeat first
    [ apply quiet_lift
    | apply quiet_read; by intros ? ? ? [=]
    | apply quiet_call; by intros ? ? ? [=]
    | apply quiet_bind; [|intros ?] ].

Lemma preparation_logs : logs averaging_on_exact preparation_notebook.
Proof.
  unfold preparation_notebook.
  apply logs_bind; [unfold prepare_load; quiet | intros ?].
  apply logs_bind; [unfold locations_step; quiet | intros ?].
  apply logs_bind; [unfold fees_step; quiet | intros ?].
  apply logs_bind; [unfold distance_columns; quiet | intros ?].
  apply logs_bind; [apply average_price_quiet | intros ?].
  apply logs_bind; [unfold classes_step; quiet | intros df].
  intros w. unfold save, to_csv, emit, lift, mbind, M_bind. simpl.
  destruct (drop columns_to_drop df); simpl.
  - eexists. split; [done|]. repeat constructor. by intros ? ? [=].
  - exists []. by rewrite app_nil_r.
Qed.
End Logs.

(** C10. Every frame of historical data that the notebook passes to
    [average_price_within_radius] holds no row whose approximate_coordinates
    equals [True]: it holds the rows of the concatenated historical data
    whose flag is [False] or missing, all of them and in their order (with
    the cells they had, the four columns of cell 25 apart), and the rows
    whose flag equals [True] are gone. *)
Theorem averaging_gets_exact_rows_only `{Datakit} `{Builtins}
    (w : world) (df legacy : DataFrame) :
  Call "average_price_within_radius" [df; legacy]
    ∈ log (preparation_notebook w).2 ->
  Call "average_price_within_radius" [df; legacy] ∉ log w ->
  Forall (fun r => eq_True (at_label r "approximate_coordinates") = false)
         (rows legacy)
  /\ exists raw,
       concat_csv_files legacy_folder (files w) = Ok raw
       /\ Forall2 (fun r r' =>
                     forall c, c ∉ legacy_columns -> r' !! c = r !! c)
                  (List.filter
                     (fun r => negb (eq_True (at_label r "approximate_coordinates")))
                     (rows raw))
                  (rows legacy).
Proof.
  intros Hin Hnot. destruct (preparation_logs w) as (evs & Hlog & Hall).
  rewrite Hlog in Hin. apply elem_of_app in Hin as [Hin|Hin]; [done|].
  rewrite Forall_forall in Hall.
  destruct (Hall _ Hin df legacy eq_refl) as (raw & Hraw & Hrows).
  split; [|by exists raw].
  eapply Forall2_Forall_r; [exact Hrows|]. apply Forall_forall.
  intros r Hr%list_elem_of_In%filter_In r' Heq. destruct Hr as [_ Hr].
  unfold at_label in *. rewrite Heq; [by apply negb_true_iff|].
  unfold legacy_columns. rewrite !not_elem_of_cons.
  split_and!; [done..|apply not_elem_of_nil].
Qed.

(** On the sample files the preparation notebook runs to its end, through
    all its steps, and saves three listings. *)
Example preparation_sample :
  let run := @preparation_notebook sample_datakit sample_builtins sample_world in
  run.1 = Ok tt
  /\ step_of <$> log run.2 = preparation_steps
  /\ (fun df => (columns df, length (rows df))) <$> files run.2 !! modeling_csv
     = Some (["added_dt"; "additional_fees"; "rent"; "latitude"; "longitude";
              "district"; "distance_to_stop"; "distance_to_subway";
              "distance_to_center"; "avg_price"; "apartment_class"], 3).
Proof. vm_compute. done. Qed.

Lemma averaging_gets_exact_rows_only_witness :
  let run := @preparation_notebook sample_datakit sample_builtins sample_world in
  let args := match log run.2 !! 10 with
              | Some (Call _ [df; legacy]) => (df, legacy)
              | _ => (sample_main, sample_main)
              end in
  length (rows args.2) = 2
  /\ Forall (fun r => eq_True (at_label r "approximate_coordinates") = false)
            (rows args.2)
  /\ exists raw,
       @concat_csv_files sample_datakit legacy_folder (files sample_world) = Ok raw
       /\ Forall2 (fun r r' =>
                     forall c, c ∉ legacy_columns -> r' !! c = r !! c)
                  (List.filter
                     (fun r => negb (eq_True (at_label r "approximate_coordinates")))
                     (rows raw))
                  (rows args.2).
Proof.
  intros run args. split; [vm_compute; reflexivity|].
  apply (@averaging_gets_exact_rows_only sample_datakit sample_builtins
           sample_world args.1 args.2).
  - apply list_elem_of_lookup. exists 10. vm_compute. reflexivity.
  - apply not_elem_of_nil.
Defined.

(** ** The listings that go to the model *)

Section Listings.
Context `{Datakit} `{Assistant}.
Import Py.

Lemma select_rows_and {A} (f g : A -> result bool) (l : list A) m1 m2 r :
  Forall2 (fun x b => f x = Ok b) l m1 ->
  Forall2 (fun x b => g x = Ok b) l m2 ->
  r ∈ select_rows (zip_with andb m1 m2) l ->
  r ∈ l /\ f r = Ok true /\ g r = Ok true.
Proof.
  intros H1. revert m2. induction H1 as [|x b1 l m1 Hx _ IH]; intros m2 H2.
  - by intros ?%elem_of_nil.
  - inversion H2 as [|? b2 ? m2' Hx2 H2']; subst. simpl.
    destruct b1, b2; simpl.
    + intros [->|Hin]%elem_of_cons; [by split_and!; [left|..]|].
      destruct (IH _ H2' Hin) as (? & ? & ?). split_and!; [by right|done..].
    + intros Hin. destruct (IH _ H2' Hin) as (? & ? & ?).
      split_and!; [by right|done..].
    + intros Hin. destruct (IH _ H2' Hin) as (? & ? & ?).
      split_and!; [by right|done..].
    + intros Hin. destruct (IH _ H2' Hin) as (? & ? & ?).
      split_and!; [by right|done..].
Qed.

Lemma llm_recent_cheap_Ok df df1 r :
  llm_recent_cheap df = Ok df1 -> r ∈ rows df1 ->
  r ∈ rows df
  /\ le_str (lit "2025-02-04") (at_label r "added_dt") = Ok true
  /\ lt_num 100 (at_label r "additional_fees") = Ok true.
Proof.
  unfold llm_recent_cheap.
  destruct (getcol "added_dt" df) as [added|] eqn:E1; [simpl|done].
  apply getcol_Ok in E1 as [_ ->].
  destruct (traverse _ _) as [recent|] eqn:E2; [simpl|done].
  destruct (getcol "additional_fees" df) as [fees|] eqn:E3; [simpl|done].
  apply getcol_Ok in E3 as [_ ->].
  destruct (traverse (lt_num 100) _) as [cheap|] eqn:E4; [simpl|done].
  intros [= <-]. simpl.
  apply traverse_Ok, Forall2_fmap_l in E2.
  apply traverse_Ok, Forall2_fmap_l in E4.
  apply (select_rows_and
           (fun r => le_str (lit "2025-02-04") (at_label r "added_dt"))
           (fun r => lt_num 100 (at_label r "additional_fees")));
    done.
Qed.

Lemma elem_of_zip_with_Forall2 {A B C} (f : A -> B -> C) (R : A -> B -> Prop)
    (l : list A) (k : list B) (x : C) :
  Forall2 R l k -> x ∈ zip_with f l k ->
  exists a b, a ∈ l /\ R a b /\ x = f a b.
Proof.
  induction 1 as [|a b l k Hab _ IH]; simpl; [by intros ?%elem_of_nil|].
  intros [->|Hin]%elem_of_cons.
  - exists a, b. split_and!; [left|done..].
  - destruct (IH Hin) as (a' & b' & ? & ? & ?). exists a', b'.
    split_and!; [by right|done..].
Qed.

(** Every row that cells 3 to 6 leave comes from a listing that is old
    enough and cheap enough, and holds the number-bearing lines of its
    description, which are not empty. *)
Lemma llm_listings_Ok df out r :
  llm_listings df = Ok out -> r ∈ rows out ->
  exists listing description,
    listing ∈ rows df
    /\ le_str (lit "2025-02-04") (at_label listing "added_dt") = Ok true
    /\ lt_num 100 (at_label listing "additional_fees") = Ok true
    /\ at_label listing "adv_description" = Str description
    /\ at_label r "filtered_description" = Str (filter_lines description)
    /\ filter_lines description ≠ [].
Proof.
  unfold llm_listings.
  destruct (llm_recent_cheap df) as [df1|] eqn:E1; [simpl|done].
  destruct (project llm_columns df1) as [df2|] eqn:E2; [simpl|done].
  destruct (llm_filtered df2) as [df3|] eqn:E3; [simpl|done].
  unfold llm_nonempty.
  destruct (getcol "filtered_description" df3) as [fd|] eqn:E4; [simpl|done].
  apply getcol_Ok in E4 as [_ ->]. intros [= <-]. simpl.
  rewrite <- list_fmap_compose, select_rows_fmap.
  intros [Hr3 Hne]%list_elem_of_In%filter_In. apply list_elem_of_In in Hr3.
  simpl in Hne.
  unfold llm_filtered in E3.
  destruct (getcol "adv_description" df2) as [adv|] eqn:E5; [simpl in E3|done].
  apply getcol_Ok in E5 as [_ ->].
  destruct (traverse filter_lines_of _) as [filtered|] eqn:E6; [simpl in E3|done].
  apply traverse_Ok, Forall2_fmap_l in E6.
  unfold setcol in E3. destruct (_ =? _); [|done]. injection E3 as <-.
  simpl in Hr3.
  apply (elem_of_zip_with_Forall2 _ _ _ _ _ E6) in Hr3
    as (r2 & c & Hr2 & Hc & ->).
  unfold project in E2. destruct (forallb _ _); [|done]. injection E2 as <-.
  simpl in Hr2. apply list_elem_of_fmap in Hr2 as (r1 & -> & Hr1).
  destruct (llm_recent_cheap_Ok _ _ _ E1 Hr1) as (Hin & Hrecent & Hcheap).
  assert (at_label (filter (fun kv : string * cell => kv.1 ∈ llm_columns) r1)
                   "adv_description"
          = at_label r1 "adv_description") as Hadv.
  { unfold at_label. destruct (r1 !! "adv_description") as [v|] eqn:Ev.
    - erewrite map_lookup_filter_Some_2; [done..|].
      unfold llm_columns. simpl. set_solver.
    - by rewrite map_lookup_filter_None_2; [|left]. }
  simpl in Hc. rewrite Hadv in Hc. unfold filter_lines_of in Hc.
  destruct (at_label r1 "adv_description") as [| | |description] eqn:Ed;
    try done.
  injection Hc as <-. exists r1, description.
  unfold at_label in Hne |- *. rewrite lookup_insert_eq in Hne |- *. simpl in *.
  split_and!; try done. intros Hempty. rewrite Hempty in Hne.
  by rewrite bool_decide_eq_true_2 in Hne.
Qed.
End Listings.

Section Asking.
Context `{Datakit} `{Builtins} `{Assistant}.
Import Py.

(** The requests of cell 11 carry texts of the column it is applied to. *)
Lemma apply_query_quiet (l0 l : list cell) :
  (forall x, x ∈ l -> x ∈ l0) ->
  quiet (fun _ e => forall text, e = Query text ->
                    exists x, x ∈ l0 /\ text = prompt_text x)
        (apply_M query_llm l).
Proof.
  induction l as [|x l IH]; intros Hsub; simpl.
  - intros w. split; [done|]. exists []. by rewrite app_nil_r.
  - apply quiet_bind; [|intros y; apply quiet_bind; [|intros ys]].
    + intros w. unfold query_llm, emit, lift, mbind, M_bind. simpl.
      destruct (completion (prompt_text x)); simpl; (split; [done|]);
        exists [Query (prompt_text x)]; (split; [done|]); constructor;
        try done; intros t [= <-]; exists x; (split; [apply Hsub; left | done]).
    + apply IH. intros x' Hx'. apply Hsub. by right.
    + intros w. split; [done|]. exists []. by rewrite app_nil_r.
Qed.

Lemma llm_tail_logs df :
  logs (fun _ e => forall text, e = Query text ->
                   exists fd x, getcol "filtered_description" df = Ok fd
                                /\ x ∈ fd /\ text = prompt_text x)
       (df ← llm_ask df; df ← lift (llm_fees df); to_csv llm_output_csv df).
Proof.
  apply logs_bind.
  - unfold llm_ask. intros w. unfold lift at 1. unfold mbind at 1, M_bind at 1.
    destruct (getcol "filtered_description" df) as [fd|] eqn:E.
    + assert (quiet (fun _ e => forall text, e = Query text ->
                                exists fd' x, Ok fd = Ok fd' /\ x ∈ fd'
                                              /\ text = prompt_text x)
                (llm_output ← apply_M query_llm fd;
                 lift (setcol "llm_output" llm_output df))) as Hq; [|apply Hq].
      apply quiet_bind; [|intros ?; apply quiet_lift].
      intros w'. destruct (apply_query_quiet fd fd (fun x Hx => Hx) w')
        as (Hf & evs & Hlog & Hall).
      split; [done|]. exists evs. split; [done|].
      eapply Forall_impl; [exact Hall|]. intros e He text ->.
      destruct (He text eq_refl) as (x & Hx & ->). by exists fd, x.
    + split; [done|]. exists []. by rewrite app_nil_r.
  - intros df'. apply logs_bind; [apply quiet_lift|]. intros df'' w.
    eexists. split; [done|]. repeat constructor. by intros ? [=].
Qed.

Lemma llm_load_Ok w main w1 :
  llm_load w = (Ok main, w1) ->
  exists raw deduplicated,
    files w !! main_csv = Some raw
    /\ deduplicate_main raw = Ok deduplicated
    /\ transform_data deduplicated true 1 28 false = Ok main.
Proof.
  unfold llm_load.
  intros (raw & w2 & (Hraw & _)%read_csv_Ok & Hrun)%bind_M_Ok.
  apply bind_M_Ok in Hrun as (dedup & w3 & (Hdedup & _)%call_Ok & Hrun).
  apply call_Ok in Hrun as (Hmain & _). by exists raw, dedup.
Qed.

Lemma llm_load_quiet : quiet (fun _ e => forall text, e ≠ Query text) llm_load.
Proof.
  unfold llm_load.
  repeat first
    [ apply quiet_read; by intros ? ? [=]
    | apply quiet_call; by intros ? ? [=]
    | apply quiet_bind; [|intros ?] ].
Qed.
End Asking.

(** C7. The language model is asked only about listings that satisfy all
    three conditions: added_dt is at most '2025-02-04', the listed
    additional_fees are strictly below 100, and the number-bearing lines of
    the description (its filtered_description) are not empty; the text sent
    is that filtered_description, and no other listing is sent. *)
Theorem model_sees_old_cheap_numbered_listings_only
    `{Datakit} `{Builtins} `{Assistant} (w : world) (text : Py.str) :
  Query text ∈ log (llm_notebook w).2 ->
  Query text ∉ log w ->
  exists raw deduplicated main listing description,
    files w !! main_csv = Some raw
    /\ deduplicate_main raw = Ok deduplicated
    /\ transform_data deduplicated true 1 28 false = Ok main
    /\ listing ∈ rows main
    /\ le_str (Py.lit "2025-02-04") (at_label listing "added_dt") = Ok true
    /\ lt_num 100 (at_label listing "additional_fees") = Ok true
    /\ at_label listing "adv_description" = Str description
    /\ text = filter_lines description
    /\ text ≠ [].
Proof.
  intros Hin Hnot. unfold llm_notebook in Hin.
  unfold mbind at 1, M_bind at 1 in Hin.
  destruct (llm_load_quiet w) as (_ & evs1 & Hlog1 & Hall1).
  destruct (llm_load w) as [[main|e] w1] eqn:Eload; simpl in Hlog1.
  2:{ exfalso. simpl in Hin. rewrite Hlog1 in Hin.
      apply elem_of_app in Hin as [Hin|Hin]; [done|].
      rewrite Forall_forall in Hall1. by apply (Hall1 _ Hin text). }
  apply llm_load_Ok in Eload as (raw & dedup & Hraw & Hdedup & Hmain).
  assert (Query text ∉ log w1) as Hnot1.
  { rewrite Hlog1. intros [Hq|Hq]%elem_of_app; [done|].
    rewrite Forall_forall in Hall1. by apply (Hall1 _ Hq text). }
  unfold mbind at 1, M_bind at 1, lift at 1 in Hin.
  destruct (llm_listings main) as [df|] eqn:Elist; [|done].
  destruct (llm_tail_logs df w1) as (evs & Hlog & Hall).
  rewrite Hlog in Hin. apply elem_of_app in Hin as [Hin|Hin]; [done|].
  rewrite Forall_forall in Hall.
  destruct (Hall _ Hin text eq_refl) as (fd & x & Hfd & Hcell & ->).
  apply getcol_Ok in Hfd as [_ ->].
  apply list_elem_of_fmap in Hcell as (r & -> & Hrin).
  destruct (llm_listings_Ok _ _ _ Elist Hrin)
    as (listing & description & Hl & Hrecent & Hcheap & Hadv & Hfd & Hne).
  rewrite Hfd. simpl.
  by exists raw, dedup, main, listing, description.
Qed.

Lemma model_sees_old_cheap_numbered_listings_only_witness :
  let text := Py.lit "Czynsz administracyjny 650 zl" in
  exists raw deduplicated main listing description,
    files sample_world !! main_csv = Some raw
    /\ @deduplicate_main sample_datakit raw = Ok deduplicated
    /\ @transform_data sample_datakit deduplicated true 1 28 false = Ok main
    /\ listing ∈ rows main
    /\ le_str (Py.lit "2025-02-04") (at_label listing "added_dt") = Ok true
    /\ lt_num 100 (at_label listing "additional_fees") = Ok true
    /\ at_label listing "adv_description" = Str description
    /\ text = filter_lines description
    /\ text ≠ [].
Proof.
  intros text.
  apply (@model_sees_old_cheap_numbered_listings_only
           sample_datakit sample_builtins sample_assistant sample_world text).
  - apply list_elem_of_lookup. exists 3. vm_compute. reflexivity.
  - apply not_elem_of_nil.
Defined.

(** Of the four sample listings only the first is sent: the second names no
    number, the third is too recent, the fourth lists its fees. The model's
    answer gives it 650 of real fees. *)
Example llm_notebook_sample :
  let run := @llm_notebook sample_datakit sample_builtins sample_assistant
               sample_world in
  run.1 = Ok tt
  /\ log run.2 !! 3 = Some (Query (Py.lit "Czynsz administracyjny 650 zl"))
  /\ step_of <$> log run.2
     = [Reads main_csv; Calls "deduplicate_main"; Calls "transform_data"; Asks;
        Writes llm_output_csv]
  /\ (fun df => (fun r => at_label r "real_additional_fees") <$> rows df)
       <$> files run.2 !! llm_output_csv
     = Some [Num 650].
Proof. vm_compute. done. Qed.
(** ** The line filter and the sum, together *)

Section Digits.
Import Py Re.

Lemma matches_digit u : matches digit u -> exists a, u = [a] /\ is_digit a = true.
Proof. inversion 1; subst. by eexists. Qed.

Lemma matches_three_digits u :
  matches (times 3 digit) u ->
  exists a b c, u = [a; b; c]
                /\ is_digit a = true /\ is_digit b = true /\ is_digit c = true.
Proof.
  simpl. intros H.
  inversion H as [| |? ? u1 v1 H1 H1'| | | | |]; subst.
  inversion H1' as [| |? ? u2 v2 H2 H2'| | | | |]; subst.
  inversion H2' as [| |? ? u3 v3 H3 H3'| | | | |]; subst.
  inversion H3'; subst.
  apply matches_digit in H1 as (a & -> & Ha).
  apply matches_digit in H2 as (b & -> & Hb).
  apply matches_digit in H3 as (c & -> & Hc).
  by exists a, b, c.
Qed.

Lemma three_digits_matches a b c :
  is_digit a = true -> is_digit b = true -> is_digit c = true ->
  matches (times 3 digit) [a; b; c].
Proof.
  intros Ha Hb Hc. simpl.
  apply (M_cat _ _ [a] [b; c]); [by constructor|].
  apply (M_cat _ _ [b] [c]); [by constructor|].
  apply (M_cat _ _ [c] []); [by constructor | constructor].
Qed.

Lemma three_digits_inside pre m post :
  three_digits m -> three_digits (pre ++ m ++ post).
Proof.
  intros (pre' & a & b & c & post' & -> & Hd).
  exists (pre ++ pre'), a, b, c, (post' ++ post). split; [|done].
  by rewrite <- !app_assoc.
Qed.

(** Whatever the number pattern matches holds three digits in a row: in
    the first alternative they follow the separator. *)
Lemma pattern_numbers_three_digits m :
  matches pattern_numbers m -> three_digits m.
Proof.
  unfold pattern_numbers. intros H.
  inversion H as [| | | | | | |? ? Halt]; subst.
  inversion Halt as [| | |? ? ? H1|? ? ? H2| | |]; subst.
  - inversion H1 as [| |? ? u v Hu Hv| | | | |]; subst.
    unfold Plus in Hv.
    inversion Hv as [| |? ? x y Hx Hy| | | | |]; subst.
    inversion Hx as [| |? ? s d Hs Hd| | | | |]; subst.
    apply matches_three_digits in Hd as (a & b & c & -> & Ha & Hb & Hc).
    exists (u ++ s), a, b, c, y. split; [|done].
    by rewrite <- !app_assoc.
  - inversion H2 as [| |? ? u v Hu Hv| | | | |]; subst.
    apply matches_three_digits in Hu as (a & b & c & -> & Ha & Hb & Hc).
    by exists [], a, b, c, v.
Qed.

Lemma pattern_fees_three_digits m :
  matches pattern_fees m -> three_digits m.
Proof.
  unfold pattern_fees. intros H.
  inversion H as [| | | | | | |? ? Hcat]; subst.
  inversion Hcat as [| |? ? u v Hu Hv| | | | |]; subst.
  apply matches_three_digits in Hu as (a & b & c & -> & Ha & Hb & Hc).
  by exists [], a, b, c, v.
Qed.

Lemma contains_numbers_three_digits s :
  contains_match pattern_numbers s <-> three_digits s.
Proof.
  split.
  - intros (pre & m & post & -> & Hm).
    by apply three_digits_inside, pattern_numbers_three_digits.
  - intros (pre & a & b & c & post & -> & Ha & Hb & Hc).
    exists pre, [a; b; c], post. split; [done|].
    unfold pattern_numbers. apply M_group, M_alt_r.
    apply (M_cat _ _ [a; b; c] []); [by apply three_digits_matches|].
    constructor.
Qed.

Lemma contains_fees_three_digits s :
  contains_match pattern_fees s <-> three_digits s.
Proof.
  split.
  - intros (pre & m & post & -> & Hm).
    by apply three_digits_inside, pattern_fees_three_digits.
  - intros (pre & a & b & c & post & -> & Ha & Hb & Hc).
    exists pre, [a; b; c], post. split; [done|].
    unfold pattern_fees. apply M_group.
    apply (M_cat _ _ [a; b; c] []); [by apply three_digits_matches|].
    constructor.
Qed.

(** The test of [filter_lines] on a line. *)
Local Abbreviation keeps line := (truthy (search pattern_numbers line)).

Lemma keeps_three_digits line : keeps line = true <-> three_digits line.
Proof.
  unfold search. rewrite search_truthy. apply contains_numbers_three_digits.
Qed.

Lemma fees_three_digits line :
  truthy (search pattern_fees line) = true <-> three_digits line.
Proof.
  unfold search. rewrite search_truthy. apply contains_fees_three_digits.
Qed.
End Digits.

Section Runs.
Import Py Re.

Local Abbreviation keeps line := (truthy (search pattern_numbers line)).

Lemma digit_runs_skip c t : is_digit c = false -> digit_runs (c :: t) = digit_runs t.
Proof. intros Hc. simpl. by rewrite Hc. Qed.

(** A character that is no digit separates the runs on its two sides. *)
Lemma digit_runs_app a c b :
  is_digit c = false -> digit_runs (a ++ c :: b) = digit_runs a ++ digit_runs b.
Proof.
  intros Hc. induction a as [|x a IH].
  - by apply digit_runs_skip.
  - destruct (is_digit x) eqn:Hx.
    2:{ rewrite <- app_comm_cons, !digit_runs_skip by done. exact IH. }
    destruct a as [|d a].
    + change ([x] ++ c :: b) with (x :: c :: b).
      rewrite digit_runs_step, Hx, Hc, digit_runs_skip by done.
      simpl. by rewrite Hx.
    + change ((x :: d :: a) ++ c :: b) with (x :: d :: (a ++ c :: b)).
      change ((d :: a) ++ c :: b) with (d :: (a ++ c :: b)) in IH.
      rewrite !digit_runs_step, Hx, IH.
      destruct (is_digit d) eqn:Hd; [|done].
      rewrite (digit_runs_cons a d Hd). done.
Qed.

Lemma long_runs_app a c b :
  is_digit c = false -> long_runs (a ++ c :: b) = long_runs a ++ long_runs b.
Proof.
  intros Hc. unfold long_runs. by rewrite digit_runs_app, List.filter_app.
Qed.

Lemma newline_no_digit : is_digit NL = false.
Proof. vm_compute. reflexivity. Qed.

Lemma join_cons sep l ls :
  ls <> [] -> join [sep] (l :: ls) = l ++ sep :: join [sep] ls.
Proof. by destruct ls. Qed.

Lemma long_runs_join ls :
  long_runs (join [NL] ls) = concat (long_runs <$> ls).
Proof.
  induction ls as [|l ls IH]; [done|].
  destruct ls as [|l2 ls].
  - simpl. by rewrite app_nil_r.
  - rewrite join_cons by done.
    rewrite long_runs_app by apply newline_no_digit. by rewrite IH.
Qed.

(** Splitting at a character and joining with it gives the text back. *)
Lemma join_split sep s : join [sep] (split sep s) = s.
Proof.
  induction s as [|c t IH]; [done|]. simpl.
  destruct (N.eqb_spec c sep) as [->|Hne].
  - rewrite join_cons by apply split_nonempty. simpl. by rewrite IH.
  - pose proof (split_nonempty sep t) as Hs.
    destruct (split sep t) as [|l ls]; [done|].
    destruct ls as [|l2 ls]; simpl in *; by rewrite <- IH.
Qed.

(** A text has a run of three or more digits exactly when it holds three
    digits in a row. *)
Lemma long_runs_three_digits s : long_runs s <> [] <-> three_digits s.
Proof.
  split.
  - induction s as [|c t IH]; [done|]. intros Hne.
    destruct (Nat.lt_ge_cases (length (take_while is_digit (c :: t))) 3)
      as [Hlt|Hge].
    + rewrite long_runs_tail in Hne by done.
      destruct (IH Hne) as (pre & x & y & z & post & -> & Hd).
      by exists (c :: pre), x, y, z, post.
    + pose proof (take_drop_while is_digit (c :: t)) as Heq.
      assert (Forall (fun x => is_digit x = true) (take_while is_digit (c :: t)))
        as Hall.
      { clear. induction (c :: t) as [|x l IH]; simpl; [constructor|].
        destruct (is_digit x) eqn:E; by constructor. }
      destruct (take_while is_digit (c :: t)) as [|x [|y [|z r]]];
        simpl in Hge; try lia.
      inversion Hall as [|? ? Hx Hall1]; subst.
      inversion Hall1 as [|? ? Hy Hall2]; subst.
      inversion Hall2 as [|? ? Hz _]; subst.
      exists [], x, y, z, (r ++ drop_while is_digit (c :: t)).
      split; [symmetry; exact Heq | done].
  - intros (pre & x & y & z & post & -> & Hx & Hy & Hz).
    induction pre as [|c pre IH].
    + rewrite long_runs_head; [done|]. simpl. rewrite Hx, Hy, Hz. simpl. lia.
    + simpl.
      destruct (Nat.lt_ge_cases
                  (length (take_while is_digit (c :: pre ++ x :: y :: z :: post))) 3)
        as [Hlt|Hge].
      * by rewrite long_runs_tail.
      * by rewrite long_runs_head.
Qed.

Lemma long_runs_none s : long_runs s = [] <-> ~ three_digits s.
Proof.
  rewrite <- long_runs_three_digits. destruct (long_runs s); split.
  - by intros _ Hn.
  - done.
  - done.
  - intros Hn. by destruct Hn.
Qed.

Lemma keeps_false line : keeps line = false -> long_runs line = [].
Proof.
  intros Hk. apply long_runs_none. intros Ht%keeps_three_digits. congruence.
Qed.

Lemma long_runs_kept ls :
  concat (long_runs <$> List.filter (fun l => keeps l) ls)
  = concat (long_runs <$> ls).
Proof.
  induction ls as [|l ls IH]; [done|]. cbn [List.filter].
  destruct (keeps l) eqn:Hk.
  - rewrite !fmap_cons. cbn [concat]. by rewrite IH.
  - rewrite fmap_cons. cbn [concat]. by rewrite (keeps_false l Hk), IH.
Qed.

(** The lines that [filter_lines] drops hold no run that counts. *)
Lemma long_runs_filter_lines text : long_runs (filter_lines text) = long_runs text.
Proof.
  unfold filter_lines. rewrite long_runs_join, long_runs_kept.
  by rewrite <- long_runs_join, join_split.
Qed.

(** [extract_and_sum] is a function of the runs of three or more digits. *)
Lemma extract_and_sum_runs text :
  extract_and_sum text pattern_fees =
    if forallb (fun r => length r <=? int_max_str_digits) (long_runs text)
    then Ok (sum_Z (decimal_value <$> long_runs text))
    else Raise ValueError.
Proof.
  unfold extract_and_sum. rewrite findall_fees.
  rewrite sum_matches_digits by apply long_runs_digits.
  destruct (forallb _ _); [|done]. f_equal.
Qed.

Lemma sum_Z_app a b : sum_Z (a ++ b) = (sum_Z a + sum_Z b)%Z.
Proof.
  induction a as [|x a IH]; [done|].
  change (x + sum_Z (a ++ b) = x + sum_Z a + sum_Z b)%Z. lia.
Qed.
End Runs.

Section Lines.
Import Py Re.

Local Abbreviation keeps line := (truthy (search pattern_numbers line)).

Lemma sublist_join_filter (f : list N -> bool) sep ls :
  sublist (join [sep] (List.filter f ls)) (join [sep] ls).
Proof.
  induction ls as [|l ls IH]; [done|]. cbn [List.filter].
  destruct ls as [|l2 ls].
  - destruct (f l); simpl; [done | apply sublist_nil_l].
  - rewrite (join_cons sep l (l2 :: ls)) by done.
    destruct (f l).
    + destruct (List.filter f (l2 :: ls)) as [|k ks] eqn:E.
      * simpl. by apply sublist_inserts_r.
      * rewrite join_cons by done.
        apply sublist_app; [done|]. by apply sublist_skip.
    + apply sublist_inserts_l. by apply sublist_cons.
Qed.

Lemma filter_all {A} (f : A -> bool) (ls : list A) :
  List.filter f ls = ls <-> Forall (fun x => f x = true) ls.
Proof.
  split.
  - intros Heq. apply Forall_forall. intros x Hx. rewrite <- Heq in Hx.
    by apply list_elem_of_In, filter_In in Hx as [_ Hx].
  - induction 1 as [|x ls Hx _ IH]; simpl; [done|]. by rewrite Hx, IH.
Qed.

Lemma filter_none {A} (f : A -> bool) (ls : list A) :
  List.filter f ls = [] <-> Forall (fun x => f x = false) ls.
Proof.
  induction ls as [|x ls IH]; simpl; [by split|].
  destruct (f x) eqn:Hx; split.
  - done.
  - intros Hall. inversion Hall; congruence.
  - intros Hnil. constructor; [done | by apply IH].
  - intros Hall. apply IH. by inversion Hall.
Qed.

Lemma filter_ext_elem {A} (f g : A -> bool) (l : list A) :
  (forall x, x ∈ l -> f x = g x) -> List.filter f l = List.filter g l.
Proof.
  intros Hfg. apply List.filter_ext_in. intros x Hx. by apply Hfg, list_elem_of_In.
Qed.

Lemma join_kept_nil ls :
  join [NL] (List.filter (fun l => keeps l) ls) = []
  <-> List.filter (fun l => keeps l) ls = [].
Proof.
  split; [|by intros ->].
  destruct (List.filter _ ls) as [|k ks] eqn:E; [done|]. intros Hnil.
  assert (keeps k = true) as Hk.
  { assert (k ∈ List.filter (fun l => keeps l) ls) as Hin by (rewrite E; left).
    by apply list_elem_of_In, filter_In in Hin as [_ Hin]. }
  apply keeps_three_digits in Hk as (pre & a & b & c & post & -> & _).
  destruct ks as [|k2 ks].
  - simpl in Hnil. by destruct pre.
  - rewrite join_cons in Hnil by done. by destruct pre.
Qed.
End Lines.

(** X1. A line passes the test of [filter_lines], the search for the number
    pattern of cell 5, exactly when it holds three decimal digits in a row:
    what the first alternative of the pattern matches, digits with
    thousands separators, holds three digits in a row as well. *)
Theorem number_search_finds_three_digits (line : Py.str) :
  truthy (Re.search Re.pattern_numbers line) = true <-> three_digits line.
Proof. apply keeps_three_digits. Qed.

(** X2. [filter_lines] reads the global [pattern], which cell 25 binds anew.
    It returns the same text whichever of the two patterns the global
    holds when it is called: running cell 5 again after cell 25 changes
    nothing. *)
Theorem filter_lines_under_either_pattern (text : Py.str) :
  filter_lines_with Re.pattern_numbers text = filter_lines text
  /\ filter_lines_with Re.pattern_fees text = filter_lines text.
Proof.
  split; [reflexivity|]. unfold filter_lines_with, filter_lines. f_equal.
  apply filter_ext_elem. intros line _.
  destruct (truthy (Re.search Re.pattern_numbers line)) eqn:Hk.
  - by apply fees_three_digits, keeps_three_digits.
  - destruct (truthy (Re.search Re.pattern_fees line)) eqn:Hf; [|done].
    apply fees_three_digits, keeps_three_digits in Hf. congruence.
Qed.

(** X3. [filter_lines] returns the empty text exactly for a text that holds
    no three decimal digits in a row: these are the descriptions that the
    test against the empty text in cell 6 removes. *)
Theorem filter_lines_empty_without_three_digits (text : Py.str) :
  filter_lines text = [] <-> ~ three_digits text.
Proof.
  rewrite <- long_runs_none. split.
  - intros Hnil. by rewrite <- long_runs_filter_lines, Hnil.
  - intros Hnone. unfold filter_lines. apply join_kept_nil, filter_none.
    rewrite <- (join_split Py.NL text), long_runs_join in Hnone.
    apply Forall_forall. intros line Hline.
    destruct (truthy _) eqn:Hk; [|done].
    apply keeps_three_digits, long_runs_three_digits in Hk.
    destruct (long_runs line) as [|r rs] eqn:Hr; [done|].
    apply list_elem_of_In, in_split in Hline as (l1 & l2 & Hsplit).
    rewrite Hsplit, fmap_app, fmap_cons, concat_app in Hnone.
    cbn [concat] in Hnone. rewrite Hr in Hnone.
    by destruct (concat (long_runs <$> l1)).
Qed.

(** X4. [filter_lines] only leaves out: what it returns is the text with some
    of its characters removed, none added and none moved. *)
Theorem filter_lines_only_removes (text : Py.str) :
  sublist (filter_lines text) text.
Proof.
  unfold filter_lines. rewrite <- (join_split Py.NL text) at 2.
  apply sublist_join_filter.
Qed.

(** X5. [filter_lines] returns a text as it is exactly when the text is empty
    or every one of its lines holds three digits in a row. With the
    idempotence, these are the texts that [filter_lines] can return. *)
Theorem filter_lines_fixed_points (text : Py.str) :
  filter_lines text = text
  <-> text = [] \/ Forall three_digits (Py.split Py.NL text).
Proof.
  unfold filter_lines. split.
  - intros Heq. destruct text as [|c t]; [by left|]. right.
    set (text := c :: t) in *.
    destruct (List.filter _ (Py.split Py.NL text)) as [|k ks] eqn:E; [done|].
    assert (Py.split Py.NL text = k :: ks) as Hlines.
    { rewrite <- Heq at 1. apply split_join; [done|].
      rewrite <- E. apply filter_Forall, split_no_sep. }
    rewrite Hlines in E. apply filter_all in E. rewrite Hlines.
    eapply Forall_impl; [exact E|]. intros l Hl. by apply keeps_three_digits.
  - intros [->|Hall]; [done|].
    assert (List.filter (fun line => truthy (Re.search Re.pattern_numbers line))
              (Py.split Py.NL text) = Py.split Py.NL text) as ->.
    { apply filter_all. eapply Forall_impl; [exact Hall|].
      intros l Hl. by apply keeps_three_digits. }
    apply join_split.
Qed.

(** X6. The line filter loses nothing that the sum of the fees counts:
    [extract_and_sum] with the fees pattern gives the same on the filtered
    text as on the text itself, the same sum or the same exception. *)
Theorem filter_lines_keeps_the_sum (text : Py.str) :
  extract_and_sum (filter_lines text) Re.pattern_fees
  = extract_and_sum text Re.pattern_fees.
Proof. by rewrite !extract_and_sum_runs, long_runs_filter_lines. Qed.

(** X7. A character that is no digit separates what [extract_and_sum] counts:
    the sum over the whole text is the sum over the part before it plus the
    sum over the part after it, and the whole raises exactly when one part
    does. So the digits on the two sides of a thousands separator, a blank
    or a newline are never read as one number. *)
Theorem extract_and_sum_splits_at_non_digit (before after : Py.str) (c : N) :
  Py.is_digit c = false ->
  extract_and_sum (before ++ c :: after) Re.pattern_fees
  = (a ← extract_and_sum before Re.pattern_fees;
     b ← extract_and_sum after Re.pattern_fees;
     Ok (a + b)%Z).
Proof.
  intros Hc. rewrite !extract_and_sum_runs, long_runs_app by done.
  rewrite forallb_app, fmap_app, sum_Z_app.
  destruct (forallb _ (long_runs before)); [|done]. simpl.
  by destruct (forallb _ (long_runs after)).
Qed.

Lemma extract_and_sum_splits_at_non_digit_witness :
  extract_and_sum (Py.lit "czynsz 650" ++ Py.COMMA :: Py.lit " media 1.200")
                  Re.pattern_fees
  = (a ← extract_and_sum (Py.lit "czynsz 650") Re.pattern_fees;
     b ← extract_and_sum (Py.lit " media 1.200") Re.pattern_fees;
     Ok (a + b)%Z).
Proof.
  apply (extract_and_sum_splits_at_non_digit
           (Py.lit "czynsz 650") (Py.lit " media 1.200") Py.COMMA).
  vm_compute. reflexivity.
Defined.

(** The thousands separator in the model's answer: 1.200 counts as 200. *)
Example extract_and_sum_separator_sample :
  extract_and_sum (Py.lit "czynsz 650, media 1.200") Re.pattern_fees = Ok 850%Z.
Proof. vm_compute. reflexivity. Qed.

(** ** The dates of cell 3 *)

Section Dates.
Import Py.

(** Texts are compared in the order of the dictionary, by code points. *)
Lemma str_le_lexicographic a b : str_le a b = true <-> lexicographic a b.
Proof.
  unfold lexicographic. revert b. induction a as [|x a IH]; intros b.
  - simpl. split; [intros _; left; by exists b | done].
  - destruct b as [|y b]; simpl.
    + split; [done|]. intros [[rest Hr]|(p & ? & ? & ? & ? & _ & Hb & _)];
        [done | by destruct p].
    + destruct (N.ltb_spec x y) as [Hlt|Hge].
      * split; [intros _|done]. right. by exists [], x, y, a, b.
      * destruct (N.eqb_spec x y) as [->|Hne].
        -- rewrite IH. split.
           ++ intros [[rest ->]|(p & u & v & a' & b' & -> & -> & Huv)].
              ** left. by exists rest.
              ** right. by exists (y :: p), u, v, a', b'.
           ++ intros [[rest Hr]|(p & u & v & a' & b' & Ha & Hb & Huv)].
              ** left. exists rest. by simplify_eq/=.
              ** destruct p as [|c p]; simplify_eq/=; [lia|].
                 right. by exists p, u, v, a', b'.
        -- split; [done|].
           intros [[rest Hr]|(p & u & v & a' & b' & Ha & Hb & Huv)];
             [by simplify_eq/=|].
           destruct p as [|c p]; simplify_eq/=. lia.
Qed.
End Dates.

(** X8. Cell 3 compares added_dt with '2025-02-04' as texts, not as dates: a
    listing passes the test exactly when its added_dt is a beginning of
    that text or differs from it first at a smaller character. So a text
    that goes on after '2025-02-04', say with the time of the day, does
    not pass: the listings of that day are left out then. *)
Theorem added_dt_is_compared_as_text (added_dt : Py.str) :
  (le_str cutoff (Str added_dt) = Ok true <-> lexicographic added_dt cutoff)
  /\ (forall c rest, le_str cutoff (Str (cutoff ++ c :: rest)) = Ok false).
Proof.
  split.
  - simpl. rewrite <- str_le_lexicographic.
    split; [by intros [= ->] | by intros ->].
  - intros c rest. reflexivity.
Qed.

(** ** Runs on the sample files *)

Section Samples.

Lemma result_value {A} (d : A) (r : result A) :
  (match r with Ok _ => true | Raise _ => false end) = true ->
  r = Ok (value d r).
Proof. destruct r; simpl; [done | discriminate]. Qed.

Lemma option_value {A} (d : A) (o : option A) :
  (match o with Some _ => true | None => false end) = true ->
  o = Some (default d o).
Proof. destruct o; simpl; [done | discriminate]. Qed.

Lemma run_value {A} (d : A) (r : result A * world) :
  (match r.1 with Ok _ => true | Raise _ => false end) = true ->
  r = (Ok (value d r.1), r.2).
Proof. destruct r as [[a|e] w]; simpl; [done | discriminate]. Qed.

Lemma run_done (r : result unit * world) : r.1 = Ok tt -> r = (Ok tt, r.2).
Proof. destruct r as [[[]|e] w]; simpl; [done | discriminate]. Qed.

(** The two notebooks run to their end on the sample files. *)
Lemma llm_sample_run :
  let run := @llm_notebook sample_datakit sample_builtins sample_assistant
               sample_world in
  run = (Ok tt, run.2).
Proof. intros run. apply run_done. vm_compute. reflexivity. Qed.

Lemma preparation_sample_run :
  let run := @preparation_notebook sample_datakit sample_builtins sample_world in
  run = (Ok tt, run.2).
Proof. intros run. apply run_done. vm_compute. reflexivity. Qed.

(** The sample tables. *)
Lemma sample_classes_unique : links_unique sample_classes.
Proof.
  intros [|[|[|i]]] [|[|[|j]]] a b; simpl; try done;
    intros [= <-] [= <-]; vm_compute; done.
Qed.

Lemma sample_texts :
  links_are_texts sample_main /\ links_are_texts sample_classes.
Proof. split; repeat constructor; by eexists. Qed.

Lemma sample_shared c :
  c ∈ columns sample_classes ->
  c ∈ columns sample_main \/ c ∈ enriched_columns -> c = "link".
Proof.
  intros [->|Hc]%elem_of_cons; [done|].
  apply list_elem_of_singleton in Hc as ->. intros [Hc|Hc]; exfalso.
  - repeat (apply elem_of_cons in Hc as [Hc|Hc]; [discriminate|]).
    by apply elem_of_nil in Hc.
  - repeat (apply elem_of_cons in Hc as [Hc|Hc]; [discriminate|]).
    by apply elem_of_nil in Hc.
Qed.
End Samples.

(** ** The cells on frames, one by one *)

Section Descriptions.
Import Py.

Lemma traverse_length {A B} (f : A -> result B) (l : list A) (out : list B) :
  traverse f l = Ok out -> length out = length l.
Proof. intros Hf%traverse_Ok. symmetry. by eapply Forall2_length. Qed.

(** [filter_lines] over a column: all cells are texts, or the first that
    is none raises. *)
Lemma traverse_filter_lines (l : list cell) :
  (exists out, traverse filter_lines_of l = Ok out
               /\ Forall (fun c => exists d, c = Str d) l)
  \/ (traverse filter_lines_of l = Raise AttributeError
      /\ exists c, c ∈ l /\ forall d, c <> Str d).
Proof.
  induction l as [|c l IH]; simpl.
  - left. by exists [].
  - destruct c as [| | |d]; simpl;
      try (right; split; [done|]; eexists; split; [left | done]).
    destruct IH as [(out & -> & Hall)|(-> & c & Hc & Hno)]; simpl.
    + left. eexists. split; [done|]. constructor; [by exists d | done].
    + right. split; [done|]. exists c. split; [by right | done].
Qed.
End Descriptions.

(** X9. Cell 5 raises [AttributeError] exactly when the table has the column
    adv_description and one of its rows holds no text there: a listing
    without a description, which has no [split], stops the notebook; it is
    not skipped. *)
Theorem description_that_is_no_text_raises (df : DataFrame) :
  llm_filtered df = Raise AttributeError
  <-> "adv_description" ∈ columns df
      /\ exists r, r ∈ rows df
                   /\ forall d, at_label r "adv_description" <> Str d.
Proof.
  unfold llm_filtered, getcol. case_bool_decide as Hcol; simpl.
  2:{ split; [done | by intros [? _]]. }
  destruct (traverse_filter_lines ((fun r => at_label r "adv_description")
                                     <$> rows df))
    as [(out & Hout & Hall)|(-> & c & Hc & Hno)]; simpl.
  - rewrite Hout. simpl. split.
    + unfold setcol. apply traverse_length in Hout.
      rewrite length_fmap in Hout. rewrite Hout, Nat.eqb_refl. done.
    + intros (_ & r & Hr & Hno). exfalso.
      rewrite Forall_fmap, Forall_forall in Hall.
      destruct (Hall r Hr) as [d Hd]. by apply (Hno d).
  - split; [intros _|done]. split; [done|].
    apply list_elem_of_fmap in Hc as (r & -> & Hr). by exists r.
Qed.

Section Index.
Import Py.

Lemma column_kept (label : string) cols c :
  c ∈ cols ->
  c ∈ (if bool_decide (label ∈ cols) then cols else cols ++ [label]).
Proof. intros Hc. case_bool_decide; [done|]. apply elem_of_app. by left. Qed.

Lemma column_new (label : string) cols c :
  c ∈ (if bool_decide (label ∈ cols) then cols else cols ++ [label]) ->
  c ∈ cols \/ c ∈ [label].
Proof. case_bool_decide; [by left|]. by intros ?%elem_of_app. Qed.

Lemma at_label_insert_ne label c v (r : gmap string cell) :
  label <> c -> at_label (<[label := v]> r) c = at_label r c.
Proof. intros Hne. unfold at_label. by rewrite lookup_insert_ne. Qed.

Lemma at_label_insert_eq label v (r : gmap string cell) :
  at_label (<[label := v]> r) label = v.
Proof. unfold at_label. by rewrite lookup_insert_eq. Qed.

(** An index taken off the rows of a table finds the first row with the
    key. *)
Lemma index_zip_fmap (k v : gmap string cell -> cell) rs c :
  index_has (zip (k <$> rs) (v <$> rs)) c
  = (match List.find (fun fr => cell_eqb (k fr) c) rs with
     | Some _ => true
     | None => false
     end)
  /\ index_get (zip (k <$> rs) (v <$> rs)) c
     = v <$> List.find (fun fr => cell_eqb (k fr) c) rs.
Proof.
  induction rs as [|r rs [IH1 IH2]]; csimpl; [done|].
  destruct (cell_eqb (k r) c); simpl; [done|]. by rewrite IH1, IH2.
Qed.

Lemma set_index_Ok key value source mapper :
  set_index key value source = Ok mapper <->
  key ∈ columns source /\ value ∈ columns source
  /\ mapper = zip ((fun r => at_label r key) <$> rows source)
                  ((fun r => at_label r value) <$> rows source).
Proof.
  unfold set_index.
  destruct (getcol key source) as [k|] eqn:Hk; simpl.
  - apply getcol_Ok in Hk as [Hkey ->].
    destruct (getcol value source) as [v|] eqn:Hv; simpl.
    + apply getcol_Ok in Hv as [Hvalue ->].
      split; [by intros [= <-] | by intros (_ & _ & ->)].
    + split; [done|]. intros (_ & Hvalue & _). exfalso.
      unfold getcol in Hv. by rewrite bool_decide_eq_true_2 in Hv.
  - split; [done|]. intros (Hkey & _). exfalso.
    unfold getcol in Hk. by rewrite bool_decide_eq_true_2 in Hk.
Qed.

(** One masked assignment from a Series taken off [source]. *)
Lemma update_from_index key label value source mapper df df' :
  set_index key value source = Ok mapper ->
  update_from key label mapper df = Ok df' ->
  columns df' = (if bool_decide (label ∈ columns df) then columns df
                 else columns df ++ [label])
  /\ rows df' =
     (fun r => <[label := match first_with key (at_label r key) source with
                          | Some fr => at_label fr value
                          | None => at_label r label
                          end]> r) <$> rows df.
Proof.
  intros (_ & _ & ->)%set_index_Ok (_ & _ & ->)%update_from_Ok.
  split; [done|]. cbn [rows]. apply list_fmap_ext. intros _ r _.
  destruct (index_zip_fmap (fun r => at_label r key) (fun r => at_label r value)
              (rows source) (at_label r key)) as [-> ->].
  unfold first_with. by destruct (List.find _ _).
Qed.

Lemma cell_eqb_sym a b : cell_eqb a b = cell_eqb b a.
Proof.
  assert (forall x y, Qeq_bool x y = Qeq_bool y x) as HQ.
  { intros x y. destruct (Qeq_bool x y) eqn:E1, (Qeq_bool y x) eqn:E2; try done.
    - apply Qeq_bool_iff in E1. symmetry in E1. apply Qeq_bool_iff in E1.
      congruence.
    - apply Qeq_bool_iff in E2. symmetry in E2. apply Qeq_bool_iff in E2.
      congruence. }
  destruct a as [|x|x|s], b as [|y|y|t]; simpl; try done.
  apply bool_decide_ext. split; congruence.
Qed.

(** Two cells that equal a third one equal each other. *)
Lemma cell_eqb_same a b c :
  cell_eqb a c = true -> cell_eqb b c = true -> cell_eqb a b = true.
Proof.
  assert (forall x y z, Qeq_bool x z = true -> Qeq_bool y z = true ->
                        Qeq_bool x y = true) as HQ.
  { intros x y z H1%Qeq_bool_iff H2%Qeq_bool_iff. apply Qeq_bool_iff.
    by rewrite H1, H2. }
  destruct a as [|x|x|s], b as [|y|y|t], c as [|z|z|u]; simpl; try done;
    try (by apply HQ).
  intros ->%bool_decide_eq_true ->%bool_decide_eq_true.
  by apply bool_decide_eq_true.
Qed.

(** The index of a Series taken off the rows is unique exactly when no key
    occurs in two rows. *)
Lemma is_unique_keys (k v : gmap string cell -> cell) rs :
  is_unique (zip (k <$> rs) (v <$> rs)) = true <->
  (forall i j a b, rs !! i = Some a -> rs !! j = Some b ->
                   cell_eqb (k a) (k b) = true -> i = j).
Proof.
  induction rs as [|r rs IH]; csimpl.
  - split; [|done]. by intros _ i j a b ?.
  - rewrite andb_true_iff, negb_true_iff, IH. split.
    + intros [Hhead Htail] [|i] [|j] a b; simpl.
      * done.
      * intros [= <-] Hb Hab. exfalso.
        assert ((k b, v b) ∈ zip (k <$> rs) (v <$> rs)) as Hin.
        { apply elem_of_zip_fmap. exists b. split; [|done].
          by eapply list_elem_of_lookup_2. }
        rewrite cell_eqb_sym in Hab.
        by rewrite (index_has_false _ _ _ _ Hhead Hin) in Hab.
      * intros Ha [= <-] Hab. exfalso.
        assert ((k a, v a) ∈ zip (k <$> rs) (v <$> rs)) as Hin.
        { apply elem_of_zip_fmap. exists a. split; [|done].
          by eapply list_elem_of_lookup_2. }
        by rewrite (index_has_false _ _ _ _ Hhead Hin) in Hab.
      * intros Ha Hb Hab. f_equal. by eapply Htail.
    + intros Huniq. split.
      * destruct (index_has _ (k r)) eqn:Hhas; [exfalso|done].
        apply index_has_true in Hhas as (k' & v' & Hin & Heq & _).
        apply elem_of_zip_fmap in Hin as (b & Hb & -> & ->).
        apply list_elem_of_lookup in Hb as [j Hj].
        rewrite cell_eqb_sym in Heq.
        by specialize (Huniq 0 (S j) r b eq_refl Hj Heq).
      * intros i j a b Ha Hb Hab.
        by specialize (Huniq (S i) (S j) a b Ha Hb Hab) as [= ->].
Qed.
End Index.

Section Flagged.
Context `{Builtins}.

Lemma located_rows_read (frs : list (gmap string cell)) (las los : list Q) :
  Forall3 located ((fun r => at_label r "maps_herf") <$> frs) las los ->
  Forall2 place_read frs
    (zip_with (fun r c => <["longitude" := c]> r)
       (zip_with (fun r c => <["latitude" := c]> r) frs (Num <$> las))
       (Num <$> los)).
Proof.
  revert las los. induction frs as [|fr frs IH]; intros las los HP;
    inversion HP as [|? la lo ? las' los' Hfr Hrest]; subst; csimpl.
  - constructor.
  - constructor; [by exists la, lo | by apply IH].
Qed.

Lemma misleading_locations_Ok df_locations out :
  misleading_locations df_locations = Ok out ->
  Forall2 place_read (List.filter flagged (rows df_locations)) (rows out).
Proof.
  unfold misleading_locations.
  destruct (getcol "misleading_location" df_locations) as [flags|] eqn:E1;
    [simpl|done].
  apply getcol_Ok in E1 as [_ ->].
  rewrite <- list_fmap_compose.
  unfold mask_rows at 1. unfold getcol at 1. cbn [columns rows].
  case_bool_decide; [simpl|done].
  rewrite (select_rows_fmap (eq_True ∘ (fun r => at_label r "misleading_location"))).
  change (List.filter _ (rows df_locations))
    with (List.filter flagged (rows df_locations)).
  destruct (coordinates _) as [[las los]|] eqn:E2; [simpl|done].
  apply coordinates_Ok in E2.
  destruct (setcol "latitude" _ _) as [df1|] eqn:E3; [simpl|done].
  unfold setcol in E3. cbn [rows columns] in E3.
  destruct (Nat.eqb _ _) in E3; [|done]. injection E3 as <-.
  unfold setcol. cbn [rows columns].
  destruct (Nat.eqb _ _); [|done]. intros [= <-]. cbn [rows].
  by apply located_rows_read.
Qed.
End Flagged.

(** X10. Cell 10 keeps of the table of locations exactly the rows whose
    misleading_location equals [True], in their order, and gives each of
    them the latitude and the longitude read from its maps_herf, the two
    numbers after the first '/@'; every other cell of these rows stays as
    it is. The rows that are not flagged are not read at all. *)
Theorem flagged_rows_get_their_coordinates `{Builtins}
    (df_locations out : DataFrame) :
  misleading_locations df_locations = Ok out ->
  Forall2 place_read (List.filter flagged (rows df_locations)) (rows out).
Proof. apply misleading_locations_Ok. Qed.

Lemma flagged_rows_get_their_coordinates_witness :
  exists out,
    @misleading_locations sample_builtins sample_locations = Ok out
    /\ Forall2 (@place_read sample_builtins)
               (List.filter flagged (rows sample_locations)) (rows out).
Proof.
  assert (@misleading_locations sample_builtins sample_locations = Ok _)
    as Hrun by (apply (result_value sample_locations); vm_compute; reflexivity).
  eexists. split; [exact Hrun|].
  exact (@flagged_rows_get_their_coordinates sample_builtins _ _ Hrun).
Defined.

Section Places.

Lemma correct_locations_Ok df df_locations df' :
  correct_locations df df_locations = Ok df' ->
  Forall2 (place_corrected df_locations) (rows df) (rows df')
  /\ (forall c, c ∈ columns df -> c ∈ columns df').
Proof.
  unfold correct_locations.
  destruct (set_index "link" "latitude" df_locations) as [la|] eqn:Ela;
    [simpl|done].
  destruct (set_index "link" "longitude" df_locations) as [lo|] eqn:Elo;
    [simpl|done].
  destruct (set_index "link" "real_district" df_locations) as [di|] eqn:Edi;
    [simpl|done].
  destruct (update_from "link" "latitude" la df) as [df1|] eqn:E1; [simpl|done].
  destruct (update_from "link" "longitude" lo df1) as [df2|] eqn:E2;
    [simpl|done].
  intros E3.
  destruct (update_from_index _ _ _ _ _ _ _ Ela E1) as [C1 R1].
  destruct (update_from_index _ _ _ _ _ _ _ Elo E2) as [C2 R2].
  destruct (update_from_index _ _ _ _ _ _ _ Edi E3) as [C3 R3].
  split.
  - rewrite R3, R2, R1, <- !list_fmap_compose.
    apply Forall2_fmap_same. intros r _. unfold place_corrected. simpl.
    rewrite !at_label_insert_ne by done.
    split.
    + unfold place_columns. intros c.
      rewrite !not_elem_of_cons. intros (? & ? & ? & _).
      by rewrite !lookup_insert_ne.
    + destruct (first_with "link" (at_label r "link") df_locations).
      * split_and!;
          repeat (rewrite ?lookup_insert_eq, ?lookup_insert_ne by done); done.
      * split_and!;
          repeat (rewrite ?lookup_insert_eq, ?lookup_insert_ne by done); done.
  - intros c Hc. rewrite C3, C2, C1. by do 3 apply column_kept.
Qed.
End Places.

(** X11. Cell 11 changes nothing but the latitude, the longitude and the
    district, and these only in the rows whose link is a link of the table
    of locations: there they become the latitude, the longitude and the
    real_district of the row of that table with this link; in every other
    row they stay as they are (missing where the column is new). *)
Theorem location_correction_changes_listed_links_only
    (df df_locations df' : DataFrame) :
  correct_locations df df_locations = Ok df' ->
  Forall2 (place_corrected df_locations) (rows df) (rows df')
  /\ (forall c, c ∈ columns df -> c ∈ columns df').
Proof. apply correct_locations_Ok. Qed.

Lemma location_correction_changes_listed_links_only_witness :
  exists df_locations df',
    @misleading_locations sample_builtins sample_locations = Ok df_locations
    /\ correct_locations sample_main df_locations = Ok df'
    /\ Forall2 (place_corrected df_locations) (rows sample_main) (rows df')
    /\ (forall c, c ∈ columns sample_main -> c ∈ columns df').
Proof.
  set (df_locations :=
         value sample_locations
           (@misleading_locations sample_builtins sample_locations)).
  assert (@misleading_locations sample_builtins sample_locations
          = Ok df_locations) as Hlocations
    by (apply (result_value sample_locations); vm_compute; reflexivity).
  assert (correct_locations sample_main df_locations = Ok _) as Hrun
    by (apply (result_value sample_main); vm_compute; reflexivity).
  exists df_locations. eexists. split; [exact Hlocations|].
  split; [exact Hrun|].
  exact (location_correction_changes_listed_links_only _ _ _ Hrun).
Defined.

(** The second sample listing is moved to the place of its link. *)
Example location_correction_sample :
  (fun df => (fun r => (at_label r "latitude", at_label r "district"))
             <$> rows df)
    <$> (df_locations ← @misleading_locations sample_builtins sample_locations;
         correct_locations sample_main df_locations)
  = Ok [(Num 1, NaN); (Num (5225 # 100), Str (Py.lit "Srodmiescie"));
        (Num 7, NaN); (Num 8, NaN)].
Proof. vm_compute. reflexivity. Qed.

(** X12. Cell 15 has three outcomes. It raises [KeyError] exactly when one of
    the columns that it reads is missing: link or real_additional_fees in
    the table of the model's output, link in the main table. It raises
    [InvalidIndexError] exactly when these columns are there and a link
    occurs twice in the table of the model's output, whether or not that
    link is a listing of the main table. In every other case it returns. *)
Theorem hidden_fees_outcome (df df_fees : DataFrame) :
  (add_hidden_fees df df_fees = Raise KeyError <-> ~ fee_tables_fit df df_fees)
  /\ (add_hidden_fees df df_fees = Raise InvalidIndexError
      <-> fee_tables_fit df df_fees /\ ~ links_unique df_fees)
  /\ ((exists df', add_hidden_fees df df_fees = Ok df')
      <-> fee_tables_fit df df_fees /\ links_unique df_fees).
Proof.
  unfold add_hidden_fees, fee_tables_fit, links_unique.
  destruct (set_index "link" "real_additional_fees" df_fees) as [m|e] eqn:Em.
  2:{ assert (e = KeyError /\ ~ ("link" ∈ columns df_fees
                                 /\ "real_additional_fees" ∈ columns df_fees))
        as [-> Hnot].
      { unfold set_index, getcol in Em.
        do 2 (case_bool_decide; simpl in Em); try done;
          injection Em as <-; (split; [done|]); by intros [? ?]. }
      simpl. split_and!; split; try done.
      - intros _ (? & ? & _). by apply Hnot.
      - intros [(? & ? & _) _]. by destruct Hnot.
      - by intros [? ?].
      - intros [(? & ? & _) _]. by destruct Hnot. }
  apply set_index_Ok in Em as (H1 & H2 & ->). simpl.
  unfold update_from, map_series, getcol.
  case_bool_decide as H3; simpl.
  2:{ split_and!; split; try done.
      - intros _ (_ & _ & ?). done.
      - intros [(_ & _ & ?) _]. done.
      - by intros [? ?].
      - intros [(_ & _ & ?) _]. done. }
  pose proof (is_unique_keys (fun r => at_label r "link")
                (fun r => at_label r "real_additional_fees") (rows df_fees))
    as Huniq.
  destruct (is_unique _) eqn:Eu; simpl.
  - assert (forall i j a b, rows df_fees !! i = Some a ->
              rows df_fees !! j = Some b ->
              cell_eqb (at_label a "link") (at_label b "link") = true -> i = j)
      as Hu by (by apply Huniq).
    split_and!; split; try done.
    + intros Hnot. by destruct Hnot.
    + intros [_ Hnot]. by destruct Hnot.
    + intros _. by eexists.
  - assert (~ forall i j a b, rows df_fees !! i = Some a ->
              rows df_fees !! j = Some b ->
              cell_eqb (at_label a "link") (at_label b "link") = true -> i = j)
      as Hu.
    { intros Hu. apply Huniq in Hu. done. }
    split_and!; split; try done.
    + intros Hnot. by destruct Hnot.
    + by intros [? ?].
    + by intros [_ ?].
Qed.

(** A link that the model's table holds twice stops the cell, although it
    is no link of the main table. *)
Example hidden_fees_repeated_link_sample :
  add_hidden_fees sample_main
    {| columns := columns sample_fees;
       rows := [ list_to_map [("link", Str (Py.lit "z"));
                              ("real_additional_fees", Num 650)];
                 list_to_map [("link", Str (Py.lit "z"));
                              ("real_additional_fees", Num 700)] ] |}
  = Raise InvalidIndexError.
Proof. vm_compute. reflexivity. Qed.

Section Merge.
Import Py.

(** With unique keys a lookup by filter finds what the first match is. *)
Lemma filter_unique_key (k : gmap string cell -> cell) rs c :
  (forall i j a b, rs !! i = Some a -> rs !! j = Some b ->
                   cell_eqb (k a) (k b) = true -> i = j) ->
  List.filter (fun r => cell_eqb (k r) c) rs
  = option_list (List.find (fun r => cell_eqb (k r) c) rs).
Proof.
  induction rs as [|r rs IH]; intros Huniq; simpl; [done|].
  destruct (cell_eqb (k r) c) eqn:Hr; simpl.
  - f_equal. apply filter_none, Forall_forall. intros b Hb.
    destruct (cell_eqb (k b) c) eqn:Hb'; [|done].
    apply list_elem_of_lookup in Hb as [j Hj].
    by specialize (Huniq 0 (S j) r b eq_refl Hj (cell_eqb_same _ _ _ Hr Hb')).
  - apply IH. intros i j a b Ha Hb Hab.
    by specialize (Huniq (S i) (S j) a b Ha Hb Hab) as [= ->].
Qed.

Lemma lookup_labelled (f : string -> cell) cols c :
  (list_to_map ((fun c => (c, f c)) <$> cols) : gmap string cell) !! c
  = if bool_decide (c ∈ cols) then Some (f c) else None.
Proof.
  induction cols as [|x cols IH]; csimpl.
  - by rewrite lookup_empty.
  - destruct (decide (x = c)) as [->|Hne].
    + rewrite lookup_insert_eq. rewrite bool_decide_eq_true_2; [done | left].
    + rewrite lookup_insert_ne by done. rewrite IH.
      destruct (decide (c ∈ cols)).
      * rewrite !bool_decide_eq_true_2; [done | by right | done].
      * rewrite !bool_decide_eq_false_2; [done | | done].
        intros [->|?]%elem_of_cons; done.
Qed.

Lemma merge_Ok df additional_columns out :
  merge "link" df additional_columns = Ok out ->
  (forall c, c ∈ columns df -> c ∈ columns additional_columns -> c = "link") ->
  links_unique additional_columns ->
  columns out
  = columns df ++ filter (fun c => c ≠ "link") (columns additional_columns)
  /\ Forall2 (classed df additional_columns)
             (List.filter (has_class additional_columns) (rows df)) (rows out).
Proof.
  unfold merge. intros Hm Hshared Huniq.
  destruct (bool_decide ("link" ∈ columns df)
            && bool_decide ("link" ∈ columns additional_columns)); [|done].
  injection Hm as <-. cbn [columns rows].
  set (both := filter (fun c => c ≠ "link" ∧ c ∈ columns additional_columns)
                      (columns df)).
  set (others := filter (fun c => c ≠ "link") (columns additional_columns)).
  assert (forall suffix c, c ∈ columns df ∨ c ∈ others ->
                           suffixed both suffix c = c) as Hsuffix.
  { intros suffix c Hc. unfold suffixed. case_bool_decide as Hboth; [|done].
    exfalso. apply list_elem_of_filter in Hboth as [[Hne Hright] Hleft].
    by apply Hne, Hshared. }
  assert (forall (suffix : string) (f : string -> cell) (cols : list string),
             (forall c, c ∈ cols -> c ∈ columns df ∨ c ∈ others) ->
             (fun c => (suffixed both suffix c, f c)) <$> cols
             = (fun c => (c, f c)) <$> cols) as Hpairs.
  { intros suffix f cols Hcols. apply list_fmap_ext. intros i c Hc.
    rewrite Hsuffix; [done|]. apply Hcols. by eapply list_elem_of_lookup_2. }
  split.
  - f_equal.
    + rewrite <- (list_fmap_id (columns df)) at 2. apply list_fmap_ext.
      intros i c Hc. apply Hsuffix. left. by eapply list_elem_of_lookup_2.
    + rewrite <- (list_fmap_id others) at 2. apply list_fmap_ext.
      intros i c Hc. apply Hsuffix. right. by eapply list_elem_of_lookup_2.
  - induction (rows df) as [|l ls IH]; [constructor|].
    cbn [List.filter]. rewrite bind_cons.
    rewrite (filter_unique_key (fun r => at_label r "link")) by exact Huniq.
    unfold has_class at 1, first_with.
    destruct (List.find _ (rows additional_columns)) as [class|] eqn:Hfind;
      simpl; [|exact IH].
    constructor; [|exact IH].
    exists class. split; [exact Hfind|].
    rewrite !Hpairs by auto.
    split.
    + intros c Hc. rewrite lookup_union_l'.
      * rewrite lookup_labelled. by rewrite bool_decide_eq_true_2.
      * rewrite lookup_labelled. by rewrite bool_decide_eq_true_2.
    + intros c Hc Hne.
      assert (c ∉ columns df) as Hnot by (intros Hin; by apply Hne, Hshared).
      rewrite lookup_union_r.
      * rewrite lookup_labelled. rewrite bool_decide_eq_true_2; [done|].
        by apply list_elem_of_filter.
      * rewrite lookup_labelled. by rewrite bool_decide_eq_false_2.
Qed.

End Merge.

(** X13. Cell 29 is an inner join. When the links of both tables are texts, no
    link occurs twice in the table of classes and the two tables share no
    column but the link, the merged table holds exactly the listings whose
    link has a row in the table of classes, in their order and once each,
    every one with its own cells and the class columns of its link. A
    listing without a class is dropped. *)
Theorem listings_without_class_are_dropped
    (df additional_columns out : DataFrame) :
  merge "link" df additional_columns = Ok out ->
  links_are_texts df -> links_are_texts additional_columns ->
  (forall c, c ∈ columns df -> c ∈ columns additional_columns -> c = "link") ->
  links_unique additional_columns ->
  columns out
  = columns df ++ filter (fun c => c ≠ "link") (columns additional_columns)
  /\ Forall2 (classed df additional_columns)
             (List.filter (has_class additional_columns) (rows df)) (rows out).
Proof. intros Hmerge _ _. by apply merge_Ok. Qed.

Lemma listings_without_class_are_dropped_witness :
  exists out,
    merge "link" sample_main sample_classes = Ok out
    /\ columns out
       = columns sample_main
         ++ filter (fun c => c ≠ "link") (columns sample_classes)
    /\ Forall2 (classed sample_main sample_classes)
               (List.filter (has_class sample_classes) (rows sample_main))
               (rows out).
Proof.
  assert (merge "link" sample_main sample_classes = Ok _) as Hrun
    by (apply (result_value sample_main); vm_compute; reflexivity).
  eexists. split; [exact Hrun|].
  apply (listings_without_class_are_dropped _ _ _ Hrun);
    [apply sample_texts | apply sample_texts | | apply sample_classes_unique].
  intros c Hc Hc'. apply (sample_shared c Hc'). by left.
Defined.

(** Of the four sample listings the fourth has no class. *)
Example merge_sample :
  (fun df => (fun r => (at_label r "title", at_label r "apartment_class"))
             <$> rows df)
    <$> merge "link" sample_main sample_classes
  = Ok [(Str (Py.lit "Kawalerka"), Num 2); (Str (Py.lit "Pokoj"), Num 1);
        (Str (Py.lit "Studio"), Num 3)].
Proof. vm_compute. reflexivity. Qed.

(** X14. Cell 31 raises [KeyError] exactly when the table lacks one of the five
    columns that it drops, and then nothing is written and nothing is
    logged: the notebook ends without a table for the model. *)
Theorem save_needs_the_columns_it_drops (df : DataFrame) (w : world) :
  save df w = (Raise KeyError, w)
  <-> exists c, c ∈ columns_to_drop /\ c ∉ columns df.
Proof.
  unfold save, to_csv, emit, lift, mbind, M_bind.
  destruct (drop columns_to_drop df) as [out|e] eqn:E.
  - apply drop_Ok in E as [Hall _]. split; [done|].
    intros (c & Hc & Hnot). rewrite Forall_forall in Hall.
    exfalso. by apply Hnot, Hall.
  - unfold drop in E.
    destruct (forallb _ columns_to_drop) eqn:Eall; [done|]. injection E as <-.
    split; [intros _|done].
    apply not_true_iff_false in Eall. rewrite forallb_columns in Eall.
    apply not_Forall_Exists in Eall; [|apply _].
    apply Exists_exists in Eall as (c & Hc & Hnot). by exists c.
Qed.

(** ** The notebooks as a whole *)

Section Writing.
Context `{Datakit} `{Builtins} `{Assistant}.

Lemma quiet_any P {A} (m : M A) : quiet P m -> quiet any_event m.
Proof.
  intros Hq w. destruct (Hq w) as (Hf & evs & Hlog & _).
  split; [done|]. exists evs. split; [done|]. by apply Forall_forall.
Qed.

Lemma run_files P {A} (m : M A) w a w' :
  quiet P m -> m w = (Ok a, w') -> files w' = files w.
Proof. intros Hq Hm. destruct (Hq w) as [Hf _]. by rewrite Hm in Hf. Qed.

Lemma writes_only_bind path {A B} (m : M A) (f : A -> M B) :
  quiet any_event m -> (forall a, writes_only path (f a)) ->
  writes_only path (m ≫= f).
Proof.
  intros Hm Hf w. destruct (Hm w) as (Hfiles & _).
  unfold mbind, M_bind. destruct (m w) as [[a|e] w1]; simpl in *; [|done].
  specialize (Hf a w1). rewrite <- Hfiles. exact Hf.
Qed.

Lemma writes_only_to_csv path df : writes_only path (to_csv path df).
Proof. intros w. simpl. by exists df. Qed.

Lemma writes_only_save df : writes_only modeling_csv (save df).
Proof.
  intros w. unfold save, to_csv, emit, lift, mbind, M_bind.
  destruct (drop columns_to_drop df) as [out|]; simpl; [by exists out | done].
Qed.

Lemma to_csv_Ok path df w w' :
  to_csv path df w = (Ok tt, w') ->
  files w' = <[path := df]> (files w) /\ log w' = log w ++ [ToCsv path df].
Proof. unfold to_csv, emit, mbind, M_bind. by intros [= <-]. Qed.

(** The cells that write no file. *)
Ltac quiet_any :=
  repeat first
    [ apply quiet_lift
    | apply quiet_read; done
    | apply quiet_call; done
    | apply quiet_bind; [|intros ?] ].

Lemma llm_load_any : quiet any_event llm_load.
Proof. unfold llm_load. quiet_any. Qed.

Lemma llm_ask_any df : quiet any_event (llm_ask df).
Proof.
  unfold llm_ask. apply quiet_bind; [apply quiet_lift|]. intros fd.
  apply quiet_bind; [|intros ?; apply quiet_lift].
  eapply quiet_any. apply (apply_query_quiet fd fd). auto.
Qed.

Lemma prepare_load_any : quiet any_event prepare_load.
Proof. unfold prepare_load. quiet_any. Qed.

Lemma locations_step_any df : quiet any_event (locations_step df).
Proof. unfold locations_step. quiet_any. Qed.

Lemma fees_step_any df : quiet any_event (fees_step df).
Proof. unfold fees_step. quiet_any. Qed.

Lemma distance_columns_any df : quiet any_event (distance_columns df).
Proof. unfold distance_columns. quiet_any. Qed.

Lemma average_price_any df : quiet any_event (average_price df).
Proof. eapply quiet_any, average_price_quiet. Qed.

Lemma classes_step_any df : quiet any_event (classes_step df).
Proof. unfold classes_step. quiet_any. Qed.

Lemma llm_notebook_writes : writes_only llm_output_csv llm_notebook.
Proof.
  unfold llm_notebook.
  apply writes_only_bind; [apply llm_load_any | intros ?].
  apply writes_only_bind; [apply quiet_lift | intros ?].
  apply writes_only_bind; [apply llm_ask_any | intros ?].
  apply writes_only_bind; [apply quiet_lift | intros ?].
  apply writes_only_to_csv.
Qed.

Lemma preparation_notebook_writes :
  writes_only modeling_csv preparation_notebook.
Proof.
  unfold preparation_notebook.
  apply writes_only_bind; [apply prepare_load_any | intros ?].
  apply writes_only_bind; [apply locations_step_any | intros ?].
  apply writes_only_bind; [apply fees_step_any | intros ?].
  apply writes_only_bind; [apply distance_columns_any | intros ?].
  apply writes_only_bind; [apply average_price_any | intros ?].
  apply writes_only_bind; [apply classes_step_any | intros ?].
  apply writes_only_save.
Qed.
End Writing.

(** X15. The notebook that asks the model writes one file at most, the table of
    the model's output, and writes it last: a run that raises, in any cell
    and for whatever reason, leaves every file as it was, and a run that
    returns has changed no other file; main.csv is never written. *)
Theorem llm_notebook_writes_its_output_only
    `{Datakit} `{Builtins} `{Assistant} :
  writes_only llm_output_csv llm_notebook.
Proof. apply llm_notebook_writes. Qed.

(** X16. The preparation notebook writes one file at most, the table for the
    model, and writes it last: a run that raises, in any cell, leaves every
    file as it was, and a run that returns has changed no other file; none
    of the tables that it reads is ever written. *)
Theorem preparation_notebook_writes_its_table_only `{Datakit} `{Builtins} :
  writes_only modeling_csv preparation_notebook.
Proof. apply preparation_notebook_writes. Qed.

(** *** What the notebook that asks the model saves *)

Section Saved.
Context `{Datakit} `{Builtins} `{Assistant}.
Import Py.

Lemma traverse_fmap {A} (f : A -> result bool) (l : list A) (m : list bool) :
  traverse f l = Ok m ->
  m = (fun x => match f x with Ok b => b | Raise _ => false end) <$> l.
Proof.
  intros Hf%traverse_Ok. induction Hf as [|x b l m Hx _ IH]; csimpl; [done|].
  by rewrite Hx, IH.
Qed.

Lemma filter_filter {A} (f g : A -> bool) (l : list A) :
  List.filter f (List.filter g l) = List.filter (fun x => g x && f x) l.
Proof.
  induction l as [|x l IH]; simpl; [done|].
  destruct (g x); simpl; [|done]. destruct (f x); by rewrite IH.
Qed.

Lemma Forall2_filter {A B} (R : A -> B -> Prop) (p : A -> bool) (q : B -> bool)
    (l : list A) (k : list B) :
  Forall2 (fun x y => R x y /\ p x = q y) l k ->
  Forall2 R (List.filter p l) (List.filter q k).
Proof.
  induction 1 as [|x y l k [HR Hpq] _ IH]; simpl; [constructor|].
  rewrite <- Hpq. destruct (p x); [by constructor | done].
Qed.

(** Assigning a column whose cells are related to the rows by [Q]. *)
Lemma setcol_Forall2 label (Q : gmap string cell -> cell -> Prop) s df df' :
  setcol label s df = Ok df' -> Forall2 Q (rows df) s ->
  columns df' = (if bool_decide (label ∈ columns df) then columns df
                 else columns df ++ [label])
  /\ Forall2 (fun r r' => exists y, Q r y /\ r' = <[label := y]> r)
             (rows df) (rows df').
Proof.
  unfold setcol. destruct (Nat.eqb _ _); [|done]. intros [= <-] HQ.
  split; [done|]. cbn [rows].
  induction HQ as [|r y rs s Hy _ IH]; simpl; constructor; [by exists y | done].
Qed.

Lemma at_label_restrict (r : gmap string cell) (labels : list string) c :
  c ∈ labels ->
  at_label (filter (fun kv : string * cell => kv.1 ∈ labels) r) c = at_label r c.
Proof.
  intros Hc. unfold at_label. destruct (r !! c) as [v|] eqn:Ev.
  - by erewrite map_lookup_filter_Some_2.
  - by rewrite map_lookup_filter_None_2; [|left].
Qed.

(** Cells 3 to 6: the rows that are left, and what they hold. *)
Lemma llm_listings_rows df out :
  llm_listings df = Ok out ->
  columns out = llm_columns ++ ["filtered_description"]
  /\ Forall2 (fun listing r =>
                exists description,
                  at_label listing "adv_description" = Str description
                  /\ r = <["filtered_description" := Str (filter_lines description)]>
                           (filter (fun kv => kv.1 ∈ llm_columns) listing))
             (List.filter sent_to_model (rows df)) (rows out).
Proof.
  unfold llm_listings.
  destruct (llm_recent_cheap df) as [df1|] eqn:E1; [simpl|done].
  destruct (project llm_columns df1) as [df2|] eqn:E2; [simpl|done].
  destruct (llm_filtered df2) as [df3|] eqn:E3; [simpl|done].
  unfold llm_nonempty.
  destruct (getcol "filtered_description" df3) as [fd|] eqn:E4; [simpl|done].
  apply getcol_Ok in E4 as [_ ->]. intros [= <-]. cbn [columns rows mask_rows].
  rewrite <- list_fmap_compose, select_rows_fmap.
  (* cell 3 *)
  unfold llm_recent_cheap in E1.
  destruct (getcol "added_dt" df) as [added|] eqn:Ea; [simpl in E1|done].
  apply getcol_Ok in Ea as [_ ->].
  destruct (traverse _ _) as [recent|] eqn:Er in E1; [simpl in E1|done].
  destruct (getcol "additional_fees" df) as [fees|] eqn:Ef; [simpl in E1|done].
  apply getcol_Ok in Ef as [_ ->].
  destruct (traverse (lt_num 100) _) as [cheap|] eqn:Ec in E1; [simpl in E1|done].
  injection E1 as <-.
  apply traverse_fmap in Er as ->. apply traverse_fmap in Ec as ->.
  rewrite <- !list_fmap_compose in E2.
  (* cell 4 *)
  unfold project in E2. destruct (forallb _ _); [|done]. injection E2 as <-.
  cbn [columns rows mask_rows] in *.
  rewrite zip_with_fmap_l, zip_with_fmap_r, zip_with_diag in E3.
  rewrite (select_rows_fmap
             (fun r => (match le_str (lit "2025-02-04") (at_label r "added_dt")
                        with Ok b => b | Raise _ => false end)
                       && (match lt_num 100 (at_label r "additional_fees")
                           with Ok b => b | Raise _ => false end))) in E3.
  (* cell 5 *)
  unfold llm_filtered in E3.
  destruct (getcol "adv_description" _) as [adv|] eqn:Ed; [simpl in E3|done].
  apply getcol_Ok in Ed as [_ ->]. cbn [rows] in E3.
  destruct (traverse filter_lines_of _) as [filtered|] eqn:Et; [simpl in E3|done].
  apply traverse_Ok, Forall2_fmap_l in Et.
  destruct (setcol_Forall2 _ _ _ _ _ E3 Et) as [Hcols Hrows].
  cbn [columns rows] in Hcols, Hrows.
  split; [by rewrite Hcols|].
  set (g := fun r : gmap string cell =>
              (match le_str (lit "2025-02-04") (at_label r "added_dt")
               with Ok b => b | Raise _ => false end)
              && (match lt_num 100 (at_label r "additional_fees")
                  with Ok b => b | Raise _ => false end)) in *.
  set (restrict := fun r : gmap string cell =>
                     filter (fun kv : string * cell => kv.1 ∈ llm_columns) r) in *.
  set (p := fun r : gmap string cell =>
              match at_label r "adv_description" with
              | Str d => negb (bool_decide (filter_lines d = []))
              | _ => false
              end).
  assert (List.filter sent_to_model (rows df)
          = List.filter p (List.filter g (rows df))) as ->.
  { rewrite filter_filter. apply filter_ext_elem. intros r _.
    unfold sent_to_model, cutoff, g, p.
    destruct (le_str _ _) as [[]|]; destruct (lt_num _ _) as [[]|];
      by destruct (at_label r "adv_description"). }
  apply Forall2_fmap_l in Hrows.
  eapply Forall2_filter with (p := p)
    (q := (ne_str [] ∘ (fun r => at_label r "filtered_description"))).
  eapply Forall2_impl; [exact Hrows|]. intros r r' (y & Hy & ->). simpl in Hy.
  assert (at_label (restrict r) "adv_description" = at_label r "adv_description")
    as Hadv.
  { apply at_label_restrict. unfold llm_columns. set_solver. }
  rewrite Hadv in Hy. unfold filter_lines_of in Hy.
  destruct (at_label r "adv_description") as [| | |d] eqn:Ead; try done.
  injection Hy as <-. split; [by exists d|].
  unfold p, compose. rewrite Ead, at_label_insert_eq.
  unfold ne_str. f_equal. by apply bool_decide_ext.
Qed.

(** Cell 11, request by request. *)
Lemma apply_query_Ok (l : list cell) w outs w' :
  apply_M query_llm l w = (Ok outs, w') ->
  files w' = files w
  /\ log w' = log w ++ ((fun x => Query (prompt_text x)) <$> l)
  /\ Forall2 (fun x y => exists reply, completion (prompt_text x) = Ok reply
                                       /\ y = Str reply) l outs.
Proof.
  revert w outs. induction l as [|x l IH]; intros w outs; simpl.
  - intros [= <- <-]. by rewrite app_nil_r.
  - intros (y & w1 & Hx & Hrun)%bind_M_Ok.
    apply bind_M_Ok in Hrun as (ys & w2 & Hl & [= <- <-]).
    apply IH in Hl as (Hf & Hlog & Hall).
    unfold query_llm, emit, lift, mbind, M_bind in Hx. simpl in Hx.
    destruct (completion (prompt_text x)) as [reply|] eqn:Er; [|done].
    injection Hx as <- <-. simpl in *.
    split; [done|]. split; [by rewrite Hlog, <- app_assoc|].
    constructor; [by exists reply | done].
Qed.

(** A run of the notebook that returns. *)
Lemma llm_notebook_Ok w w' :
  llm_notebook w = (Ok tt, w') ->
  exists raw deduplicated main out,
    files w !! main_csv = Some raw
    /\ deduplicate_main raw = Ok deduplicated
    /\ transform_data deduplicated true 1 28 false = Ok main
    /\ files w' = <[llm_output_csv := out]> (files w)
    /\ log w' = log w
                ++ [ReadCsv main_csv; Call "deduplicate_main" [raw];
                    Call "transform_data" [deduplicated]]
                ++ ((fun r => Query (prompt_text (at_label r "filtered_description")))
                    <$> rows out)
                ++ [ToCsv llm_output_csv out]
    /\ columns out = llm_output_columns
    /\ Forall2 answered (List.filter sent_to_model (rows main)) (rows out).
Proof.
  unfold llm_notebook.
  intros (main & w1 & Hload & Hrun)%bind_M_Ok.
  apply bind_M_Ok in Hrun as (df & w2 & (Hlist & ->)%lift_Ok & Hrun).
  apply bind_M_Ok in Hrun as (df2 & w3 & Hask & Hrun).
  apply bind_M_Ok in Hrun as (df3 & w4 & (Hfees & ->)%lift_Ok & Hsave).
  apply to_csv_Ok in Hsave as [Hfiles Hlog].
  (* cell 2 *)
  unfold llm_load in Hload.
  apply bind_M_Ok in Hload as (raw & wa & (Hraw & Hfa & Hla)%read_csv_Ok & Hload).
  apply bind_M_Ok in Hload
    as (dedup & wb & (Hdedup & Hfb & Hlb)%call_Ok & (Hmain & Hf1 & Hl1)%call_Ok).
  (* cells 3 to 6 *)
  apply llm_listings_rows in Hlist as [Hcols1 Hrows1].
  (* cell 11 *)
  unfold llm_ask in Hask.
  apply bind_M_Ok in Hask as (fd & wc & ([_ ->]%getcol_Ok & ->)%lift_Ok & Hask).
  apply bind_M_Ok in Hask as (outs & wd & Hq & (Hset & ->)%lift_Ok).
  apply apply_query_Ok in Hq as (Hf3 & Hl3 & Hreplies).
  apply Forall2_fmap_l in Hreplies.
  destruct (setcol_Forall2 _ _ _ _ _ Hset Hreplies) as [Hcols2 Hrows2].
  (* cell 27 *)
  unfold llm_fees in Hfees.
  destruct (getcol "llm_output" df2) as [answers|] eqn:Ea; [simpl in Hfees|done].
  apply getcol_Ok in Ea as [_ ->].
  destruct (traverse extract_and_sum_of _) as [fees|] eqn:Et;
    [simpl in Hfees|done].
  apply traverse_Ok, Forall2_fmap_l in Et.
  destruct (setcol_Forall2 _ _ _ _ _ Hfees Et) as [Hcols3 Hrows3].
  exists raw, dedup, main, df3. split_and!; try done.
  - congruence.
  - rewrite Hlog, Hl3, Hl1, Hlb, Hla, <- !app_assoc. simpl. do 4 f_equal.
    rewrite <- list_fmap_compose.
    assert (Forall2 (fun r r3 => at_label r3 "filtered_description"
                                 = at_label r "filtered_description")
                    (rows df) (rows df3)) as Hsame.
    { eapply Forall2_trans; [|exact Hrows2|exact Hrows3].
      intros r r2 r3 (y & _ & ->) (z & _ & ->).
      by rewrite !at_label_insert_ne. }
    clear -Hsame. induction Hsame as [|r r3 l k Hr _ IH]; csimpl; [done|].
    by rewrite Hr, IH.
  - rewrite Hcols3, Hcols2, Hcols1. reflexivity.
  - assert (Forall2 (fun r r3 =>
                       exists reply z,
                         completion (prompt_text (at_label r "filtered_description"))
                         = Ok reply
                         /\ extract_and_sum_of (Str reply) = Ok z
                         /\ r3 = <["real_additional_fees" := z]>
                                   (<["llm_output" := Str reply]> r))
                    (rows df) (rows df3)) as Hrows23.
    { eapply Forall2_trans; [|exact Hrows2|exact Hrows3].
      intros r r2 r3 (y & (reply & Hreply & ->) & ->) (z & Hz & ->).
      simpl in Hz. rewrite at_label_insert_eq in Hz. by exists reply, z. }
    eapply Forall2_trans; [|exact Hrows1|exact Hrows23].
    intros listing r r3 (d & Hd & ->) (reply & z & Hreply & Hz & ->).
    rewrite at_label_insert_eq in Hreply. simpl in Hreply, Hz.
    destruct (extract_and_sum reply Re.pattern_fees) as [v|] eqn:Ev;
      [simpl in Hz|done].
    injection Hz as <-. exists d, reply, v. split_and!; try done.
    rewrite extract_and_sum_runs in Ev. destruct (forallb _ _); [|done].
    injection Ev as <-. apply sum_decimal_nonneg.
Qed.

(** The fees that cell 15 takes from a table saved by this notebook. *)
Lemma fees_of_the_model w w' df_fees df df' :
  llm_notebook w = (Ok tt, w') ->
  files w' !! llm_output_csv = Some df_fees ->
  add_hidden_fees df df_fees = Ok df' ->
  Forall2 (fun r r' =>
             r' !! "additional_fees" = Some (at_label r "additional_fees")
             \/ exists fees : Z,
                  (0 <= fees)%Z
                  /\ r' !! "additional_fees" = Some (Num (inject_Z fees)))
          (rows df) (rows df').
Proof.
  intros (raw & dedup & main & out & _ & _ & _ & Hfiles & _ & _ & Hrows)
           %llm_notebook_Ok Hfile
         (fees_map & Hmap & _ & ->)%add_hidden_fees_Ok.
  rewrite Hfiles, lookup_insert_eq in Hfile. injection Hfile as <-.
  apply Forall2_fmap_same. intros r _.
  destruct (index_has fees_map (at_label r "link")) eqn:Hhas.
  - right. apply index_has_true in Hhas as (k & v & Hin & _ & ->).
    rewrite Hmap in Hin. apply elem_of_zip_fmap in Hin as (fr & Hfr & -> & ->).
    apply list_elem_of_lookup in Hfr as [i Hi].
    destruct (Forall2_lookup_r _ _ _ _ _ Hrows Hi)
      as (listing & _ & d & reply & fees & _ & _ & _ & Hfees & ->).
    exists fees. split; [done|].
    by rewrite lookup_insert_eq, at_label_insert_eq.
  - left. by rewrite lookup_insert_eq.
Qed.
End Saved.

(** X17. When the notebook that asks the model returns, the table that it has
    saved holds one row for every listing of the transformed table that
    passes the three tests (added_dt at most '2025-02-04', listed
    additional_fees below 100, a description with a line that holds a
    number), all of them, in their order: the four columns of cell 4, the
    filtered description, the model's answer to it, and as
    real_additional_fees the sum of the numbers of three or more digits of
    that answer, a nonnegative integer. *)
Theorem llm_notebook_saves_the_fees_of_every_listing_sent
    `{Datakit} `{Builtins} `{Assistant} (w w' : world) :
  llm_notebook w = (Ok tt, w') ->
  exists raw deduplicated main out,
    files w !! main_csv = Some raw
    /\ deduplicate_main raw = Ok deduplicated
    /\ transform_data deduplicated true 1 28 false = Ok main
    /\ files w' !! llm_output_csv = Some out
    /\ columns out = llm_output_columns
    /\ Forall2 answered (List.filter sent_to_model (rows main)) (rows out).
Proof.
  intros (raw & dedup & main & out & Hraw & Hdedup & Hmain & Hfiles & _
          & Hcols & Hrows)%llm_notebook_Ok.
  exists raw, dedup, main, out. split_and!; try done.
  by rewrite Hfiles, lookup_insert_eq.
Qed.

Lemma llm_notebook_saves_the_fees_of_every_listing_sent_witness :
  exists w' raw deduplicated main out,
    @llm_notebook sample_datakit sample_builtins sample_assistant sample_world
    = (Ok tt, w')
    /\ files sample_world !! main_csv = Some raw
    /\ @deduplicate_main sample_datakit raw = Ok deduplicated
    /\ @transform_data sample_datakit deduplicated true 1 28 false = Ok main
    /\ files w' !! llm_output_csv = Some out
    /\ columns out = llm_output_columns
    /\ Forall2 (@answered sample_assistant)
               (List.filter sent_to_model (rows main)) (rows out).
Proof.
  destruct (@llm_notebook_saves_the_fees_of_every_listing_sent
              sample_datakit sample_builtins sample_assistant sample_world _
              llm_sample_run) as (raw & dedup & main & out & Hsaved).
  eexists. exists raw, dedup, main, out.
  split; [exact llm_sample_run | exact Hsaved].
Defined.

(** X18. A run of the notebook that returns has left these events and no
    others, in this order: main.csv is read, the table is deduplicated,
    then transformed, then the model is asked once for every row of the
    table that is saved, from the first row to the last and with the
    filtered description of that row, and then the table is written. *)
Theorem model_is_asked_once_for_every_saved_row
    `{Datakit} `{Builtins} `{Assistant} (w w' : world) :
  llm_notebook w = (Ok tt, w') ->
  exists raw deduplicated out,
    files w' !! llm_output_csv = Some out
    /\ log w' = log w
                ++ [ReadCsv main_csv; Call "deduplicate_main" [raw];
                    Call "transform_data" [deduplicated]]
                ++ ((fun r => Query (prompt_text (at_label r "filtered_description")))
                    <$> rows out)
                ++ [ToCsv llm_output_csv out].
Proof.
  intros (raw & dedup & main & out & _ & _ & _ & Hfiles & Hlog & _)%llm_notebook_Ok.
  exists raw, dedup, out. split; [|done].
  by rewrite Hfiles, lookup_insert_eq.
Qed.

Lemma model_is_asked_once_for_every_saved_row_witness :
  exists w' raw deduplicated out,
    @llm_notebook sample_datakit sample_builtins sample_assistant sample_world
    = (Ok tt, w')
    /\ files w' !! llm_output_csv = Some out
    /\ log w' = log sample_world
                ++ [ReadCsv main_csv; Call "deduplicate_main" [raw];
                    Call "transform_data" [deduplicated]]
                ++ ((fun r => Query (@prompt_text sample_builtins
                                       (at_label r "filtered_description")))
                    <$> rows out)
                ++ [ToCsv llm_output_csv out].
Proof.
  destruct (@model_is_asked_once_for_every_saved_row
              sample_datakit sample_builtins sample_assistant sample_world _
              llm_sample_run) as (raw & dedup & out & Hlog).
  eexists. exists raw, dedup, out.
  split; [exact llm_sample_run | exact Hlog].
Defined.

(** X19. The two notebooks together: when the preparation notebook takes the
    hidden fees from a table that the notebook asking the model has saved,
    every additional_fees after cell 15 is either the one that the row had
    before, or a nonnegative integer, the sum that [extract_and_sum] read
    off the model's answer. *)
Theorem hidden_fees_are_sums_of_the_model `{Datakit} `{Builtins} `{Assistant}
    (w w' : world) (df_fees df df' : DataFrame) :
  llm_notebook w = (Ok tt, w') ->
  files w' !! llm_output_csv = Some df_fees ->
  add_hidden_fees df df_fees = Ok df' ->
  Forall2 (fun r r' =>
             r' !! "additional_fees" = Some (at_label r "additional_fees")
             \/ exists fees : Z,
                  (0 <= fees)%Z
                  /\ r' !! "additional_fees" = Some (Num (inject_Z fees)))
          (rows df) (rows df').
Proof. apply fees_of_the_model. Qed.

Lemma hidden_fees_are_sums_of_the_model_witness :
  exists w' df_fees df',
    @llm_notebook sample_datakit sample_builtins sample_assistant sample_world
    = (Ok tt, w')
    /\ files w' !! llm_output_csv = Some df_fees
    /\ add_hidden_fees sample_main df_fees = Ok df'
    /\ Forall2 (fun r r' =>
                  r' !! "additional_fees" = Some (at_label r "additional_fees")
                  \/ exists fees : Z,
                       (0 <= fees)%Z
                       /\ r' !! "additional_fees" = Some (Num (inject_Z fees)))
               (rows sample_main) (rows df').
Proof.
  set (run := @llm_notebook sample_datakit sample_builtins sample_assistant
                sample_world).
  set (df_fees := default sample_fees (files run.2 !! llm_output_csv)).
  assert (run = (Ok tt, run.2)) as Hrun by exact llm_sample_run.
  assert (files run.2 !! llm_output_csv = Some df_fees) as Hfile
    by (apply (option_value sample_fees); vm_compute; reflexivity).
  assert (add_hidden_fees sample_main df_fees = Ok _) as Hfees
    by (apply (result_value sample_main); vm_compute; reflexivity).
  exists run.2, df_fees. eexists. split; [exact Hrun|]. split; [exact Hfile|].
  split; [exact Hfees|].
  exact (@hidden_fees_are_sums_of_the_model
           sample_datakit sample_builtins sample_assistant _ _ _ _ _
           Hrun Hfile Hfees).
Defined.

(** *** From the transformed table to the saved one *)

Section Assigning.
Context `{Datakit} `{Builtins}.

Lemma assigns_setcol label s df df' :
  setcol label s df = Ok df' -> assigns [label] df df'.
Proof.
  intros Hset. split_and!.
  - eapply Forall2_impl; [by eapply setcol_Ok|].
    intros r r' [y ->] c Hc. apply lookup_insert_ne.
    intros ->. apply Hc. left.
  - unfold setcol in Hset. destruct (Nat.eqb _ _); [|done].
    injection Hset as <-. intros c Hc. by apply column_kept.
  - unfold setcol in Hset. destruct (Nat.eqb _ _); [|done].
    injection Hset as <-. apply column_new.
Qed.

Lemma assigns_update_from key label mapper df df' :
  update_from key label mapper df = Ok df' -> assigns [label] df df'.
Proof.
  intros (_ & _ & ->)%update_from_Ok. split_and!; cbn [rows columns].
  - apply Forall2_fmap_same. intros r _ c Hc.
    assert (label <> c) as Hne by (intros ->; apply Hc; left).
    destruct (index_has _ _); by rewrite lookup_insert_ne.
  - intros c Hc. by apply column_kept.
  - apply column_new.
Qed.

(** One assignment after the other. *)
Lemma assigns_trans l1 l2 a b c :
  assigns l1 a b -> assigns l2 b c -> assigns (l1 ++ l2) a c.
Proof.
  intros (Hr1 & Hk1 & Hn1) (Hr2 & Hk2 & Hn2). split_and!.
  - eapply Forall2_trans; [|exact Hr1|exact Hr2].
    intros r r1 r2 H1 H2 x Hx. rewrite not_elem_of_app in Hx.
    destruct Hx as [Hx1 Hx2]. by rewrite H2, H1.
  - auto.
  - intros x [Hx|Hx]%Hn2.
    + apply Hn1 in Hx as [Hx|Hx]; [by left|]. right. apply elem_of_app. by left.
    + right. apply elem_of_app. by right.
Qed.

Lemma locations_step_assigns df w df' w' :
  locations_step df w = (Ok df', w') -> assigns place_columns df df'.
Proof.
  unfold locations_step.
  intros (raw & w1 & _ & Hrun)%bind_M_Ok.
  apply bind_M_Ok in Hrun as (locs & w2 & _ & (Hcorrect & _)%lift_Ok).
  unfold correct_locations in Hcorrect.
  destruct (set_index "link" "latitude" locs) as [la|]; [simpl in *|done].
  destruct (set_index "link" "longitude" locs) as [lo|]; [simpl in *|done].
  destruct (set_index "link" "real_district" locs) as [di|]; [simpl in *|done].
  destruct (update_from "link" "latitude" la df) as [df1|] eqn:E1;
    [simpl in *|done].
  destruct (update_from "link" "longitude" lo df1) as [df2|] eqn:E2;
    [simpl in *|done].
  apply assigns_update_from in E1, E2, Hcorrect.
  exact (assigns_trans ["latitude"] ["longitude"; "district"] _ _ _ E1
           (assigns_trans ["longitude"] ["district"] _ _ _ E2 Hcorrect)).
Qed.

Lemma fees_step_assigns df w df' w' :
  fees_step df w = (Ok df', w') -> assigns ["additional_fees"] df df'.
Proof.
  unfold fees_step.
  intros (fees & w1 & _ & (Hfees & _)%lift_Ok)%bind_M_Ok.
  unfold add_hidden_fees in Hfees.
  destruct (set_index _ _ fees) as [m|]; [simpl in *|done].
  by apply assigns_update_from in Hfees.
Qed.

Lemma distance_columns_assigns df w df' w' :
  distance_columns df w = (Ok df', w') ->
  assigns ["distance_to_stop"; "distance_to_subway"; "distance_to_center"]
          df df'.
Proof.
  unfold distance_columns.
  intros (ztm_stops & w1 & _ & Hrun)%bind_M_Ok.
  apply bind_M_Ok in Hrun as (d1 & w2 & _ & Hrun).
  apply bind_M_Ok in Hrun as (df1 & w3 & (Hdf1 & _)%lift_Ok & Hrun).
  apply bind_M_Ok in Hrun as (subway & w4 & _ & Hrun).
  apply bind_M_Ok in Hrun as (d2 & w5 & _ & Hrun).
  apply bind_M_Ok in Hrun as (df2 & w6 & (Hdf2 & _)%lift_Ok & Hrun).
  apply bind_M_Ok in Hrun as (d3 & w7 & _ & (Hdf3 & _)%lift_Ok).
  apply assigns_setcol in Hdf1, Hdf2, Hdf3.
  exact (assigns_trans ["distance_to_stop"]
           ["distance_to_subway"; "distance_to_center"] _ _ _ Hdf1
           (assigns_trans ["distance_to_subway"] ["distance_to_center"] _ _ _
              Hdf2 Hdf3)).
Qed.

Lemma average_price_assigns df w df' w' :
  average_price df w = (Ok df', w') -> assigns ["avg_price"] df df'.
Proof.
  unfold average_price.
  intros (raw & w1 & _ & Hrun)%bind_M_Ok.
  apply bind_M_Ok in Hrun as (exact & w2 & _ & Hrun).
  apply bind_M_Ok in Hrun as (legacy & w3 & _ & Hrun).
  apply bind_M_Ok in Hrun as (avg & w4 & _ & (Hset & _)%lift_Ok).
  by apply assigns_setcol in Hset.
Qed.

(** Cells 10 to 26, one after the other. *)
Lemma enrichment_steps_assign df w df1 w1 df2 w2 df3 w3 df4 w4 :
  locations_step df w = (Ok df1, w1) ->
  fees_step df1 w1 = (Ok df2, w2) ->
  distance_columns df2 w2 = (Ok df3, w3) ->
  average_price df3 w3 = (Ok df4, w4) ->
  assigns enriched_columns df df4 /\ files w4 = files w.
Proof.
  intros H1 H2 H3 H4. split.
  - apply locations_step_assigns in H1. apply fees_step_assigns in H2.
    apply distance_columns_assigns in H3. apply average_price_assigns in H4.
    exact (assigns_trans place_columns _ _ _ _ H1
             (assigns_trans ["additional_fees"] _ _ _ _ H2
                (assigns_trans
                   ["distance_to_stop"; "distance_to_subway"; "distance_to_center"]
                   ["avg_price"] _ _ _ H3 H4))).
  - rewrite (run_files _ _ _ _ _ (average_price_any df3) H4).
    rewrite (run_files _ _ _ _ _ (distance_columns_any df2) H3).
    rewrite (run_files _ _ _ _ _ (fees_step_any df1) H2).
    exact (run_files _ _ _ _ _ (locations_step_any df) H1).
Qed.

Lemma enrichment_assigns df w df' w' :
  (df ← locations_step df; df ← fees_step df; df ← distance_columns df;
   average_price df) w = (Ok df', w') ->
  assigns enriched_columns df df'.
Proof.
  intros (df1 & w1 & H1 & Hrun)%bind_M_Ok.
  apply bind_M_Ok in Hrun as (df2 & w2 & H2 & Hrun).
  apply bind_M_Ok in Hrun as (df3 & w3 & H3 & H4).
  by destruct (enrichment_steps_assign _ _ _ _ _ _ _ _ _ _ H1 H2 H3 H4).
Qed.

Lemma prepare_load_Ok w main w1 :
  prepare_load w = (Ok main, w1) ->
  files w1 = files w
  /\ exists raw deduplicated,
       files w !! main_csv = Some raw
       /\ deduplicate_main raw = Ok deduplicated
       /\ transform_data deduplicated true 1 28 true = Ok main.
Proof.
  unfold prepare_load.
  intros (raw & w2 & (Hraw & Hf2 & _)%read_csv_Ok & Hrun)%bind_M_Ok.
  apply bind_M_Ok in Hrun
    as (dedup & w3 & (Hdedup & Hf3 & _)%call_Ok & (Hmain & Hf1 & _)%call_Ok).
  split; [congruence|]. by exists raw, dedup.
Qed.

(** A run of the notebook that returns. *)
Lemma preparation_notebook_Ok w w' :
  preparation_notebook w = (Ok tt, w') ->
  exists raw deduplicated main enriched classes merged out,
    files w !! main_csv = Some raw
    /\ deduplicate_main raw = Ok deduplicated
    /\ transform_data deduplicated true 1 28 true = Ok main
    /\ assigns enriched_columns main enriched
    /\ files w !! classes_csv = Some classes
    /\ merge "link" enriched classes = Ok merged
    /\ drop columns_to_drop merged = Ok out
    /\ files w' = <[modeling_csv := out]> (files w).
Proof.
  unfold preparation_notebook.
  intros (main & w0 & [Hf0 (raw & dedup & Hraw & Hdedup & Hmain)]%prepare_load_Ok
          & Hrun)%bind_M_Ok.
  apply bind_M_Ok in Hrun as (df1 & w1 & H1 & Hrun).
  apply bind_M_Ok in Hrun as (df2 & w2 & H2 & Hrun).
  apply bind_M_Ok in Hrun as (df3 & w3 & H3 & Hrun).
  apply bind_M_Ok in Hrun as (df4 & w4 & H4 & Hrun).
  destruct (enrichment_steps_assign _ _ _ _ _ _ _ _ _ _ H1 H2 H3 H4)
    as [Hassigns Hf4].
  apply bind_M_Ok in Hrun as (merged & w5 & Hclasses & Hsave).
  unfold classes_step in Hclasses.
  apply bind_M_Ok in Hclasses
    as (classes & w6 & (Hfile & Hf6 & _)%read_csv_Ok & (Hmerge & ->)%lift_Ok).
  unfold save in Hsave.
  apply bind_M_Ok in Hsave as (out & w7 & (Hdrop & ->)%lift_Ok & Hsave).
  apply to_csv_Ok in Hsave as [Hfiles _].
  exists raw, dedup, main, df4, classes, merged, out.
  split_and!; try done; congruence.
Qed.

Lemma link_not_enriched : "link" ∉ enriched_columns.
Proof.
  unfold enriched_columns. rewrite !not_elem_of_cons.
  split_and!; try done. apply not_elem_of_nil.
Qed.

Lemma saved_rows w w' raw deduplicated main classes :
  preparation_notebook w = (Ok tt, w') ->
  files w !! main_csv = Some raw ->
  deduplicate_main raw = Ok deduplicated ->
  transform_data deduplicated true 1 28 true = Ok main ->
  files w !! classes_csv = Some classes ->
  links_unique classes ->
  (forall c, c ∈ columns classes -> c ∈ columns main \/ c ∈ enriched_columns ->
             c = "link") ->
  exists out,
    files w' !! modeling_csv = Some out
    /\ Forall2 (saved_for main classes)
               (List.filter (has_class classes) (rows main)) (rows out).
Proof.
  intros (raw' & dedup' & main' & enriched & classes' & merged & out
          & Hraw' & Hdedup' & Hmain' & (Hrows & Hkept & Hnew) & Hclasses'
          & Hmerge & Hdrop & Hfiles)%preparation_notebook_Ok
         Hraw Hdedup Hmain Hclasses Huniq Hshared.
  assert (raw' = raw) as -> by congruence.
  assert (dedup' = deduplicated) as -> by congruence.
  assert (main' = main) as -> by congruence.
  assert (classes' = classes) as -> by congruence.
  exists out. split; [by rewrite Hfiles, lookup_insert_eq|].
  apply merge_Ok in Hmerge as [_ Hmerged]; [|
    intros c Hc Hc'; apply Hshared; [done | by apply Hnew] | done].
  apply drop_Ok in Hdrop as [_ ->]. cbn [rows].
  assert (Forall2 (same_outside enriched_columns)
                  (List.filter (has_class classes) (rows main))
                  (List.filter (has_class classes) (rows enriched))) as Hlisted.
  { apply Forall2_filter. eapply Forall2_impl; [exact Hrows|].
    intros r re Hsame. split; [done|]. unfold has_class, at_label.
    by rewrite (Hsame "link" link_not_enriched). }
  apply Forall2_fmap_r.
  eapply Forall2_trans; [|exact Hlisted|exact Hmerged].
  intros r re rm Hsame (class & Hclass & Hown & Hclassed).
  assert (at_label re "link" = at_label r "link") as Hlink.
  { unfold at_label. by rewrite (Hsame "link" link_not_enriched). }
  split.
  - intros c Hc Hno Hkeep. rewrite lookup_foldr_delete.
    rewrite bool_decide_eq_false_2 by done.
    rewrite (Hown c) by auto. unfold at_label. by rewrite (Hsame c).
  - exists class. split; [by rewrite <- Hlink|].
    intros c Hc Hkeep. rewrite lookup_foldr_delete.
    rewrite bool_decide_eq_false_2 by done.
    apply Hclassed; [done|]. intros ->. apply Hkeep.
    unfold columns_to_drop. set_solver.
Qed.
End Assigning.

(** X20. Cells 10 to 26 together, the correction of the locations, the hidden
    fees, the three distances and the average price, assign eight columns
    and nothing else: the table keeps its rows and their order, every cell
    under another column stays as it is, no column is lost, and a column
    that is new is one of the eight. No listing is added or dropped before
    the merge with the classes. *)
Theorem enrichment_assigns_eight_columns `{Datakit} `{Builtins}
    (df df' : DataFrame) (w w' : world) :
  (df ← locations_step df; df ← fees_step df; df ← distance_columns df;
   average_price df) w = (Ok df', w') ->
  assigns enriched_columns df df'.
Proof. apply enrichment_assigns. Qed.

Lemma enrichment_assigns_eight_columns_witness :
  exists df' w',
    (df ← @locations_step sample_builtins sample_main;
     df ← fees_step df;
     df ← @distance_columns sample_datakit df;
     @average_price sample_datakit sample_builtins df) sample_world
    = (Ok df', w')
    /\ assigns enriched_columns sample_main df'.
Proof.
  set (run := (df ← @locations_step sample_builtins sample_main;
               df ← fees_step df;
               df ← @distance_columns sample_datakit df;
               @average_price sample_datakit sample_builtins df) sample_world).
  assert (run = (Ok (value sample_main run.1), run.2)) as Hrun
    by (apply run_value; vm_compute; reflexivity).
  do 2 eexists. split; [exact Hrun|].
  exact (@enrichment_assigns_eight_columns sample_datakit sample_builtins
           sample_main _ sample_world _ Hrun).
Defined.

(** X21. From the transformed table to the saved one. When the links of the
    transformed table and of the table of classes are texts, no link
    occurs twice in the table of classes, and this table shares no column
    but the link with the transformed table and the eight columns of the
    enrichment, the table that the notebook saves holds exactly the
    listings of the transformed table whose link has a class, in their
    order and once each. Each of them has, under every column of the
    transformed table that is neither assigned by the enrichment nor
    dropped at the end, the cell that the transformation gave it, and
    under the class columns the cells of its link. *)
Theorem saved_table_holds_the_classed_listings `{Datakit} `{Builtins}
    (w w' : world) (raw deduplicated main classes : DataFrame) :
  preparation_notebook w = (Ok tt, w') ->
  files w !! main_csv = Some raw ->
  deduplicate_main raw = Ok deduplicated ->
  transform_data deduplicated true 1 28 true = Ok main ->
  files w !! classes_csv = Some classes ->
  links_are_texts main -> links_are_texts classes ->
  links_unique classes ->
  (forall c, c ∈ columns classes -> c ∈ columns main \/ c ∈ enriched_columns ->
             c = "link") ->
  exists out,
    files w' !! modeling_csv = Some out
    /\ Forall2 (saved_for main classes)
               (List.filter (has_class classes) (rows main)) (rows out).
Proof. intros Hrun Hraw Hdedup Hmain Hclasses _ _. by eapply saved_rows. Qed.

Lemma saved_table_holds_the_classed_listings_witness :
  exists w' out,
    @preparation_notebook sample_datakit sample_builtins sample_world
    = (Ok tt, w')
    /\ files w' !! modeling_csv = Some out
    /\ Forall2 (saved_for sample_main sample_classes)
               (List.filter (has_class sample_classes) (rows sample_main))
               (rows out).
Proof.
  assert (files sample_world !! main_csv = Some sample_main) as Hmain
    by (vm_compute; reflexivity).
  assert (files sample_world !! classes_csv = Some sample_classes) as Hclasses
    by (vm_compute; reflexivity).
  destruct (@saved_table_holds_the_classed_listings
              sample_datakit sample_builtins sample_world _
              sample_main sample_main sample_main sample_classes
              preparation_sample_run Hmain eq_refl eq_refl Hclasses
              (proj1 sample_texts) (proj2 sample_texts) sample_classes_unique
              sample_shared)
    as (out & Hout).
  eexists. exists out. split; [exact preparation_sample_run | exact Hout].
Defined.

(** *** Running a cell again *)

Section Again.

Lemma column_added (label : string) cols :
  label ∈ (if bool_decide (label ∈ cols) then cols else cols ++ [label]).
Proof. case_bool_decide; [done|]. apply elem_of_app. right. left. Qed.

(** A masked assignment from [source] changes nothing in a table that
    already has what it assigns. *)
Lemma update_from_fixed key label value source mapper df :
  set_index key value source = Ok mapper ->
  is_unique mapper = true ->
  key ∈ columns df -> label ∈ columns df ->
  Forall (fun r =>
            r !! label
            = Some (match first_with key (at_label r key) source with
                    | Some fr => at_label fr value
                    | None => at_label r label
                    end)) (rows df) ->
  update_from key label mapper df = Ok df.
Proof.
  intros Hindex Huniq Hkey Hlabel Hrows.
  destruct (update_from key label mapper df) as [df'|e] eqn:E.
  - destruct (update_from_index _ _ _ _ _ _ _ Hindex E) as [Hc Hr].
    rewrite bool_decide_eq_true_2 in Hc by done.
    destruct df as [cols rs], df' as [cols' rs']. simpl in *. subst. f_equal.
    f_equal. rewrite <- (list_fmap_id rs) at 2. apply list_fmap_ext.
    intros i r Hi. apply insert_id.
    rewrite Forall_forall in Hrows. apply Hrows.
    by eapply list_elem_of_lookup_2.
  - exfalso. unfold update_from, map_series, getcol in E.
    rewrite bool_decide_eq_true_2 in E by done. simpl in E.
    by rewrite Huniq in E.
Qed.

Lemma add_hidden_fees_fixed df df_fees df' :
  add_hidden_fees df df_fees = Ok df' -> add_hidden_fees df' df_fees = Ok df'.
Proof.
  unfold add_hidden_fees.
  destruct (set_index "link" "real_additional_fees" df_fees) as [m|] eqn:Em;
    [simpl|done].
  intros E. destruct (update_from_index _ _ _ _ _ _ _ Em E) as [Hc Hr].
  apply update_from_Ok in E as (Huniq & Hkey & _).
  apply (update_from_fixed _ _ _ _ _ _ Em Huniq).
  - rewrite Hc. by apply column_kept.
  - rewrite Hc. apply column_added.
  - rewrite Hr, Forall_fmap. apply Forall_forall. intros r _. simpl.
    rewrite lookup_insert_eq, at_label_insert_ne by done.
    rewrite at_label_insert_eq.
    by destruct (first_with "link" (at_label r "link") df_fees).
Qed.

Lemma correct_locations_fixed df df_locations df' :
  correct_locations df df_locations = Ok df' ->
  correct_locations df' df_locations = Ok df'.
Proof.
  intros Hrun. destruct (correct_locations_Ok _ _ _ Hrun) as [Hrows Hcols].
  unfold correct_locations in Hrun |- *.
  destruct (set_index "link" "latitude" df_locations) as [la|] eqn:Ela;
    [simpl in *|done].
  destruct (set_index "link" "longitude" df_locations) as [lo|] eqn:Elo;
    [simpl in *|done].
  destruct (set_index "link" "real_district" df_locations) as [di|] eqn:Edi;
    [simpl in *|done].
  destruct (update_from "link" "latitude" la df) as [df1|] eqn:E1;
    [simpl in *|done].
  destruct (update_from "link" "longitude" lo df1) as [df2|] eqn:E2;
    [simpl in *|done].
  destruct (update_from_index _ _ _ _ _ _ _ Ela E1) as [C1 _].
  destruct (update_from_index _ _ _ _ _ _ _ Elo E2) as [C2 _].
  destruct (update_from_index _ _ _ _ _ _ _ Edi Hrun) as [C3 _].
  apply update_from_Ok in E1 as (U1 & Hkey & _).
  apply update_from_Ok in E2 as (U2 & _ & _).
  apply update_from_Ok in Hrun as (U3 & _ & _).
  assert ("latitude" ∈ columns df1) as H1.
  { rewrite C1. apply column_added. }
  assert ("longitude" ∈ columns df2) as H2.
  { rewrite C2. apply column_added. }
  assert ("district" ∈ columns df') as H3.
  { rewrite C3. apply column_added. }
  assert ("latitude" ∈ columns df') as H1'.
  { rewrite C3, C2. by do 2 apply column_kept. }
  assert ("longitude" ∈ columns df') as H2'.
  { rewrite C3. by apply column_kept. }
  assert (forall label value,
             (forall r r', place_corrected df_locations r r' ->
                r' !! label
                = Some (match first_with "link" (at_label r' "link") df_locations
                        with
                        | Some fr => at_label fr value
                        | None => at_label r' label
                        end)) ->
             Forall (fun r' =>
                       r' !! label
                       = Some (match first_with "link" (at_label r' "link")
                                       df_locations with
                               | Some fr => at_label fr value
                               | None => at_label r' label
                               end)) (rows df')) as Hall.
  { intros label value Hrow. apply Forall_forall. intros r' Hr'.
    apply list_elem_of_lookup in Hr' as [i Hi].
    destruct (Forall2_lookup_r _ _ _ _ _ Hrows Hi) as (r & _ & Hr).
    by eapply Hrow. }
  assert (forall r r', place_corrected df_locations r r' ->
                       at_label r' "link" = at_label r "link") as Hlink.
  { intros r r' [Hsame _]. unfold at_label. rewrite Hsame; [done|].
    unfold place_columns. rewrite !not_elem_of_cons.
    split_and!; try done. apply not_elem_of_nil. }
  rewrite (update_from_fixed _ _ _ _ _ _ Ela U1); [simpl| by auto | done |].
  2:{ apply Hall. intros r r' Hr. rewrite (Hlink r r' Hr).
      destruct Hr as [_ Hr].
      destruct (first_with "link" (at_label r "link") df_locations);
        destruct Hr as (Hla & _ & _); [done|].
      unfold at_label at 1. by rewrite Hla. }
  rewrite (update_from_fixed _ _ _ _ _ _ Elo U2); [simpl| by auto | done |].
  2:{ apply Hall. intros r r' Hr. rewrite (Hlink r r' Hr).
      destruct Hr as [_ Hr].
      destruct (first_with "link" (at_label r "link") df_locations);
        destruct Hr as (_ & Hlo & _); [done|].
      unfold at_label at 1. by rewrite Hlo. }
  apply (update_from_fixed _ _ _ _ _ _ Edi U3); [by auto | done |].
  apply Hall. intros r r' Hr. rewrite (Hlink r r' Hr).
  destruct Hr as [_ Hr].
  destruct (first_with "link" (at_label r "link") df_locations);
    destruct Hr as (_ & _ & Hdi); [done|].
  unfold at_label at 1. by rewrite Hdi.
Qed.
End Again.

(** X22. Running cell 15 a second time changes nothing: on the table that the
    cell has left, with the same table of the model's output, it returns
    this very table. *)
Theorem hidden_fees_twice_is_once (df df_fees df' : DataFrame) :
  add_hidden_fees df df_fees = Ok df' -> add_hidden_fees df' df_fees = Ok df'.
Proof. apply add_hidden_fees_fixed. Qed.

Lemma hidden_fees_twice_is_once_witness :
  exists df',
    add_hidden_fees sample_main sample_fees = Ok df'
    /\ add_hidden_fees df' sample_fees = Ok df'.
Proof.
  assert (add_hidden_fees sample_main sample_fees = Ok _) as Hrun
    by (apply (result_value sample_main); vm_compute; reflexivity).
  eexists. split; [exact Hrun|].
  exact (hidden_fees_twice_is_once _ _ _ Hrun).
Defined.

(** X23. Running cell 11 a second time changes nothing either: the corrected
    table is returned as it is. *)
Theorem location_correction_twice_is_once (df df_locations df' : DataFrame) :
  correct_locations df df_locations = Ok df' ->
  correct_locations df' df_locations = Ok df'.
Proof. apply correct_locations_fixed. Qed.

Lemma location_correction_twice_is_once_witness :
  exists df_locations df',
    @misleading_locations sample_builtins sample_locations = Ok df_locations
    /\ correct_locations sample_main df_locations = Ok df'
    /\ correct_locations df' df_locations = Ok df'.
Proof.
  set (df_locations :=
         value sample_locations
           (@misleading_locations sample_builtins sample_locations)).
  assert (@misleading_locations sample_builtins sample_locations
          = Ok df_locations) as Hlocations
    by (apply (result_value sample_locations); vm_compute; reflexivity).
  assert (correct_locations sample_main df_locations = Ok _) as Hrun
    by (apply (result_value sample_main); vm_compute; reflexivity).
  exists df_locations. eexists. split; [exact Hlocations|].
  split; [exact Hrun|].
  exact (location_correction_twice_is_once _ _ _ Hrun).
Defined.

(** ** The order of the cells, with the frames they pass on *)

Section Passing.
Context `{Datakit} `{Builtins}.

Lemma world_eq (w : world) fs l :
  files w = fs -> log w = l -> w = {| files := fs; log := l |}.
Proof. destruct w. simpl. by intros -> ->. Qed.

Lemma bind_M_run {A B} (m : M A) (f : A -> M B) w a w1 :
  m w = (Ok a, w1) -> (m ≫= f) w = f a w1.
Proof. intros Hm. unfold mbind, M_bind. by rewrite Hm. Qed.

Lemma lift_run {A} (r : result A) a w : r = Ok a -> lift r w = (Ok a, w).
Proof. by intros ->. Qed.

Lemma read_csv_run path w df :
  files w !! path = Some df ->
  read_csv path w
  = (Ok df, {| files := files w; log := log w ++ [ReadCsv path] |}).
Proof.
  intros Hdf. unfold read_csv, emit, mbind, M_bind. simpl. by rewrite Hdf.
Qed.

Lemma call_run {A} function args (r : result A) a w :
  r = Ok a ->
  call function args r w
  = (Ok a, {| files := files w; log := log w ++ [Call function args] |}).
Proof. by intros ->. Qed.

Ltac run_step :=
  first
    [ erewrite bind_M_run; [|first [ apply read_csv_run | apply call_run
                                   | apply lift_run ]; eassumption]
    | erewrite call_run; [|eassumption]
    | erewrite lift_run; [|eassumption]
    | erewrite read_csv_run; [|eassumption] ];
  cbn [files log].

(** Cells 4 to 8. *)
Lemma prepare_load_iff w main w1 :
  prepare_load w = (Ok main, w1) <->
  exists raw deduplicated,
    loads (files w) raw deduplicated main
    /\ w1 = {| files := files w;
               log := log w ++ [ ReadCsv main_csv;
                                 Call "deduplicate_main" [raw];
                                 Call "transform_data" [deduplicated] ] |}.
Proof.
  unfold prepare_load, loads. split.
  - intros (raw & w2 & (Hraw & Hf2 & Hl2)%read_csv_Ok & Hrun)%bind_M_Ok.
    apply bind_M_Ok in Hrun
      as (dedup & w3 & (Hdedup & Hf3 & Hl3)%call_Ok
          & (Hmain & Hf1 & Hl1)%call_Ok).
    exists raw, dedup. split; [done|].
    apply world_eq; [congruence|].
    by rewrite Hl1, Hl3, Hl2, <- !app_assoc.
  - intros (raw & dedup & (Hraw & Hdedup & Hmain) & ->).
    do 3 run_step. by rewrite <- !app_assoc.
Qed.

(** Cells 10 and 11. *)
Lemma locations_step_iff df w df' w1 :
  locations_step df w = (Ok df', w1) <->
  relocates (files w) df df'
  /\ w1 = {| files := files w; log := log w ++ [ReadCsv locations_csv] |}.
Proof.
  unfold locations_step, relocates. split.
  - intros (csv & w2 & (Hcsv & Hf2 & Hl2)%read_csv_Ok & Hrun)%bind_M_Ok.
    apply bind_M_Ok in Hrun
      as (df_locations & w3 & (Hflagged & ->)%lift_Ok & (Hcorrect & ->)%lift_Ok).
    split; [by exists csv, df_locations | by apply world_eq].
  - intros ((csv & df_locations & Hcsv & Hflagged & Hcorrect) & ->).
    by do 3 run_step.
Qed.

(** Cells 14 and 15. *)
Lemma fees_step_iff df w df' w1 :
  fees_step df w = (Ok df', w1) <->
  adds_fees (files w) df df'
  /\ w1 = {| files := files w; log := log w ++ [ReadCsv fees_csv] |}.
Proof.
  unfold fees_step, adds_fees. split.
  - intros (df_fees & w2 & (Hcsv & Hf2 & Hl2)%read_csv_Ok
            & (Hfees & ->)%lift_Ok)%bind_M_Ok.
    split; [by exists df_fees | by apply world_eq].
  - intros ((df_fees & Hcsv & Hfees) & ->). by do 2 run_step.
Qed.

(** Cells 17 to 21. *)
Lemma distance_columns_iff df w df' w1 :
  distance_columns df w = (Ok df', w1) <->
  exists ztm_stops df1 subway df2,
    measures (files w) df ztm_stops df1 subway df2 df'
    /\ w1 = {| files := files w;
               log := log w ++ [ ReadCsv ztm_stops_csv;
                                 Call "distance_to_nearest_stop" [df; ztm_stops];
                                 Call "distance_to_nearest_stop" [df1; subway];
                                 Call "distance_to_center" [df2] ] |}.
Proof.
  unfold distance_columns, measures, assigned. split.
  - intros (ztm_stops & w2 & (Hcsv & Hf2 & Hl2)%read_csv_Ok & Hrun)%bind_M_Ok.
    apply bind_M_Ok in Hrun as (d1 & w3 & (Hd1 & Hf3 & Hl3)%call_Ok & Hrun).
    apply bind_M_Ok in Hrun as (df1 & w4 & (Hdf1 & ->)%lift_Ok & Hrun).
    apply bind_M_Ok in Hrun as (subway & w5 & (Hsubway & ->)%lift_Ok & Hrun).
    apply bind_M_Ok in Hrun as (d2 & w6 & (Hd2 & Hf6 & Hl6)%call_Ok & Hrun).
    apply bind_M_Ok in Hrun as (df2 & w7 & (Hdf2 & ->)%lift_Ok & Hrun).
    apply bind_M_Ok in Hrun
      as (d3 & w8 & (Hd3 & Hf8 & Hl8)%call_Ok & (Hdf3 & ->)%lift_Ok).
    exists ztm_stops, df1, subway, df2. split.
    + split_and!; [done | by exists d1 | done | by exists d2 | by exists d3].
    + apply world_eq; [congruence|].
      by rewrite Hl8, Hl6, Hl3, Hl2, <- !app_assoc.
  - intros (ztm_stops & df1 & subway & df2
            & (Hcsv & (d1 & Hd1 & Hdf1) & Hsubway & (d2 & Hd2 & Hdf2)
               & (d3 & Hd3 & Hdf3)) & ->).
    do 8 run_step. by rewrite <- !app_assoc.
Qed.

(** Cells 23 to 26. *)
Lemma average_price_iff df w df' w1 :
  average_price df w = (Ok df', w1) <->
  exists legacy,
    prices (files w) df legacy df'
    /\ w1 = {| files := files w;
               log := log w ++ [ Call "concat_csv_files" [];
                                 Call "average_price_within_radius"
                                      [df; legacy] ] |}.
Proof.
  unfold average_price, prices, assigned. split.
  - intros (concatenated & w2 & (Hconcat & Hf2 & Hl2)%call_Ok & Hrun)%bind_M_Ok.
    apply bind_M_Ok in Hrun as (exact & w3 & (Hexact & ->)%lift_Ok & Hrun).
    apply bind_M_Ok in Hrun as (legacy & w4 & (Hlegacy & ->)%lift_Ok & Hrun).
    apply bind_M_Ok in Hrun
      as (avg & w5 & (Havg & Hf5 & Hl5)%call_Ok & (Hdf & ->)%lift_Ok).
    exists legacy. split.
    + exists concatenated, exact. split_and!; [done..|by exists avg].
    + apply world_eq; [congruence|]. by rewrite Hl5, Hl2, <- !app_assoc.
  - intros (legacy & (concatenated & exact & Hconcat & Hexact & Hlegacy
                      & avg & Havg & Hdf) & ->).
    unfold mbind at 1, M_bind at 1.
    erewrite call_run; [|eassumption]. cbn [files log].
    do 4 run_step. by rewrite <- !app_assoc.
Qed.

(** Cells 28 to 31. *)
Lemma classes_and_save_iff df w w1 :
  (df ← classes_step df; save df) w = (Ok tt, w1) <->
  exists out,
    classes_and_cuts (files w) df out
    /\ w1 = {| files := <[modeling_csv := out]> (files w);
               log := log w ++ [ReadCsv classes_csv; ToCsv modeling_csv out] |}.
Proof.
  unfold classes_step, save, classes_and_cuts. split.
  - intros (merged & w2 & Hclasses & Hsave)%bind_M_Ok.
    apply bind_M_Ok in Hclasses
      as (classes & w3 & (Hcsv & Hf3 & Hl3)%read_csv_Ok & (Hmerge & ->)%lift_Ok).
    apply bind_M_Ok in Hsave
      as (out & w4 & (Hdrop & ->)%lift_Ok & [Hf1 Hl1]%to_csv_Ok).
    exists out. split; [by exists classes, merged|].
    apply world_eq; [congruence|]. by rewrite Hl1, Hl3, <- !app_assoc.
  - intros (out & (classes & merged & Hcsv & Hmerge & Hdrop) & ->).
    erewrite bind_M_run; [|by do 2 run_step].
    run_step. unfold to_csv, emit, mbind, M_bind. cbn [files log].
    by rewrite <- !app_assoc.
Qed.

(** The notebook from its first cell to its last. *)
Lemma preparation_notebook_iff w w' :
  preparation_notebook w = (Ok tt, w') <->
  exists raw deduplicated main located feed ztm_stops d1 subway d2 measured
         legacy priced out,
    loads (files w) raw deduplicated main
    /\ relocates (files w) main located
    /\ adds_fees (files w) located feed
    /\ measures (files w) feed ztm_stops d1 subway d2 measured
    /\ prices (files w) measured legacy priced
    /\ classes_and_cuts (files w) priced out
    /\ files w' = <[modeling_csv := out]> (files w)
    /\ log w' = log w ++ preparation_events raw deduplicated feed ztm_stops d1
                           subway d2 measured legacy out.
Proof.
  unfold preparation_notebook, preparation_events. split.
  - intros (main & w1 & (raw & dedup & Hload & ->)%prepare_load_iff
            & Hrun)%bind_M_Ok.
    apply bind_M_Ok in Hrun
      as (located & w2 & [Hplaces ->]%locations_step_iff & Hrun).
    apply bind_M_Ok in Hrun as (feed & w3 & [Hfees ->]%fees_step_iff & Hrun).
    apply bind_M_Ok in Hrun
      as (measured & w4
          & (ztm_stops & d1 & subway & d2 & Hmeasures & ->)%distance_columns_iff
          & Hrun).
    apply bind_M_Ok in Hrun
      as (priced & w5 & (legacy & Hprices & ->)%average_price_iff
          & (out & Hout & ->)%classes_and_save_iff).
    cbn [files log] in *.
    exists raw, dedup, main, located, feed, ztm_stops, d1, subway, d2,
           measured, legacy, priced, out.
    split_and!; [done..|]. by rewrite <- !app_assoc.
  - intros (raw & dedup & main & located & feed & ztm_stops & d1 & subway & d2
            & measured & legacy & priced & out & Hload & Hplaces & Hfees
            & Hmeasures & Hprices & Hout & Hfiles & Hlog).
    erewrite bind_M_run;
      [|apply prepare_load_iff; by exists raw, dedup].
    erewrite bind_M_run; [|by apply locations_step_iff].
    erewrite bind_M_run; [|by apply fees_step_iff].
    erewrite bind_M_run;
      [|apply distance_columns_iff; by exists ztm_stops, d1, subway, d2].
    erewrite bind_M_run; [|apply average_price_iff; by exists legacy].
    apply classes_and_save_iff. exists out. split; [done|].
    cbn [files log]. apply world_eq; [done|].
    by rewrite Hlog, <- !app_assoc.
Qed.
End Passing.

(** C6. The preparation notebook applies its steps in this order, each on
    the table the step before it has made: the scraped main table is read
    and deduplicated, the deduplicated table is transformed, the
    transformed table gets the corrected locations, then the hidden fees,
    then the three distance columns, then the historical average price,
    then the apartment classes, and only the table so enriched, without
    the dropped columns, is written. A run returns exactly when every one
    of these steps returns, and then it has written that table and left
    these reads, calls and the write in the log, in this order and with
    these frames. A run that raises has done a beginning of the steps;
    in every run deduplication and transformation come before every
    enrichment step, and the table is written only after all of them. *)
Theorem preparation_runs_in_order `{Datakit} `{Builtins} (w : world) :
  (exists evs,
     log (preparation_notebook w).2 = log w ++ evs
     /\ (step_of <$> evs) `prefix_of` preparation_steps
     /\ ((preparation_notebook w).1 = Ok tt
         -> step_of <$> evs = preparation_steps)
     /\ (forall s, s ∈ enrichment_steps ++ [Writes modeling_csv] ->
                   s ∈ step_of <$> evs ->
                   in_order (Calls "deduplicate_main") (Calls "transform_data")
                            s (step_of <$> evs))
     /\ (Writes modeling_csv ∈ step_of <$> evs
         -> step_of <$> evs = preparation_steps))
  /\ (forall w',
        preparation_notebook w = (Ok tt, w') <->
        exists raw deduplicated main located feed ztm_stops df1 subway df2
               measured legacy priced out,
          files w !! main_csv = Some raw
          /\ deduplicate_main raw = Ok deduplicated
          /\ transform_data deduplicated true 1 28 true = Ok main
          /\ relocates (files w) main located
          /\ adds_fees (files w) located feed
          /\ measures (files w) feed ztm_stops df1 subway df2 measured
          /\ prices (files w) measured legacy priced
          /\ classes_and_cuts (files w) priced out
          /\ files w' = <[modeling_csv := out]> (files w)
          /\ log w'
             = log w
               ++ [ ReadCsv main_csv; Call "deduplicate_main" [raw];
                    Call "transform_data" [deduplicated];
                    ReadCsv locations_csv;
                    ReadCsv fees_csv;
                    ReadCsv ztm_stops_csv;
                    Call "distance_to_nearest_stop" [feed; ztm_stops];
                    Call "distance_to_nearest_stop" [df1; subway];
                    Call "distance_to_center" [df2];
                    Call "concat_csv_files" [];
                    Call "average_price_within_radius" [measured; legacy];
                    ReadCsv classes_csv;
                    ToCsv modeling_csv out ]).
Proof.
  split.
  - destruct (preparation_notebook_traced w) as (evs & Hlog & Hpre & Hall).
    exists evs. split_and!; [done | done | apply Hall | |].
    + intros s. by apply enrichment_after_transform.
    + by apply saving_comes_last.
  - intros w'. rewrite preparation_notebook_iff. unfold loads.
    split.
    + intros (raw & dedup & main & located & feed & ztm_stops & df1 & subway
              & df2 & measured & legacy & priced & out & (Hraw & Hdedup & Hmain)
              & Hrest).
      by exists raw, dedup, main, located, feed, ztm_stops, df1, subway, df2,
                measured, legacy, priced, out.
    + intros (raw & dedup & main & located & feed & ztm_stops & df1 & subway
              & df2 & measured & legacy & priced & out & Hraw & Hdedup & Hmain
              & Hrest).
      by exists raw, dedup, main, located, feed, ztm_stops, df1, subway, df2,
                measured, legacy, priced, out.
Qed.

(** On the sample files the notebook returns: the deduplicated sample goes
    to [transform_data], and the table written is the one in the file. *)
Lemma preparation_runs_in_order_witness :
  exists w' raw deduplicated out,
    @preparation_notebook sample_datakit sample_builtins sample_world
    = (Ok tt, w')
    /\ files sample_world !! main_csv = Some raw
    /\ @deduplicate_main sample_datakit raw = Ok deduplicated
    /\ log w' !! 2 = Some (Call "transform_data" [deduplicated])
    /\ log w' !! 12 = Some (ToCsv modeling_csv out)
    /\ files w' !! modeling_csv = Some out
    /\ length (log w') = 13.
Proof.
  destruct (proj1 (proj2 (@preparation_runs_in_order
                            sample_datakit sample_builtins sample_world) _)
              preparation_sample_run)
    as (raw & dedup & main & located & feed & ztm_stops & df1 & subway & df2
        & measured & legacy & priced & out & Hraw & Hdedup & Hmain & _ & _ & _
        & _ & _ & Hfiles & Hlog).
  eexists. exists raw, dedup, out.
  split; [exact preparation_sample_run|].
  split; [exact Hraw|]. split; [exact Hdedup|].
  rewrite Hlog, Hfiles.
  split; [reflexivity|]. split; [reflexivity|].
  split; [apply lookup_insert_eq | reflexivity].
Defined.
